(** * Kerosene delivery planner: forecast, fallback cycle, plan reconciliation
      and route sequencing

    A shallow embedding of
      - src/logic/forecast.ts   (yearly target, monthly distribution, date
                                 spacing, horizon assembly),
      - src/utils/predict.ts    (phase-preserving next date),
      - src/db.ts               (plan store and buildMonthlyPlanByThreshold),
      - src/pages/Reception.tsx (predictNextByApi, fallbackNextISO),
      - src/logic/vrp.ts        (haversineKm, buildSimpleRoute),
      - functions/api/predict-next.ts (the prediction endpoint),
      - src/pages/History.tsx   (deleteAllByCustomer).

    Modelling conventions.
      - A JavaScript number that only ever holds an integer is a [Z]; a
        number that may hold a fraction is a [Q] (doubles are read as the
        exact rationals they approximate); the trigonometry of haversineKm
        is read over [R].  Day counts (cycle, horizon) are whole numbers.
      - A string that matches /^\d{4}-\d{2}-\d{2}$/ is the record [ymd] of its
        three numeric fields.  Two such strings compare (<=, sort) as their
        fields do lexicographically, which is what [ymd_leb] computes.  Date
        strings built from numbers have this shape for the years 1000..9999,
        those cut from [toISOString] for the years 0000..9999; theorems that
        state which date a call returns, or that it returns, assume the
        dates involved to be in that range.
      - A [Date] holding a JST midnight is the number of days since
        1970-01-01 (JST), an unbounded integer: the range limit of Date is
        left out.  The runtime's local time zone is JST, as the application
        assumes throughout.
      - The plan table is keyed by [id], which is always
        [`${dateISO}#${customerId}`]: it is a finite set of (date, customer)
        pairs.
      - A loop that the source does not bound takes a fuel argument; running
        out of fuel is the outcome [Diverges]. *)

From Stdlib Require Import ZArith QArith Qround Lia Lra Lqa Bool List Ascii String Reals.
From stdpp Require Import gmap strings list sorting pretty.

Local Open Scope Z_scope.

(** ** Outcomes of a call: a value, a thrown error, or no result *)

Inductive outcome (A : Type) : Type :=
  | Returns (a : A)
  | Throws (msg : string)
  | Diverges.
Arguments Returns {A} a.
Arguments Throws {A} msg.
Arguments Diverges {A}.

#[global] Instance outcome_ret : MRet outcome := fun _ a => Returns a.
#[global] Instance outcome_bind : MBind outcome := fun _ _ k x =>
  match x with
  | Returns a => k a
  | Throws m => Throws m
  | Diverges => Diverges
  end.

(** ** Math.round, Math.floor, Math.ceil on rationals *)

Module JSMath.

Definition floor (x : Q) : Z := Qfloor x.
Definition ceil (x : Q) : Z := Qceiling x.
(** Math.round rounds half-way cases towards +infinity. *)
Definition round (x : Q) : Z := Qfloor (x + (1 # 2))%Q.

End JSMath.

(** ** The calendar of ECMAScript dates, in whole days *)

Module Calendar.

Definition InLeapYear (y : Z) : bool :=
  (y mod 4 =? 0) && (negb (y mod 100 =? 0) || (y mod 400 =? 0)).

Definition DaysInYear (y : Z) : Z := if InLeapYear y then 366 else 365.

(** Day number of 1 January of year [y] (ECMA-262 DayFromYear). *)
Definition DayFromYear (y : Z) : Z :=
  365 * (y - 1970) + (y - 1969) / 4 - (y - 1901) / 100 + (y - 1601) / 400.

(** Days before the first of month [mn] (0 = January). *)
Definition days_before_month (leap : bool) (mn : Z) : Z :=
  let l := if leap then 1 else 0 in
  if mn <=? 0 then 0 else
  if mn =? 1 then 31 else
  if mn =? 2 then 59 + l else
  if mn =? 3 then 90 + l else
  if mn =? 4 then 120 + l else
  if mn =? 5 then 151 + l else
  if mn =? 6 then 181 + l else
  if mn =? 7 then 212 + l else
  if mn =? 8 then 243 + l else
  if mn =? 9 then 273 + l else
  if mn =? 10 then 304 + l else 334 + l.

Definition days_in_month (leap : bool) (mn : Z) : Z :=
  if mn =? 1 then (if leap then 29 else 28)
  else if (mn =? 3) || (mn =? 5) || (mn =? 8) || (mn =? 10) then 30
  else 31.

(** ECMA-262 MakeDay: month and date may overflow their ranges. *)
Definition MakeDay (year month date : Z) : Z :=
  let ym := year + month / 12 in
  let mn := month mod 12 in
  DayFromYear ym + days_before_month (InLeapYear ym) mn + date - 1.

(** ECMA-262 YearFromTime on a day number, through the 400-year cycle that
    starts on 1601-01-01 (day -134774). *)
Definition YearFromDay (d : Z) : Z :=
  let n := d + 134774 in
  let q := n / 146097 in
  let r := n mod 146097 in
  let c := Z.min (r / 36524) 3 in
  let r2 := r - c * 36524 in
  let qd := r2 / 1461 in
  let r3 := r2 mod 1461 in
  let yr := Z.min (r3 / 365) 3 in
  1601 + 400 * q + 100 * c + 4 * qd + yr.

Definition DayWithinYear (d : Z) : Z := d - DayFromYear (YearFromDay d).

Definition month_of_doy (leap : bool) (doy : Z) : Z :=
  let l := if leap then 1 else 0 in
  if doy <? 31 then 0 else
  if doy <? 59 + l then 1 else
  if doy <? 90 + l then 2 else
  if doy <? 120 + l then 3 else
  if doy <? 151 + l then 4 else
  if doy <? 181 + l then 5 else
  if doy <? 212 + l then 6 else
  if doy <? 243 + l then 7 else
  if doy <? 273 + l then 8 else
  if doy <? 304 + l then 9 else
  if doy <? 334 + l then 10 else 11.

(** getMonth (0..11) and getDate (1..31) of a day number. *)
Definition MonthFromDay (d : Z) : Z :=
  month_of_doy (InLeapYear (YearFromDay d)) (DayWithinYear d).

Definition DateFromDay (d : Z) : Z :=
  let leap := InLeapYear (YearFromDay d) in
  DayWithinYear d - days_before_month leap (month_of_doy leap (DayWithinYear d)) + 1.

(** [new Date(year, monthIndex, date)] at local midnight: a year in 0..99
    means 1900 + year. *)
Definition DateLocal (year monthIndex date : Z) : Z :=
  let yr := if (0 <=? year) && (year <=? 99) then 1900 + year else year in
  MakeDay yr monthIndex date.

End Calendar.

(** ** Date strings *)

(** The fields of a string of the shape YYYY-MM-DD. *)
Record ymd : Type := Ymd { year : Z; month : Z; day : Z }.

#[global] Instance ymd_eq_dec : EqDecision ymd.
Proof. solve_decision. Defined.

#[global] Instance ymd_countable : Countable ymd.
Proof.
  apply (inj_countable' (fun d => (year d, month d, day d))
                        (fun t => Ymd t.1.1 t.1.2 t.2)).
  by intros [].
Defined.

(** String comparison of two such strings. *)
Definition ymd_compare (a b : ymd) : comparison :=
  match year a ?= year b with
  | Eq => match month a ?= month b with
          | Eq => day a ?= day b
          | c => c
          end
  | c => c
  end.

Definition ymd_leb (a b : ymd) : bool :=
  match ymd_compare a b with Gt => false | _ => true end.
Definition ymd_ltb (a b : ymd) : bool :=
  match ymd_compare a b with Lt => true | _ => false end.

Definition ymd_le (a b : ymd) : Prop := ymd_leb a b = true.
Definition ymd_lt (a b : ymd) : Prop := ymd_ltb a b = true.

#[global] Instance ymd_le_dec a b : Decision (ymd_le a b).
Proof. unfold ymd_le. apply _. Defined.

(** [Array.prototype.sort()] on such strings. *)
Definition sort_ymd (l : list ymd) : list ymd := merge_sort ymd_le l.

Module DateString.

Definition digit (c : ascii) : option Z :=
  let n := Z.of_N (N_of_ascii c) in
  if (48 <=? n) && (n <=? 57) then Some (n - 48) else None.

(** [ISO_YMD.test(s)] together with the three [slice]s the sources take
    from a matching string: [None] when the pattern does not match. *)
Definition ISO_YMD (s : string) : option ymd :=
  match s with
  | String y1 (String y2 (String y3 (String y4 (String "-"
    (String m1 (String m2 (String "-"
    (String d1 (String d2 EmptyString))))))))) =>
      a ← digit y1; b ← digit y2; c ← digit y3; d ← digit y4;
      e ← digit m1; f ← digit m2; g ← digit d1; h ← digit d2;
      Some (Ymd (1000 * a + 100 * b + 10 * c + d) (10 * e + f) (10 * g + h))
  | _ => None
  end.

Definition digit_char (n : Z) : ascii := ascii_of_N (Z.to_N (48 + n mod 10)).

(** [String(n).padStart(2, '0')] for 0 <= n <= 99. *)
Definition pad2 (n : Z) : string :=
  String (digit_char (n / 10)) (String (digit_char n) EmptyString).

(** The first ten characters of [toISOString()], for years 0..9999. *)
Definition to_string (d : ymd) : string :=
  pad2 (year d / 100) +:+ pad2 (year d mod 100) +:+ "-" +:+
  pad2 (month d) +:+ "-" +:+ pad2 (day d).

(** [new Date(`${ymd}T00:00:00+09:00`)]: the day number, or [None] for an
    Invalid Date.  Month 1..12 and day 1..31 are accepted; a day past the
    end of its month rolls over into the next month. *)
Definition parseYmd (s : ymd) : option Z :=
  if (1 <=? month s) && (month s <=? 12) && (1 <=? day s) && (day s <=? 31)
  then Some (Calendar.MakeDay (year s) (month s - 1) (day s))
  else None.

(** [new Date(d.getTime() + 9h).toISOString().slice(0, 10)] *)
Definition jstYmdFromDate (d : Z) : ymd :=
  Ymd (Calendar.YearFromDay d) (Calendar.MonthFromDay d + 1) (Calendar.DateFromDay d).

(** [d.setDate(n)] *)
Definition setDate (d n : Z) : Z :=
  Calendar.MakeDay (Calendar.YearFromDay d) (Calendar.MonthFromDay d) n.

(** [toISOString] of an Invalid Date throws a RangeError. *)
Definition addDaysYmd (s : ymd) (days : Z) : outcome ymd :=
  match parseYmd s with
  | None => Throws "RangeError: Invalid time value"
  | Some d => Returns (jstYmdFromDate (setDate d (Calendar.DateFromDay d + days)))
  end.

Definition maxYmd (a b : ymd) : ymd := if ymd_leb b a then a else b.

End DateString.

(** ** src/logic/forecast.ts *)

Module Forecast.
Import DateString.

Record YearlyCount : Type := { yc_year : Z; yc_count : Z }.

Record PlanResult : Type := {
  targetYearCount : Z;
  monthlyCounts : list Z;
  plannedDates : list ymd
}.

(** [Object.entries] of an object keyed by years: ascending keys. *)
Definition key_le (a b : Z * list ymd) : Prop := a.1 <= b.1.
#[global] Instance key_le_dec a b : Decision (key_le a b).
Proof. unfold key_le. apply _. Defined.

Definition entries (byYear : gmap Z (list ymd)) : list (Z * list ymd) :=
  merge_sort key_le (map_to_list byYear).

(** [byYear[y].push(d)], creating the array when the key is new. *)
Definition push_year (y : Z) (d : ymd) (byYear : gmap Z (list ymd)) :
    gmap Z (list ymd) :=
  <[ y := default [] (byYear !! y) ++ [d] ]> byYear.

Definition splitHistoryByYear (historyDates : list string)
    (baseYear maxYearsBack : Z) : gmap Z (list ymd) :=
  let minYear := baseYear - maxYearsBack in
  let byYear :=
    fold_left (fun acc s =>
      match ISO_YMD s with
      | None => acc
      | Some d =>
          let y := year d in
          if baseYear <? y then acc
          else if y <? minYear then acc
          else push_year y d acc
      end) historyDates ∅ in
  sort_ymd <$> byYear.

Definition year_le (a b : YearlyCount) : Prop := yc_year a <= yc_year b.
#[global] Instance year_le_dec a b : Decision (year_le a b).
Proof. unfold year_le. apply _. Defined.

Definition calcYearlyCounts (byYear : gmap Z (list ymd)) : list YearlyCount :=
  merge_sort year_le
    ((fun e => {| yc_year := e.1; yc_count := Z.of_nat (length e.2) |})
       <$> entries byYear).

Definition sumZ (l : list Z) : Z := fold_left Z.add l 0.
Definition sumQ (l : list Q) : Q := fold_left Qplus l 0%Q.

Definition find_year (yearlyCounts : list YearlyCount) (baseYear : Z) :
    option YearlyCount :=
  List.find (fun s => yc_year s =? baseYear) yearlyCounts.

Definition average (yearlyCounts : list YearlyCount) : Q :=
  (inject_Z (sumZ (yc_count <$> yearlyCounts))
     / inject_Z (Z.of_nat (length yearlyCounts)))%Q.

Definition decideTargetYearCount (yearlyCounts : list YearlyCount)
    (baseYear : Z) : Z :=
  match yearlyCounts with
  | [] => 0
  | _ =>
      let lastYearCount :=
        match find_year yearlyCounts baseYear with
        | Some s => yc_count s
        | None => 0
        end in
      if lastYearCount <=? 0 then JSMath.round (average yearlyCounts)
      else
        let avgPast := average yearlyCounts in
        let target := JSMath.round avgPast in
        let minAllowed := JSMath.floor (inject_Z lastYearCount * (85 # 100))%Q in
        let maxAllowed := JSMath.ceil (inject_Z lastYearCount * (13 # 10))%Q in
        let target := if target <? minAllowed then minAllowed else target in
        let target := if maxAllowed <? target then maxAllowed else target in
        let target := if target <=? 0 then lastYearCount else target in
        target
  end.

(** [targetArr[m - 1] += 1] for every date of a year's array. *)
Definition count_months (dates : list ymd) (arr : list Z) : list Z :=
  fold_left (fun a d =>
    let m := month d in
    if (m <? 1) || (12 <? m) then a else alter Z.succ (Z.to_nat (m - 1)) a)
    dates arr.

Definition calcMonthlyWeights (byYear : gmap Z (list ymd)) (baseYear : Z)
    (wLast wPast : Q) : list Q :=
  let '(last, past) :=
    fold_left (fun '(last, past) e =>
      if e.1 =? baseYear then (count_months e.2 last, past)
      else (last, count_months e.2 past))
      (entries byYear) (replicate 12 0, replicate 12 0) in
  let weights :=
    zip_with (fun l p => (wLast * inject_Z l + wPast * inject_Z p)%Q) last past in
  let sum := sumQ weights in
  if Qle_bool sum 0 then replicate 12 (1 # 12)%Q
  else (fun w => (w / sum)%Q) <$> weights.

(** The remainder loop: [steps] is [limit - idx]. *)
Fixpoint redistribute (steps idx : nat) (monthly : list Z) (diff : Z) : list Z :=
  match steps with
  | O => monthly
  | S steps' =>
      if diff =? 0 then monthly
      else
        let i := (idx mod 12)%nat in
        if 0 <? diff then
          redistribute steps' (S idx) (alter Z.succ i monthly) (diff - 1)
        else if (diff <? 0) && (0 <? default 0 (monthly !! i)) then
          redistribute steps' (S idx) (alter Z.pred i monthly) (diff + 1)
        else redistribute steps' (S idx) monthly diff
  end.

Definition makeMonthlyTargets (targetYearCount : Z) (shares : list Q) : list Z :=
  if targetYearCount <=? 0 then replicate 12 0
  else
    let raw := (fun s => (s * inject_Z targetYearCount)%Q) <$> shares in
    let monthly := JSMath.round <$> raw in
    let diff := targetYearCount - sumZ monthly in
    redistribute (12 * 3) 0 monthly diff.

(** [new Date(year, month, 0).getDate()] *)
Definition daysInMonth (year month : Z) : Z :=
  Calendar.DateFromDay (Calendar.DateLocal year month 0).

Definition generateDatesForMonth (year month count : Z) : list ymd :=
  if count <=? 0 then []
  else
    let dim := daysInMonth year month in
    let step := (inject_Z dim / inject_Z count)%Q in
    (fun i =>
       let day := JSMath.round (inject_Z i * step + step / 2)%Q in
       let d := Z.min (Z.max day 1) dim in
       Ymd year month d) <$> seqZ 0 count.

(** The month-by-month walk of buildPlanFromHistory. *)
Fixpoint month_walk (fuel : nat) (monthlyCounts : list Z) (endDate : Z)
    (y m : Z) : outcome (list ymd) :=
  match fuel with
  | O => Diverges
  | S fuel' =>
      let monthStart := Calendar.DateLocal y (m - 1) 1 in
      if endDate <? monthStart then Returns []
      else
        let count := default 0 (monthlyCounts !! Z.to_nat (m - 1)) in
        let here := generateDatesForMonth y m count in
        rest ← (if m =? 12 then month_walk fuel' monthlyCounts endDate (y + 1) 1
                else month_walk fuel' monthlyCounts endDate y (m + 1));
        Returns (here ++ rest)
  end.

Definition MAX_YEARS_BACK : Z := 3.

Definition buildPlanFromHistory (fuel : nat) (historyDates : list string)
    (baseYear : Z) (startFromYmd : option string) (horizonDays : Z) :
    outcome PlanResult :=
  match historyDates with
  | [] => Throws "historyDates is empty"
  | _ =>
    let byYear := splitHistoryByYear historyDates baseYear MAX_YEARS_BACK in
    let yearlyCounts := calcYearlyCounts byYear in
    match yearlyCounts with
    | [] => Throws "no valid history"
    | _ =>
      match find_year yearlyCounts baseYear with
      | None => Throws "no history in baseYear"
      | Some lastYearStat =>
        if yc_count lastYearStat <=? 0 then Throws "no history in baseYear"
        else
          let targetYearCount := decideTargetYearCount yearlyCounts baseYear in
          let shares := calcMonthlyWeights byYear baseYear (7 # 10) (3 # 10) in
          let monthlyCounts := makeMonthlyTargets targetYearCount shares in
          let defaultStart := Ymd (baseYear + 1) 1 1 in
          let startYmd :=
            match startFromYmd with
            | Some s => default defaultStart (ISO_YMD s)
            | None => defaultStart
            end in
          endYmd ← addDaysYmd startYmd horizonDays;
          match parseYmd startYmd, parseYmd endYmd with
          | Some startDate, Some endDate =>
              let y := Calendar.YearFromDay startDate in
              let m := Calendar.MonthFromDay startDate + 1 in
              plannedDatesAll ← month_walk fuel monthlyCounts endDate y m;
              let plannedDates :=
                sort_ymd (List.filter (fun d => ymd_leb startYmd d && ymd_leb d endYmd)
                                      plannedDatesAll) in
              Returns {| targetYearCount := targetYearCount;
                         monthlyCounts := monthlyCounts;
                         plannedDates := plannedDates |}
          | _, _ => Diverges
          end
      end
    end
  end.

End Forecast.

(** ** src/utils/predict.ts *)

Inductive TankType : Type := TankA | TankB | TankC.

Module Predict.
Import DateString.

(** The optional [fallback] is [None] when absent or not finite. *)
Definition cycleDaysFromTank (t : option TankType) (fallback : option Z) : Z :=
  match t with
  | Some TankA => 38
  | Some TankB => 42
  | Some TankC => 51
  | None => default 42 fallback
  end.

(** [while (next <= today) next = addDaysYmd(next, cycle)] *)
Fixpoint skip_past (fuel : nat) (cycle : Z) (today next : ymd) : outcome ymd :=
  match fuel with
  | O => Diverges
  | S fuel' =>
      if ymd_leb next today then
        next' ← addDaysYmd next cycle;
        skip_past fuel' cycle today next'
      else Returns next
  end.

Record Opts : Type := {
  tankType : option TankType;
  cycleDays : option Z;
  lastDate : option string;
  historyDates : option (list string);
  today : option ymd
}.

(** [clock] is the JST day of [new Date()]. *)
Definition predictNextDatePhaseAligned (fuel : nat) (clock : Z) (opts : Opts) :
    outcome ymd :=
  let today := default (jstYmdFromDate clock) (today opts) in
  let cycle :=
    match cycleDays opts with
    | Some c => c
    | None => cycleDaysFromTank (tankType opts) None
    end in
  let base : option ymd :=
    match historyDates opts with
    | Some (_ :: _ as hs) =>
        fold_left (fun m s => match m with
                              | Some m' => Some (maxYmd m' s)
                              | None => Some s
                              end)
                  (omap ISO_YMD hs) None
    | _ => None
    end in
  let base :=
    match base with
    | Some b => Some b
    | None => lastDate opts ≫= ISO_YMD
    end in
  match base with
  | None => addDaysYmd today cycle
  | Some base =>
      next ← addDaysYmd base cycle;
      skip_past fuel cycle today next
  end.

End Predict.

(** ** src/db.ts *)

Module Db.
Import DateString.

Record Customer : Type := { id : option Z; tankType : option TankType }.

Record Order : Type := { o_customerId : Z; date : string }.

(** A plan record; its key [id] is always [`${dateISO}#${customerId}`], so
    the record is determined by these two fields and the table, keyed by
    [id], is a finite set of them. *)
Record PlanRecord : Type := { dateISO : ymd; customerId : Z }.

#[global] Instance PlanRecord_eq_dec : EqDecision PlanRecord.
Proof. solve_decision. Defined.

#[global] Instance PlanRecord_countable : Countable PlanRecord.
Proof.
  apply (inj_countable' (fun p => (dateISO p, customerId p))
                        (fun t => {| dateISO := t.1; customerId := t.2 |})).
  by intros [].
Defined.

Definition cycleDaysFromTank := Predict.cycleDaysFromTank.

Definition orders_of (orders : list Order) (customerId : Z) : list Order :=
  List.filter (fun o => o_customerId o =? customerId) orders.

Definition getLastDeliveredYmd (orders : list Order) (customerId : Z) :
    option ymd :=
  fold_left (fun last o =>
    match ISO_YMD (date o) with
    | Some d => match last with
                | Some l => Some (maxYmd l d)
                | None => Some d
                end
    | None => last
    end) (orders_of orders customerId) None.

Definition string_le (a b : string) : Prop := String.leb a b = true.
#[global] Instance string_le_dec a b : Decision (string_le a b).
Proof. unfold string_le. apply _. Defined.

Definition getHistoryDatesForCustomer (orders : list Order)
    (customerId baseYear maxYearsBack : Z) : list string :=
  let minYear := baseYear - maxYearsBack in
  let out :=
    List.filter (fun s =>
      match ISO_YMD s with
      | None => false
      | Some d => negb (baseYear <? year d) && negb (year d <? minYear)
      end) (date <$> orders_of orders customerId) in
  merge_sort string_le out.

Definition upsertPlan (dateISO : ymd) (customerId : Z)
    (plans : gset PlanRecord) : gset PlanRecord :=
  {[ {| dateISO := dateISO; customerId := customerId |} ]} ∪ plans.

Definition deleteFuturePlansForCustomer (cid : Z) (fromYmd : ymd)
    (plans : gset PlanRecord) : gset PlanRecord :=
  filter (fun p => ¬ (customerId p = cid ∧ ymd_le fromYmd (dateISO p))) plans.

Definition deleteAllPlansForCustomer (cid : Z)
    (plans : gset PlanRecord) : gset PlanRecord :=
  filter (fun p => customerId p ≠ cid) plans.

Record Options : Type := {
  horizonDays : option Z;
  fallbackCycleDays : option Z;
  maxYearsBack : option Z
}.

(** [while (next <= horizonEnd) { upsertPlan(next, cid); next = addDaysYmd(next, cycle) }] *)
Fixpoint fill_horizon (fuel : nat) (cycle : Z) (horizonEnd : ymd) (cid : Z)
    (next : ymd) (plans : gset PlanRecord) : outcome (gset PlanRecord) :=
  match fuel with
  | O => Diverges
  | S fuel' =>
      if ymd_leb next horizonEnd then
        let plans := upsertPlan next cid plans in
        next' ← addDaysYmd next cycle;
        fill_horizon fuel' cycle horizonEnd cid next' plans
      else Returns plans
  end.

(** [d.slice(0, 4) === String(baseYear)]: the right-hand side has four
    characters for the years 1000..9999 only. *)
Definition in_base_year (baseYear : Z) (s : string) : bool :=
  match ISO_YMD s with
  | Some d => (1000 <=? baseYear) && (baseYear <=? 9999) && (year d =? baseYear)
  | None => false
  end.

Section Pass.
Variable fuel : nat.
Variables hDays fbCycle maxBack : Z.
Variables today horizonEnd : ymd.
Variable baseYear : Z.
Variable orders : list Order.

(** Branch 2 of the loop body: the fixed-cycle fallback. *)
Definition fallback_branch (c : Customer) (cid : Z)
    (plans : gset PlanRecord) : outcome (gset PlanRecord) :=
  match getLastDeliveredYmd orders cid with
  | None => Returns (deleteAllPlansForCustomer cid plans)
  | Some last =>
      let plans := deleteFuturePlansForCustomer cid today plans in
      let cycle := cycleDaysFromTank (tankType c) (Some fbCycle) in
      next ← addDaysYmd last cycle;
      next ← Predict.skip_past fuel cycle today next;
      fill_horizon fuel cycle horizonEnd cid next plans
  end.

(** One iteration of [for (const c of customers)]. *)
Definition reconcile_customer (c : Customer)
    (plans : gset PlanRecord) : outcome (gset PlanRecord) :=
  match id c with
  | None => Returns plans
  | Some cid =>
      let historyDates :=
        getHistoryDatesForCustomer orders cid baseYear maxBack in
      let baseYearDates := List.filter (in_base_year baseYear) historyDates in
      match baseYearDates with
      | _ :: _ =>
          let plans := deleteFuturePlansForCustomer cid today plans in
          match Forecast.buildPlanFromHistory fuel historyDates baseYear
                  (Some (to_string today)) hDays with
          | Returns r =>
              Returns (fold_left (fun ps d =>
                         if ymd_ltb d today then ps else upsertPlan d cid ps)
                       (Forecast.plannedDates r) plans)
          | Throws _ => fallback_branch c cid plans
          | Diverges => Diverges
          end
      | [] => fallback_branch c cid plans
      end
  end.

Fixpoint for_customers (customers : list Customer)
    (plans : gset PlanRecord) : outcome (gset PlanRecord) :=
  match customers with
  | [] => Returns plans
  | c :: rest =>
      plans' ← reconcile_customer c plans;
      for_customers rest plans'
  end.
End Pass.

(** [clock] is the JST day of [new Date()]. *)
Definition buildMonthlyPlanByThreshold (fuel : nat) (clock : Z)
    (opts : option Options) (customers : list Customer) (orders : list Order)
    (plans : gset PlanRecord) : outcome (gset PlanRecord) :=
  let hDays := default 370 (opts ≫= horizonDays) in
  let fbCycle := default 42 (opts ≫= fallbackCycleDays) in
  let maxBack := default 3 (opts ≫= maxYearsBack) in
  let today := jstYmdFromDate clock in
  horizonEnd ← addDaysYmd today hDays;
  let currentYear := year today in
  let baseYear := currentYear - 1 in
  for_customers fuel hDays fbCycle maxBack today horizonEnd baseYear orders
    customers plans.

End Db.

(** ** src/pages/Reception.tsx *)

Module Reception.
Import DateString.

(** A property of the parsed response body.  [JOther] is a value of
    another type (number, boolean, object) whose string form does not match
    the date pattern. *)
Inductive json_value : Type :=
  | JUndefined
  | JNull
  | JString (s : string)
  | JOther.

Inductive body : Type :=
  | BodyParseError
  | BodyNull
  | BodyObject (next nextDate : json_value).

(** What [fetch('/api/predict-next', ...)] settles to. *)
Inductive fetch_result : Type :=
  | FetchRejects
  | Response (ok : bool) (status : Z) (b : body).

Definition matches_ISO (s : string) : bool :=
  match ISO_YMD s with Some _ => true | None => false end.

Definition predictNextByApi (r : fetch_result) : option string :=
  match r with
  | FetchRejects => None
  | Response false _ _ => None
  | Response true _ BodyParseError => None
  | Response true _ BodyNull => None
  | Response true _ (BodyObject next nextDate) =>
      let iso := match next with JString s => JString s | _ => nextDate end in
      match iso with
      | JString s => if matches_ISO s then Some s else None
      | _ => None
      end
  end.

(** [`${d.getFullYear()}-${pad2(d.getMonth() + 1)}-${pad2(d.getDate())}`] *)
Definition local_ymd_string (d : Z) : string :=
  pretty (Calendar.YearFromDay d) +:+ "-" +:+
  pad2 (Calendar.MonthFromDay d + 1) +:+ "-" +:+ pad2 (Calendar.DateFromDay d).

Definition fallbackNextISO (lastISO : ymd) (tankCapacity monthlyUsage : Q) :
    option string :=
  if Qle_bool tankCapacity 0 || Qle_bool monthlyUsage 0 then None
  else
    let dailyUse := (monthlyUsage / 30)%Q in
    let usable := (tankCapacity * (85 # 100))%Q in
    let days := Z.max 7 (JSMath.floor (usable / dailyUse)%Q) in
    match parseYmd lastISO with
    | None => Some "NaN-NaN-NaN"
    | Some d => Some (local_ymd_string (setDate d (Calendar.DateFromDay d + days)))
    end.

(** [const nextISO = apiNext ?? fallback] *)
Definition nextISO (r : fetch_result) (iso : ymd)
    (tankCapacity monthlyUsage : Q) : option string :=
  match predictNextByApi r with
  | Some s => Some s
  | None => fallbackNextISO iso tankCapacity monthlyUsage
  end.


End Reception.

(** ** src/logic/vrp.ts *)

Module Vrp.

Section Route.
(** The numbers involved: coordinates and distances, with the test
    [d < bestDist].  [bestDist] starts as Infinity, here [None], and
    every distance is below it. *)
Variable num : Type.
Variable num_lt : num -> num -> bool.

Record Point : Type := { lat : num; lng : num }.
Record RouteCandidate : Type := { rc_id : Z; rc_lat : num; rc_lng : num }.

Definition point_of (c : RouteCandidate) : Point :=
  {| lat := rc_lat c; lng := rc_lng c |}.

Variable distanceKm : Point -> Point -> num.

Definition below (d : num) (bestDist : option num) : bool :=
  match bestDist with
  | None => true
  | Some b => num_lt d b
  end.

(** The inner [for] loop, from index [i] over the rest of [remaining]. *)
Fixpoint scan (current : Point) (rest : list RouteCandidate) (i : nat)
    (bestIndex : nat) (bestDist : option num) : nat :=
  match rest with
  | [] => bestIndex
  | r :: rest' =>
      let d := distanceKm current (point_of r) in
      if below d bestDist then scan current rest' (S i) i (Some d)
      else scan current rest' (S i) bestIndex bestDist
  end.

(** The [while (remaining.length > 0)] loop; [n] is [remaining.length]. *)
Fixpoint route_loop (n : nat) (current : Point)
    (remaining route : list RouteCandidate) : list RouteCandidate :=
  match n with
  | O => route
  | S n' =>
      let bestIndex := scan current remaining 0 0 None in
      match remaining !! bestIndex with
      | Some next =>
          route_loop n' (point_of next) (delete bestIndex remaining)
                     (route ++ [next])
      | None => route
      end
  end.

Definition buildSimpleRoute (depot : Point)
    (candidates : list RouteCandidate) : list RouteCandidate :=
  route_loop (length candidates) depot candidates [].
End Route.

Arguments lat {num} _.
Arguments lng {num} _.
Arguments rc_id {num} _.
Arguments rc_lat {num} _.
Arguments rc_lng {num} _.
Arguments point_of {num} _.

(** haversineKm, with numbers read as reals. *)
Definition toRad (d : R) : R := (d * PI / 180)%R.

Definition haversineKm (a b : Point R) : R :=
  let dLat := toRad (lat b - lat a) in
  let dLng := toRad (lng b - lng a) in
  let lat1 := toRad (lat a) in
  let lat2 := toRad (lat b) in
  let h := (sin (dLat / 2) ^ 2 + cos lat1 * cos lat2 * sin (dLng / 2) ^ 2)%R in
  (2 * 6371 * asin (Rmin 1 (sqrt h)))%R.

Definition Rltb (x y : R) : bool := if Rlt_dec x y then true else false.

Definition buildSimpleRouteKm : Point R -> list (RouteCandidate R) ->
    list (RouteCandidate R) :=
  buildSimpleRoute R Rltb haversineKm.

End Vrp.

(** * Vocabulary of the statements *)

Module DateSpec.
Import Calendar DateString.

(** A calendar date proper: the month exists and the day is in it. *)
Definition real_date (s : ymd) : Prop :=
  1 <= month s <= 12 /\
  1 <= day s <= days_in_month (InLeapYear (year s)) (month s - 1).

(** The day number of a calendar date. *)
Definition day_number (s : ymd) : Z := MakeDay (year s) (month s - 1) (day s).

(** The day falls in the years 0000..9999, for which [toISOString] starts
    with YYYY-MM-DD. *)
Definition four_digit_year (d : Z) : Prop := 0 <= YearFromDay d <= 9999.

End DateSpec.

Module ForecastSpec.
Import DateString Forecast.

(** Number of months with a positive count. *)
Definition count_pos (l : list Z) : Z :=
  Z.of_nat (length (List.filter (fun x => 0 <? x) l)).

(** The history strings that match the pattern and carry year [y]. *)
Definition dates_of_year (y : Z) (historyDates : list string) : list ymd :=
  omap (fun s => d ← ISO_YMD s; if year d =? y then Some d else None) historyDates.

Definition has_base_year (historyDates : list string) (baseYear : Z) : Prop :=
  exists s d, s ∈ historyDates /\ ISO_YMD s = Some d /\ year d = baseYear.

(** The body of the first loop of splitHistoryByYear. *)
Definition split_step (baseYear minYear : Z) (acc : gmap Z (list ymd))
    (s : string) : gmap Z (list ymd) :=
  match ISO_YMD s with
  | None => acc
  | Some d =>
      let y := year d in
      if baseYear <? y then acc
      else if y <? minYear then acc
      else push_year y d acc
  end.

(** The start date buildPlanFromHistory works from. *)
Definition start_of (baseYear : Z) (startFromYmd : option string) : ymd :=
  match startFromYmd with
  | Some s => default (Ymd (baseYear + 1) 1 1) (ISO_YMD s)
  | None => Ymd (baseYear + 1) 1 1
  end.

(** [startFromYmd] is given and matches the pattern; otherwise the default
    start [`${baseYear + 1}-01-01`] is used. *)
Definition start_given (startFromYmd : option string) : bool :=
  match startFromYmd with
  | Some s => bool_decide (is_Some (ISO_YMD s))
  | None => false
  end.

(** The window of the plan is made of dates: the start is one the Date
    parser accepts (a default start has a four-digit year), and the end of
    the horizon falls in the years 0000..9999. *)
Definition window_accepted (baseYear : Z) (startFromYmd : option string)
    (horizonDays : Z) : Prop :=
  (start_given startFromYmd = false -> 1000 <= baseYear + 1 <= 9999) /\
  match parseYmd (start_of baseYear startFromYmd) with
  | Some startDate => DateSpec.four_digit_year (startDate + horizonDays)
  | None => False
  end.


(** Lexicographic position of a date's month. *)
Definition month_index (d : ymd) : Z := 12 * year d + month d.

Definition sample_counts : list YearlyCount :=
  [ {| yc_year := 2022; yc_count := 9 |};
    {| yc_year := 2023; yc_count := 2 |};
    {| yc_year := 2024; yc_count := 3 |} ].

Definition history_2024 : list string :=
  ["2024-01-05"; "2024-02-10"; "2024-03-08"]%string.

Definition plan_2024 : PlanResult :=
  {| targetYearCount := 3;
     monthlyCounts := [1; 1; 1; 0; 0; 0; 0; 0; 0; 0; 0; 0];
     plannedDates := [Ymd 2025 1 16; Ymd 2025 2 14; Ymd 2025 3 16] |}.

(** Twenty-nine deliveries on the twenty-nine days of February 2024. *)
Definition history_feb_2024 : list string :=
  [ "2024-02-01"; "2024-02-02"; "2024-02-03"; "2024-02-04"; "2024-02-05";
    "2024-02-06"; "2024-02-07"; "2024-02-08"; "2024-02-09"; "2024-02-10";
    "2024-02-11"; "2024-02-12"; "2024-02-13"; "2024-02-14"; "2024-02-15";
    "2024-02-16"; "2024-02-17"; "2024-02-18"; "2024-02-19"; "2024-02-20";
    "2024-02-21"; "2024-02-22"; "2024-02-23"; "2024-02-24"; "2024-02-25";
    "2024-02-26"; "2024-02-27"; "2024-02-28"; "2024-02-29" ]%string.

End ForecastSpec.

Module PredictSpec.
Import Predict.

(** The options of a call with a last delivery date and a today. *)
Definition opts_of (tank : option TankType) (cycleDays : option Z)
    (last : string) (today : ymd) : Opts :=
  {| tankType := tank; Predict.cycleDays := cycleDays; lastDate := Some last;
     historyDates := None; Predict.today := Some today |}.

(** The cycle such a call works with: [cycleDays], or the tank's. *)
Definition cycle_of (tank : option TankType) (cycleDays : option Z) : Z :=
  match cycleDays with
  | Some c => c
  | None => cycleDaysFromTank tank None
  end.

End PredictSpec.

Module DbSpec.
Import DateString Db.

(** The customer has at least one delivery record with a well-formed date. *)
Definition has_delivery (orders : list Order) (cid : Z) : Prop :=
  is_Some (getLastDeliveredYmd orders cid).

Definition mkPlan (d : ymd) (cid : Z) : PlanRecord :=
  {| dateISO := d; customerId := cid |}.

(** The dates the fallback loop upserts, without the store. *)
Fixpoint horizon_dates (fuel : nat) (cycle : Z) (horizonEnd next : ymd) :
    outcome (list ymd) :=
  match fuel with
  | O => Diverges
  | S fuel' =>
      if ymd_leb next horizonEnd then
        next' ← addDaysYmd next cycle;
        rest ← horizon_dates fuel' cycle horizonEnd next';
        Returns (next :: rest)
      else Returns []
  end.

Definition add_dates (cid : Z) (ds : list ymd) (plans : gset PlanRecord) :
    gset PlanRecord :=
  list_to_set ((fun d => mkPlan d cid) <$> ds) ∪ plans.

(** The body of the loop of getLastDeliveredYmd. *)
Definition last_step (last : option ymd) (o : Order) : option ymd :=
  match ISO_YMD (date o) with
  | Some d => match last with
              | Some l => Some (maxYmd l d)
              | None => Some d
              end
  | None => last
  end.

(** The customers whose plan entries a pass drops altogether: those
    without any well-formed delivery date. *)
Definition purged_by (orders : list Order) (c : Customer) (cid : Z) : Prop :=
  id c = Some cid /\ ~ has_delivery orders cid.

Definition purged_in (orders : list Order) (customers : list Customer)
    (cid : Z) : Prop :=
  exists c, c ∈ customers /\ purged_by orders c cid.

(** What a step of the pass does to the plan table, entry by entry: an
    entry is in the table afterwards when the step adds it, or when the
    step keeps it and it was there before.  [purged] are the customers
    whose entries the step drops altogether. *)
Record effect_ok (today : ymd) (orders : list Order) (purged : Z -> Prop)
    (keep add : PlanRecord -> Prop) : Prop := {
  add_not_kept : forall p, add p -> ~ keep p;
  add_future : forall p, add p -> ymd_le today (dateISO p);
  add_delivered : forall p, add p -> has_delivery orders (customerId p);
  past_kept : forall p, ymd_lt (dateISO p) today ->
                keep p \/ purged (customerId p);
  purged_dropped : forall p, purged (customerId p) -> ~ keep p;
  purged_new : forall cid, purged cid -> ~ has_delivery orders cid
}.

Definition acts (F : gset PlanRecord -> outcome (gset PlanRecord))
    (keep add : PlanRecord -> Prop) : Prop :=
  forall s, exists s', F s = Returns s' /\
    forall p, p ∈ s' <-> add p \/ (keep p /\ p ∈ s).

Definition never_returns (F : gset PlanRecord -> outcome (gset PlanRecord)) :
    Prop :=
  forall s s', F s <> Returns s'.

Definition reconciles (today : ymd) (orders : list Order) (purged : Z -> Prop)
    (F : gset PlanRecord -> outcome (gset PlanRecord)) : Prop :=
  never_returns F \/
  exists keep add, effect_ok today orders purged keep add /\ acts F keep add.

Definition returned_elements (o : outcome (gset PlanRecord)) :
    option (list PlanRecord) :=
  match o with
  | Returns s => Some (elements s)
  | _ => None
  end.

(** A run on 2025-02-20: customer 1 delivered in the base year, customer 2
    only earlier, customer 3 never. *)
Definition sample_clock : Z := Calendar.MakeDay 2025 1 20.

Definition sample_customers : list Customer :=
  [ {| id := Some 1; tankType := Some TankA |};
    {| id := Some 2; tankType := Some TankC |};
    {| id := Some 3; tankType := None |} ].

Definition sample_orders : list Order :=
  [ {| o_customerId := 1; date := "2024-03-10" |};
    {| o_customerId := 2; date := "2022-03-05" |} ].

Definition sample_plans : gset PlanRecord :=
  list_to_set [ mkPlan (Ymd 2025 1 2) 1; mkPlan (Ymd 2025 3 1) 1;
                mkPlan (Ymd 2025 1 1) 3 ].

Definition sample_opts : option Options :=
  Some {| horizonDays := Some 100; fallbackCycleDays := None;
          maxYearsBack := None |}.

Definition sample_after : gset PlanRecord :=
  list_to_set [ mkPlan (Ymd 2025 1 2) 1; mkPlan (Ymd 2025 3 16) 1;
                mkPlan (Ymd 2025 3 31) 2; mkPlan (Ymd 2025 5 21) 2 ].

End DbSpec.

Module ReceptionSpec.


End ReceptionSpec.

Module VrpSpec.
Import Vrp.

Section Nearest.
Variable num : Type.
Variable num_lt : num -> num -> bool.
Variable distanceKm : Point num -> Point num -> num.

(** Every stop of the route is, among itself and the stops after it, one
    that no other is strictly nearer to the position reached so far. *)
Fixpoint nearest_first (current : Point num)
    (route : list (RouteCandidate num)) : Prop :=
  match route with
  | [] => True
  | x :: rest =>
      (forall y, y ∈ rest ->
         num_lt (distanceKm current (point_of y))
                (distanceKm current (point_of x)) = false) /\
      nearest_first (point_of x) rest
  end.

(** State of the inner loop after the stops [pre]. *)
Definition best_so_far (current : Point num) (pre : list (RouteCandidate num))
    (bestIndex : nat) (bestDist : option num) : Prop :=
  match bestDist with
  | None => pre = []
  | Some bd =>
      exists b, pre !! bestIndex = Some b /\
        bd = distanceKm current (point_of b) /\
        forall e, e ∈ pre -> num_lt (distanceKm current (point_of e)) bd = false
  end.
End Nearest.

Arguments nearest_first {num} _ _ _ _.

(** Each stop is a nearest one, by haversine distance, among the stops
    not yet visited. *)
Fixpoint nearest_first_km (current : Point R)
    (route : list (RouteCandidate R)) : Prop :=
  match route with
  | [] => True
  | x :: rest =>
      (forall y, y ∈ rest ->
         (haversineKm current (point_of x)
            <= haversineKm current (point_of y))%R) /\
      nearest_first_km (point_of x) rest
  end.

Definition depot0 : Point R := {| lat := 34%R; lng := 132%R |}.
Definition stopA : RouteCandidate R :=
  {| rc_id := 1; rc_lat := (3401 / 100)%R; rc_lng := 132%R |}.
Definition stopB : RouteCandidate R :=
  {| rc_id := 2; rc_lat := 34%R; rc_lng := (13205 / 100)%R |}.

End VrpSpec.

(** * Further functions of the same sources *)

(** ** src/utils/predict.ts: a year of dates, plan summary, plan adjustment *)

Module PredictPlan.
Import DateString Predict.



Record YearlyPlanSummary : Type := {
  s_year : Z;
  s_totalCount : Z;
  s_monthlyCounts : list Z
}.

(** [if (Number.isFinite(y) && y < minYear) minYear = y], with Infinity
    as [None]. *)
Definition min_year (valid : list ymd) : option Z :=
  fold_left (fun minYear d =>
    match minYear with
    | None => Some (year d)
    | Some m => if year d <? m then Some (year d) else Some m
    end) valid None.

(** [clock] is the JST day of [new Date()]. *)
Definition summarizePlannedDates (clock : Z) (plannedDates : list string) :
    option YearlyPlanSummary :=
  match plannedDates with
  | [] => None
  | _ =>
      let valid := omap ISO_YMD plannedDates in
      match valid with
      | [] => None
      | _ =>
          let year_ :=
            match min_year valid with
            | Some y => y
            | None => Calendar.YearFromDay clock
            end in
          let monthlyCounts :=
            fold_left (fun a d =>
              let m := month d in
              if (m <? 1) || (12 <? m) then a
              else if negb (year d =? year_) then a
              else alter Z.succ (Z.to_nat (m - 1)) a)
              valid (replicate 12 0) in
          Some {| s_year := year_;
                  s_totalCount := Forecast.sumZ monthlyCounts;
                  s_monthlyCounts := monthlyCounts |}
      end
  end.

Record RagPlanAdjustment : Type := {
  addDates : option (list string);
  removeDates : option (list string)
}.

(** [set.add(d)] on a Set, which keeps insertion order. *)
Definition set_add (d : ymd) (s : list ymd) : list ymd :=
  if decide (d ∈ s) then s else s ++ [d].

(** [new Set(array)] *)
Definition new_Set (l : list ymd) : list ymd :=
  fold_left (fun s d => set_add d s) l [].

Definition applyPlanAdjustment (plannedDates : list string)
    (adjustment : RagPlanAdjustment) : list ymd :=
  let removeSet := new_Set (omap ISO_YMD (default [] (removeDates adjustment))) in
  let addSet := new_Set (omap ISO_YMD (default [] (addDates adjustment))) in
  let base := omap ISO_YMD plannedDates in
  let outSet :=
    fold_left (fun out d => if decide (d ∈ removeSet) then out else set_add d out)
              base [] in
  let outSet := fold_left (fun out d => set_add d out) addSet outSet in
  sort_ymd outSet.

End PredictPlan.

(** ** src/db.ts: years, plan ids, purge *)

Module DbAdmin.
Import DateString Db.



(** [`${dateISO}#${customerId}`], for an integer customerId below 10^21. *)
Definition planId (dateISO : string) (customerId : Z) : string :=
  dateISO +:+ "#" +:+ pretty customerId.

Inductive Scope : Type := ScopeAll | ScopeFuture.

(** The table after the call, and the number the call resolves to.
    [clock] is the JST day of [new Date()]. *)
Definition purgePlansForCustomer (clock : Z) (cid : Z) (scope : option Scope)
    (fromYmd : option ymd) (plans : gset PlanRecord) : gset PlanRecord * Z :=
  match default ScopeAll scope with
  | ScopeAll =>
      let all := filter (fun p => customerId p = cid) plans in
      (plans ∖ all, Z.of_nat (size all))
  | ScopeFuture =>
      let base := default (jstYmdFromDate clock) fromYmd in
      let all := filter (fun p => customerId p = cid) plans in
      let targets := filter (fun p => ymd_le base (dateISO p)) all in
      (plans ∖ targets, Z.of_nat (size targets))
  end.

End DbAdmin.

(** ** functions/api/predict-next.ts *)

Module PredictNextApi.
Import DateString.

(** The parsed request body.  [b_lastDate] is the string form of the
    property, [None] when it is absent or null (a falsy value has a string
    form that the pattern rejects); [b_cycleDays] is [Some] for a finite
    number (of whole days). *)
Record BodyIn : Type := { b_lastDate : option string; b_cycleDays : option Z }.

(** [request.json()] either fails or gives a body. *)
Inductive request_json : Type :=
  | NotJson
  | Json (b : BodyIn).

Inductive reply_body : Type :=
  | ReplyNext (next : ymd)      (* { ok: true, next } *)
  | ReplyMessage (message : string)  (* { ok: false, message } *)
  | ReplyNull.

Record reply : Type := { status : Z; body : reply_body }.

Definition addDaysJst (s : ymd) (days : Z) : outcome ymd :=
  match parseYmd s with
  | None => Throws "RangeError: Invalid time value"
  | Some d => Returns (jstYmdFromDate (setDate d (Calendar.DateFromDay d + days)))
  end.

Definition onRequestPost (request : request_json) : reply :=
  let body := match request with
              | NotJson => {| b_lastDate := None; b_cycleDays := None |}
              | Json b => b
              end in
  match b_lastDate body ≫= ISO_YMD, b_cycleDays body with
  | Some lastDate, Some cycleDays =>
      match addDaysJst lastDate cycleDays with
      | Returns next => {| status := 200; body := ReplyNext next |}
      | _ => {| status := 500; body := ReplyMessage "internal error" |}
      end
  | _, _ => {| status := 400; body := ReplyMessage "bad request" |}
  end.

Definition onRequestOptions : reply := {| status := 204; body := ReplyNull |}.

Definition onRequest (method : string) (request : request_json) : reply :=
  if String.eqb method "POST" then onRequestPost request
  else if String.eqb method "OPTIONS" then onRequestOptions
  else {| status := 405; body := ReplyMessage "method not allowed" |}.

End PredictNextApi.

(** ** src/pages/Reception.tsx: the request sent to the prediction API *)

Module ReceptionApi.
Import PredictNextApi.

Inductive Season : Type := Winter | Summer | Other.

Definition seasonOf (month : Z) : Season :=
  if (month =? 12) || (month =? 1) || (month =? 2) then Winter
  else if (month =? 6) || (month =? 7) || (month =? 8) then Summer
  else Other.

(** The argument of predictNextByApi. *)
Record ApiInput : Type := {
  in_name : string;
  in_capacity : Q;
  in_usage : Q;
  in_tankType : TankType;
  in_lastDate : string;
  in_season : Season
}.

(** [JSON.stringify(input)] as the handler reads it back: of the two
    properties the handler looks at, [lastDate] is there and [cycleDays] is
    not. *)
Definition posted (input : ApiInput) : request_json :=
  Json {| b_lastDate := Some (in_lastDate input); b_cycleDays := None |}.

End ReceptionApi.

(** ** src/pages/History.tsx: deleting a customer's history *)

Module HistoryPage.
Import DateString Db DbAdmin.

(** [deleteAllByCustomer], once the dialog is confirmed and the id is a
    number: the customer's orders go (the rows of [list], deleted by their
    keys), the customer's plans are purged, and the plan is rebuilt.  The
    result is the order table and the plan table afterwards. *)
Definition deleteAllByCustomer (fuel : nat) (clock : Z)
    (customers : list Customer) (orders : list Order) (plans : gset PlanRecord)
    (customerId : Z) : outcome (list Order * gset PlanRecord) :=
  let orders := List.filter (fun o => negb (o_customerId o =? customerId)) orders in
  let plans := (purgePlansForCustomer clock customerId None None plans).1 in
  plans ← buildMonthlyPlanByThreshold fuel clock None customers orders plans;
  Returns (orders, plans).

End HistoryPage.

(** * Vocabulary of the further statements *)

Module PlanSpec.

(** The date falls in month [M] of year [Y]. *)
Definition in_month (Y M : Z) (d : ymd) : bool := (year d =? Y) && (month d =? M).


End PlanSpec.

Module MaxSpec.
Import DateString.

(** The step of a running maximum of dates: [m ? maxYmd(m, s) : s]. *)
Definition max_step (m : option ymd) (s : ymd) : option ymd :=
  match m with
  | Some m' => Some (maxYmd m' s)
  | None => Some s
  end.

End MaxSpec.

Module DbPassSpec.
Import DateString Db.

(** The customer's deliveries of the base year, as a pass run at [clock]
    with options [opts] sees them. *)
Definition base_year_dates (clock : Z) (opts : option Options)
    (orders : list Order) (cid : Z) : list string :=
  let baseYear := year (jstYmdFromDate clock) - 1 in
  List.filter (in_base_year baseYear)
    (getHistoryDatesForCustomer orders cid baseYear
       (default 3 (opts ≫= maxYearsBack))).

Definition zero_cycle_opts : option Options :=
  Some {| horizonDays := None; fallbackCycleDays := Some 0; maxYearsBack := None |}.

Definition customer_5 : Customer := {| id := Some 5; tankType := None |}.

Definition orders_5 : list Order := [ {| o_customerId := 5; date := "2022-03-05" |} ].

End DbPassSpec.

Module DbAdminSpec.
Import DateString Db DbAdmin.

(** The entries a purge removes. *)
Definition purge_target (clock cid : Z) (scope : option Scope)
    (fromYmd : option ymd) (p : PlanRecord) : Prop :=
  customerId p = cid /\
  match default ScopeAll scope with
  | ScopeAll => True
  | ScopeFuture => ymd_le (default (jstYmdFromDate clock) fromYmd) (dateISO p)
  end.


End DbAdminSpec.

Module HistoryPageSpec.
Import DateString Db DbSpec.

(** What a pass may add to the plan table: an entry between today and the
    end of the horizon, for a listed customer with a delivery on record. *)
Definition planned_for (today horizonEnd : ymd) (orders : list Order)
    (customers : list Customer) (p : PlanRecord) : Prop :=
  ymd_le today (dateISO p) /\ ymd_le (dateISO p) horizonEnd /\
  has_delivery orders (customerId p) /\
  exists c, c ∈ customers /\ id c = Some (customerId p).

End HistoryPageSpec.

Module ApiSpec.
Import DateString Reception PredictNextApi.

(** What [fetch] resolves to when the handler's reply arrives: [ok] for a
    status 200..299, and the reply's JSON as the body. *)
Definition as_fetched (r : reply) : fetch_result :=
  Response ((200 <=? status r) && (status r <=? 299)) (status r)
    match body r with
    | ReplyNext next => BodyObject (JString (to_string next)) JUndefined
    | ReplyMessage _ => BodyObject JUndefined JUndefined
    | ReplyNull => BodyParseError
    end.

End ApiSpec.

Module ChainSpec.
Import DateString.



End ChainSpec.

Module SummarySpec.
Import PlanSpec.

(** The step of the earliest-year loop of summarizePlannedDates. *)
Definition min_step (minYear : option Z) (d : ymd) : option Z :=
  match minYear with
  | None => Some (year d)
  | Some m => if year d <? m then Some (year d) else Some m
  end.

(** The step of its counting loop. *)
Definition tally_step (year_ : Z) (a : list Z) (d : ymd) : list Z :=
  let m := month d in
  if (m <? 1) || (12 <? m) then a
  else if negb (year d =? year_) then a
  else alter Z.succ (Z.to_nat (m - 1)) a.

(** The date is of year [Y] and its month field is a month. *)
Definition counted (Y : Z) (d : ymd) : bool :=
  (year d =? Y) && (1 <=? month d) && (month d <=? 12).

(** How many of the dates fall in month [M] of year [Y]. *)
Definition month_total (Y M : Z) (l : list ymd) : Z :=
  Z.of_nat (length (List.filter (in_month Y M) l)).

End SummarySpec.

(** * Lemmas and theorems *)

Module CalendarFacts.
Import Calendar.

Ltac split_eqb :=
  repeat match goal with
         | |- context [?a =? ?b] => destruct (Z.eqb_spec a b)
         | |- context [?a <? ?b] => destruct (Z.ltb_spec a b)
         | |- context [?a <=? ?b] => destruct (Z.leb_spec a b)
         end.

Lemma DayFromYear_succ y : DayFromYear (y + 1) = DayFromYear y + DaysInYear y.
Proof.
  unfold DayFromYear, DaysInYear, InLeapYear.
  split_eqb; simpl; Z.div_mod_to_equations; lia.
Qed.

Lemma DaysInYear_range y : 365 <= DaysInYear y <= 366.
Proof. unfold DaysInYear. destruct (InLeapYear y); lia. Qed.

Lemma DayFromYear_mono y1 y2 : y1 <= y2 -> DayFromYear y1 <= DayFromYear y2.
Proof.
  intros H. unfold DayFromYear. Z.div_mod_to_equations. lia.
Qed.

Lemma DayFromYear_lt y1 y2 : y1 < y2 -> DayFromYear y1 + DaysInYear y1 <= DayFromYear y2.
Proof.
  intros H. rewrite <- DayFromYear_succ. apply DayFromYear_mono. lia.
Qed.

Lemma YearFromDay_bounds d :
  DayFromYear (YearFromDay d) <= d
    < DayFromYear (YearFromDay d) + DaysInYear (YearFromDay d).
Proof.
  unfold DayFromYear, DaysInYear, InLeapYear, YearFromDay.
  split_eqb; simpl; Z.div_mod_to_equations; lia.
Qed.

Lemma DayWithinYear_bounds d : 0 <= DayWithinYear d < DaysInYear (YearFromDay d).
Proof. unfold DayWithinYear. pose proof (YearFromDay_bounds d). lia. Qed.

(** Within a year, month and date recover the day of the year. *)
Lemma month_of_doy_spec (leap : bool) (doy : Z) :
  0 <= doy < (if leap then 366 else 365) ->
  let mn := month_of_doy leap doy in
  0 <= mn <= 11 /\
  1 <= doy - days_before_month leap mn + 1 <= days_in_month leap mn.
Proof.
  intros H. unfold month_of_doy, days_before_month, days_in_month.
  destruct leap; split_eqb; simpl; lia.
Qed.

Lemma MonthFromDay_range d : 0 <= MonthFromDay d <= 11.
Proof.
  unfold MonthFromDay. pose proof (DayWithinYear_bounds d) as H.
  unfold DaysInYear in H. apply (month_of_doy_spec _ _ H).
Qed.

Lemma DateFromDay_range d :
  1 <= DateFromDay d <= days_in_month (InLeapYear (YearFromDay d)) (MonthFromDay d).
Proof.
  unfold DateFromDay, MonthFromDay. pose proof (DayWithinYear_bounds d) as H.
  unfold DaysInYear in H. apply (month_of_doy_spec _ _ H).
Qed.

Lemma days_in_month_range (leap : bool) (mn : Z) : 28 <= days_in_month leap mn <= 31.
Proof. unfold days_in_month. destruct leap; split_eqb; simpl; lia. Qed.

Lemma MakeDay_in_range (y mn dt : Z) :
  0 <= mn <= 11 ->
  MakeDay y mn dt = DayFromYear y + days_before_month (InLeapYear y) mn + dt - 1.
Proof.
  intros H. unfold MakeDay.
  replace (mn / 12) with 0 by (Z.div_mod_to_equations; lia).
  replace (mn mod 12) with mn by (Z.div_mod_to_equations; lia).
  by rewrite Z.add_0_r.
Qed.

(** Year, month and date of a day number give the day number back. *)
Lemma MakeDay_of_day d :
  MakeDay (YearFromDay d) (MonthFromDay d) (DateFromDay d) = d.
Proof.
  rewrite MakeDay_in_range by apply MonthFromDay_range.
  unfold DateFromDay, MonthFromDay, DayWithinYear. lia.
Qed.

(** [setDate] moves a date by whole days. *)
Lemma setDate_shift d n :
  MakeDay (YearFromDay d) (MonthFromDay d) (DateFromDay d + n) = d + n.
Proof.
  pose proof (MakeDay_of_day d) as H.
  rewrite MakeDay_in_range in * by apply MonthFromDay_range. lia.
Qed.

Lemma days_before_month_bounds (leap : bool) (mn : Z) :
  0 <= mn <= 11 ->
  0 <= days_before_month leap mn /\
  days_before_month leap mn + days_in_month leap mn <= (if leap then 366 else 365).
Proof.
  intros H. unfold days_before_month, days_in_month.
  destruct leap; split_eqb; simpl; lia.
Qed.

Lemma days_before_month_step (leap : bool) (mn mn' : Z) :
  0 <= mn -> mn < mn' -> mn' <= 11 ->
  days_before_month leap mn + days_in_month leap mn <= days_before_month leap mn'.
Proof.
  intros H1 H2 H3. unfold days_before_month, days_in_month.
  destruct leap; split_eqb; simpl; lia.
Qed.
End CalendarFacts.

Module YmdFacts.
Import Calendar CalendarFacts DateString.
Import DateSpec.

Lemma ymd_compare_spec (a b : ymd) :
  match ymd_compare a b with
  | Lt => year a < year b \/ (year a = year b /\ (month a < month b \/
            (month a = month b /\ day a < day b)))
  | Eq => a = b
  | Gt => year b < year a \/ (year a = year b /\ (month b < month a \/
            (month a = month b /\ day b < day a)))
  end.
Proof.
  destruct a as [ya ma da], b as [yb mb db]. unfold ymd_compare. simpl.
  destruct (Z.compare_spec ya yb); [|lia..].
  destruct (Z.compare_spec ma mb); [|lia..].
  destruct (Z.compare_spec da db); [|lia..].
  congruence.
Qed.

Lemma ymd_compare_antisym (a b : ymd) :
  ymd_compare b a = CompOpp (ymd_compare a b).
Proof.
  destruct a as [ya ma da], b as [yb mb db]. unfold ymd_compare. simpl.
  rewrite (Z.compare_antisym ya yb), (Z.compare_antisym ma mb),
    (Z.compare_antisym da db).
  destruct (ya ?= yb), (ma ?= mb), (da ?= db); reflexivity.
Qed.

Lemma ymd_leb_ltb (a b : ymd) : ymd_leb a b = negb (ymd_ltb b a).
Proof.
  unfold ymd_leb, ymd_ltb. rewrite (ymd_compare_antisym a b).
  destruct (ymd_compare a b); reflexivity.
Qed.

#[export] Instance ymd_le_refl : Reflexive ymd_le.
Proof.
  intros a. unfold ymd_le, ymd_leb.
  pose proof (ymd_compare_spec a a) as H.
  destruct (ymd_compare a a); [done..|lia].
Qed.

#[export] Instance ymd_le_trans : Transitive ymd_le.
Proof.
  intros a b c. unfold ymd_le, ymd_leb.
  pose proof (ymd_compare_spec a b) as H1.
  pose proof (ymd_compare_spec b c) as H2.
  pose proof (ymd_compare_spec a c) as H3.
  destruct (ymd_compare a b), (ymd_compare b c), (ymd_compare a c);
    try done; subst; lia.
Qed.

#[export] Instance ymd_le_total : Total ymd_le.
Proof.
  intros a b. unfold ymd_le, ymd_leb. rewrite (ymd_compare_antisym a b).
  destruct (ymd_compare a b); simpl; auto.
Qed.

#[export] Instance ymd_le_antisym : AntiSymm eq ymd_le.
Proof.
  intros a b. unfold ymd_le, ymd_leb. rewrite (ymd_compare_antisym a b).
  pose proof (ymd_compare_spec a b) as H.
  destruct (ymd_compare a b); simpl; done.
Qed.

Lemma ymd_lt_le (a b : ymd) : ymd_lt a b -> ymd_le a b.
Proof. unfold ymd_lt, ymd_le, ymd_ltb, ymd_leb. by destruct (ymd_compare a b). Qed.

Lemma ymd_lt_iff (a b : ymd) : ymd_lt a b <-> ymd_le a b /\ a <> b.
Proof.
  unfold ymd_lt, ymd_le, ymd_ltb, ymd_leb.
  pose proof (ymd_compare_spec a b) as H.
  destruct (ymd_compare a b); split; try done.
  - intros [_ ?]. done.
  - intros _. split; [done|]. intros ->. lia.
  - intros [? _]. done.
Qed.

Lemma MakeDay_lex_lt (y1 m1 d1 y2 m2 d2 : Z) :
  0 <= m1 <= 11 -> 1 <= d1 <= days_in_month (InLeapYear y1) m1 ->
  0 <= m2 <= 11 -> 1 <= d2 <= days_in_month (InLeapYear y2) m2 ->
  y1 < y2 \/ (y1 = y2 /\ (m1 < m2 \/ (m1 = m2 /\ d1 < d2))) ->
  MakeDay y1 m1 d1 < MakeDay y2 m2 d2.
Proof.
  intros Hm1 Hd1 Hm2 Hd2 Hlex.
  rewrite !MakeDay_in_range by done.
  pose proof (days_before_month_bounds (InLeapYear y1) m1 Hm1) as B1.
  pose proof (days_before_month_bounds (InLeapYear y2) m2 Hm2) as B2.
  destruct Hlex as [Hy | [-> [Hm | [-> Hd]]]].
  - pose proof (DayFromYear_lt y1 y2 Hy) as HY. unfold DaysInYear in HY. lia.
  - pose proof (days_before_month_step (InLeapYear y2) m1 m2). lia.
  - lia.
Qed.

Lemma jst_fields (d : Z) :
  0 <= month (jstYmdFromDate d) - 1 <= 11 /\
  1 <= day (jstYmdFromDate d)
    <= days_in_month (InLeapYear (year (jstYmdFromDate d)))
                     (month (jstYmdFromDate d) - 1).
Proof.
  simpl. replace (MonthFromDay d + 1 - 1) with (MonthFromDay d) by lia.
  split; [apply MonthFromDay_range | apply DateFromDay_range].
Qed.

Lemma jst_real_date (d : Z) : real_date (jstYmdFromDate d).
Proof. pose proof (jst_fields d). unfold real_date. lia. Qed.

Lemma jst_MakeDay (d : Z) :
  MakeDay (year (jstYmdFromDate d)) (month (jstYmdFromDate d) - 1)
          (day (jstYmdFromDate d)) = d.
Proof.
  simpl. replace (MonthFromDay d + 1 - 1) with (MonthFromDay d) by lia.
  apply MakeDay_of_day.
Qed.

(** Formatting day numbers is an order embedding. *)
Lemma jst_compare (a b : Z) :
  ymd_compare (jstYmdFromDate a) (jstYmdFromDate b) = (a ?= b).
Proof.
  pose proof (ymd_compare_spec (jstYmdFromDate a) (jstYmdFromDate b)) as H.
  pose proof (jst_fields a) as [Ma Da]. pose proof (jst_fields b) as [Mb Db].
  pose proof (jst_MakeDay a) as Ea. pose proof (jst_MakeDay b) as Eb.
  destruct (ymd_compare (jstYmdFromDate a) (jstYmdFromDate b)); symmetry.
  - apply Z.compare_eq_iff. congruence.
  - apply Z.compare_lt_iff. rewrite <- Ea, <- Eb.
    apply MakeDay_lex_lt; try done. lia.
  - apply Z.compare_gt_iff. rewrite <- Ea, <- Eb.
    apply MakeDay_lex_lt; try done. lia.
Qed.

Lemma jst_leb (a b : Z) : ymd_leb (jstYmdFromDate a) (jstYmdFromDate b) = (a <=? b).
Proof. unfold ymd_leb, Z.leb. rewrite jst_compare. by destruct (a ?= b). Qed.

Lemma jst_ltb (a b : Z) : ymd_ltb (jstYmdFromDate a) (jstYmdFromDate b) = (a <? b).
Proof. unfold ymd_ltb, Z.ltb. rewrite jst_compare. by destruct (a ?= b). Qed.

Lemma jst_inj (a b : Z) : jstYmdFromDate a = jstYmdFromDate b -> a = b.
Proof. intros H. rewrite <- (jst_MakeDay a), <- (jst_MakeDay b). by rewrite H. Qed.

Lemma parseYmd_jst (d : Z) : parseYmd (jstYmdFromDate d) = Some d.
Proof.
  unfold parseYmd. pose proof (jst_fields d) as [M D].
  pose proof (days_in_month_range (InLeapYear (year (jstYmdFromDate d)))
                (month (jstYmdFromDate d) - 1)).
  rewrite jst_MakeDay.
  destruct (Z.leb_spec 1 (month (jstYmdFromDate d))); [|lia].
  destruct (Z.leb_spec (month (jstYmdFromDate d)) 12); [|lia].
  destruct (Z.leb_spec 1 (day (jstYmdFromDate d))); [|lia].
  destruct (Z.leb_spec (day (jstYmdFromDate d)) 31); [|lia].
  reflexivity.
Qed.

Lemma parseYmd_real (s : ymd) : real_date s -> is_Some (parseYmd s).
Proof.
  intros [M D]. unfold parseYmd.
  pose proof (days_in_month_range (InLeapYear (year s)) (month s - 1)).
  destruct (Z.leb_spec 1 (month s)); [|lia].
  destruct (Z.leb_spec (month s) 12); [|lia].
  destruct (Z.leb_spec 1 (day s)); [|lia].
  destruct (Z.leb_spec (day s) 31); [|lia].
  eauto.
Qed.

Lemma jst_parse_real (s : ymd) (d : Z) :
  real_date s -> parseYmd s = Some d -> jstYmdFromDate d = s.
Proof.
  intros [M D] HP.
  assert (parseYmd s = Some (MakeDay (year s) (month s - 1) (day s))) as E.
  { destruct (parseYmd_real s) as [x Hx]; [done|]. rewrite Hx.
    unfold parseYmd in Hx. destruct (_ && _); congruence. }
  pose proof (ymd_compare_spec (jstYmdFromDate d) s) as H.
  pose proof (jst_fields d) as [Ma Da]. pose proof (jst_MakeDay d) as Ea.
  assert (d = MakeDay (year s) (month s - 1) (day s)) as Ed by congruence.
  destruct (ymd_compare (jstYmdFromDate d) s); [done|exfalso..].
  - assert (MakeDay (year (jstYmdFromDate d)) (month (jstYmdFromDate d) - 1)
              (day (jstYmdFromDate d)) < MakeDay (year s) (month s - 1) (day s)).
    { apply MakeDay_lex_lt; try done; lia. }
    lia.
  - assert (MakeDay (year s) (month s - 1) (day s) <
            MakeDay (year (jstYmdFromDate d)) (month (jstYmdFromDate d) - 1)
              (day (jstYmdFromDate d))).
    { apply MakeDay_lex_lt; try done; lia. }
    lia.
Qed.

Lemma addDaysYmd_parsed (s : ymd) (d n : Z) :
  parseYmd s = Some d -> addDaysYmd s n = Returns (jstYmdFromDate (d + n)).
Proof.
  intros H. unfold addDaysYmd, setDate. rewrite H. by rewrite setDate_shift.
Qed.

Lemma addDaysYmd_jst (d n : Z) :
  addDaysYmd (jstYmdFromDate d) n = Returns (jstYmdFromDate (d + n)).
Proof. apply addDaysYmd_parsed, parseYmd_jst. Qed.

Lemma addDaysYmd_invalid (s : ymd) (n : Z) :
  parseYmd s = None -> exists m, addDaysYmd s n = Throws m.
Proof. intros H. unfold addDaysYmd. rewrite H. eauto. Qed.

End YmdFacts.

Module ForecastFacts.
Import Calendar CalendarFacts DateString YmdFacts Forecast.
Import DateSpec.

Lemma daysInMonth_range (y m : Z) : 28 <= daysInMonth y m <= 31.
Proof.
  unfold daysInMonth.
  pose proof (DateFromDay_range (DateLocal y m 0)) as H.
  split; [ |pose proof (days_in_month_range
              (InLeapYear (YearFromDay (DateLocal y m 0)))
              (MonthFromDay (DateLocal y m 0))); lia].
  (* day 0 of a month is the last day of the month before *)
  unfold DateLocal. clear H.
  generalize (if (0 <=? y) && (y <=? 99) then 1900 + y else y). intros yr.
  unfold MakeDay.
  set (ym := yr + m / 12). set (mn := m mod 12).
  assert (0 <= mn <= 11) as Hmn by (subst mn; Z.div_mod_to_equations; lia).
  clearbody ym mn.
  (* the day before the first of month [mn] of year [ym] *)
  set (d := DayFromYear ym + days_before_month (InLeapYear ym) mn + 0 - 1).
  destruct (decide (mn = 0)) as [->|Hne].
  - (* 31 December of the year before *)
    assert (d = MakeDay (ym - 1) 11 31) as Hd.
    { rewrite MakeDay_in_range by lia. subst d.
      pose proof (DayFromYear_succ (ym - 1)) as HS.
      replace (ym - 1 + 1) with ym in HS by lia. rewrite HS.
      unfold DaysInYear, days_before_month. simpl.
      destruct (InLeapYear (ym - 1)); lia. }
    assert (jstYmdFromDate d = Ymd (ym - 1) 12 31) as HJ.
    { apply jst_parse_real.
      - split; simpl; [lia|]. unfold days_in_month. simpl. lia.
      - unfold parseYmd. simpl. by rewrite Hd. }
    injection HJ as _ _ ->. lia.
  - assert (d = MakeDay ym (mn - 1) (days_in_month (InLeapYear ym) (mn - 1))) as Hd.
    { rewrite MakeDay_in_range by lia. subst d.
      unfold days_before_month, days_in_month.
      destruct (InLeapYear ym); split_eqb; simpl; lia. }
    pose proof (days_in_month_range (InLeapYear ym) (mn - 1)) as HR.
    assert (jstYmdFromDate d =
            Ymd ym mn (days_in_month (InLeapYear ym) (mn - 1))) as HJ.
    { apply jst_parse_real.
      - split; simpl; lia.
      - unfold parseYmd. simpl.
        replace ((1 <=? mn) && (mn <=? 12)) with true by lia.
        replace (1 <=? days_in_month (InLeapYear ym) (mn - 1)) with true by lia.
        replace (days_in_month (InLeapYear ym) (mn - 1) <=? 31) with true by lia.
        simpl. by rewrite Hd. }
    injection HJ as _ _ ->. lia.
Qed.

Lemma generateDatesForMonth_length (y m c : Z) :
  length (generateDatesForMonth y m c) = Z.to_nat c.
Proof.
  unfold generateDatesForMonth. destruct (Z.leb_spec c 0).
  - simpl. lia.
  - by rewrite length_fmap, length_seqZ.
Qed.

Lemma generateDatesForMonth_fields (y m c : Z) :
  Forall (fun d => year d = y /\ month d = m /\ 1 <= day d <= daysInMonth y m)
         (generateDatesForMonth y m c).
Proof.
  unfold generateDatesForMonth. destruct (Z.leb_spec c 0); [constructor|].
  apply Forall_fmap, Forall_forall. intros i _. simpl.
  pose proof (daysInMonth_range y m). lia.
Qed.

(** C7.  For every year, month and integer count [c]: when [c <= 0],
  generateDatesForMonth returns the empty list; when [c > 0], it returns
  exactly [c] dates, each with its day of the month between 1 and
  [daysInMonth year month]. *)
Theorem generateDatesForMonth_count (y m c : Z) :
  (c <= 0 -> generateDatesForMonth y m c = []) /\
  (0 < c ->
     Z.of_nat (length (generateDatesForMonth y m c)) = c /\
     Forall (fun d => 1 <= day d <= daysInMonth y m)
            (generateDatesForMonth y m c)).
Proof.
  split.
  - intros H. unfold generateDatesForMonth.
    destruct (Z.leb_spec c 0); [done|lia].
  - intros H. split.
    + rewrite generateDatesForMonth_length. lia.
    + eapply Forall_impl; [apply generateDatesForMonth_fields|].
      simpl. tauto.
Qed.

Lemma generateDatesForMonth_count_witness :
  (-2 <= 0 -> generateDatesForMonth 2025 2 (-2) = []) /\
  (0 < 3 ->
     Z.of_nat (length (generateDatesForMonth 2025 2 3)) = 3 /\
     Forall (fun d => 1 <= day d <= daysInMonth 2025 2)
            (generateDatesForMonth 2025 2 3)).
Proof.
  split.
  - exact (proj1 (generateDatesForMonth_count 2025 2 (-2))).
  - exact (proj2 (generateDatesForMonth_count 2025 2 3)).
Defined.
End ForecastFacts.

Module TargetFacts.
Import Forecast.
Import ForecastSpec.

Lemma fold_add_shift (l : list Z) (a : Z) : fold_left Z.add l a = a + sumZ l.
Proof.
  unfold sumZ. revert a. induction l as [|x l IH]; intros a; simpl; [lia|].
  rewrite (IH (a + x)), (IH (0 + x)). lia.
Qed.

Lemma sumZ_cons (x : Z) (l : list Z) : sumZ (x :: l) = x + sumZ l.
Proof. unfold sumZ at 1. simpl. apply fold_add_shift. Qed.

Lemma sumZ_nil : sumZ [] = 0.
Proof. reflexivity. Qed.

Lemma sumZ_nonneg (l : list Z) : Forall (fun x => 0 <= x) l -> 0 <= sumZ l.
Proof.
  induction 1 as [|x l Hx _ IH]; [done|]. rewrite sumZ_cons. lia.
Qed.

Lemma floor_85 (n : Z) : JSMath.floor (inject_Z n * (85 # 100))%Q = (n * 85) / 100.
Proof. reflexivity. Qed.

Lemma ceil_13 (n : Z) : JSMath.ceil (inject_Z n * (13 # 10))%Q = - ((- (n * 13)) / 10).
Proof. reflexivity. Qed.

Lemma round_nonneg (x : Q) : (0 <= x)%Q -> 0 <= JSMath.round x.
Proof.
  intros H. unfold JSMath.round.
  change 0 with (Qfloor 0). apply Qfloor_resp_le. lra.
Qed.

Lemma average_nonneg (ycs : list YearlyCount) :
  ycs <> [] -> Forall (fun s => 0 <= yc_count s) ycs -> (0 <= average ycs)%Q.
Proof.
  intros Hne Hall. unfold average.
  apply Qle_shift_div_l.
  - change 0%Q with (inject_Z 0). rewrite <- Zlt_Qlt.
    destruct ycs; [done|]. simpl. lia.
  - rewrite Qmult_0_l. change 0%Q with (inject_Z 0). rewrite <- Zle_Qle.
    apply sumZ_nonneg. by apply Forall_fmap.
Qed.

(** C4.  When the yearly counts hold a count [N > 0] for the base year,
  decideTargetYearCount returns a target [t] with
  [floor (0.85 N) <= t <= ceil (1.3 N)], or [t = N] (the fallback taken
  when the clamped value is not positive), and [t > 0] either way.  For
  every list of non-negative counts, the empty list and a base-year count
  of 0 included, the result is non-negative. *)
Theorem decideTargetYearCount_bounds (yearlyCounts : list YearlyCount)
    (baseYear : Z) :
  (forall s N, find_year yearlyCounts baseYear = Some s -> yc_count s = N ->
     0 < N ->
     let t := decideTargetYearCount yearlyCounts baseYear in
     ((JSMath.floor (inject_Z N * (85 # 100))%Q <= t
         <= JSMath.ceil (inject_Z N * (13 # 10))%Q) \/ t = N) /\ 0 < t) /\
  (Forall (fun s => 0 <= yc_count s) yearlyCounts ->
     0 <= decideTargetYearCount yearlyCounts baseYear).
Proof.
  split.
  - intros s N Hf HN Hpos t. subst t. unfold decideTargetYearCount.
    destruct yearlyCounts as [|y0 ys]; [done|]. rewrite Hf, HN.
    destruct (Z.leb_spec N 0); [lia|].
    rewrite floor_85, ceil_13.
    generalize (JSMath.round (average (y0 :: ys))). intros t0.
    repeat match goal with
           | |- context [?a <? ?b] => destruct (Z.ltb_spec a b)
           | |- context [?a <=? ?b] => destruct (Z.leb_spec a b)
           end; Z.div_mod_to_equations; lia.
  - intros Hall. unfold decideTargetYearCount.
    destruct yearlyCounts as [|y0 ys]; [done|].
    set (N := match find_year _ _ with Some s => yc_count s | None => 0 end).
    destruct (Z.leb_spec N 0).
    + apply round_nonneg, average_nonneg; done.
    + rewrite floor_85, ceil_13.
      generalize (JSMath.round (average (y0 :: ys))). intros t0.
      repeat match goal with
             | |- context [?a <? ?b] => destruct (Z.ltb_spec a b)
             | |- context [?a <=? ?b] => destruct (Z.leb_spec a b)
             end; Z.div_mod_to_equations; lia.
Qed.

Lemma decideTargetYearCount_bounds_witness :
  (((JSMath.floor (inject_Z 3 * (85 # 100))%Q
       <= decideTargetYearCount sample_counts 2024
       <= JSMath.ceil (inject_Z 3 * (13 # 10))%Q)
     \/ decideTargetYearCount sample_counts 2024 = 3)
   /\ 0 < decideTargetYearCount sample_counts 2024)
  /\ 0 <= decideTargetYearCount sample_counts 2024.
Proof.
  split.
  - apply (proj1 (decideTargetYearCount_bounds sample_counts 2024)
             {| yc_year := 2024; yc_count := 3 |} 3); [reflexivity|reflexivity|lia].
  - apply (proj2 (decideTargetYearCount_bounds sample_counts 2024)).
    repeat constructor; simpl; lia.
Defined.
End TargetFacts.

Module MonthlyFacts.
Import Forecast TargetFacts.
Import ForecastSpec.

Lemma count_pos_cons (x : Z) (l : list Z) :
  count_pos (x :: l) = (if 0 <? x then 1 else 0) + count_pos l.
Proof. unfold count_pos. simpl. destruct (0 <? x); simpl; lia. Qed.

Lemma count_pos_nonneg (l : list Z) : 0 <= count_pos l.
Proof. unfold count_pos. lia. Qed.

Lemma fold_Qplus_shift (l : list Q) (a : Q) :
  (fold_left Qplus l a == a + sumQ l)%Q.
Proof.
  unfold sumQ. revert a. induction l as [|x l IH]; intros a; simpl.
  - lra.
  - rewrite (IH (a + x)%Q), (IH (0 + x)%Q). lra.
Qed.

Lemma sumQ_cons (x : Q) (l : list Q) : (sumQ (x :: l) == x + sumQ l)%Q.
Proof. unfold sumQ at 1. simpl. rewrite fold_Qplus_shift. lra. Qed.

Lemma round_bounds (x : Q) :
  (inject_Z (JSMath.round x) <= x + (1 # 2) /\
   x + (1 # 2) < inject_Z (JSMath.round x) + 1)%Q.
Proof.
  unfold JSMath.round. split; [apply Qfloor_le|].
  pose proof (Qlt_floor (x + (1 # 2))) as H.
  rewrite inject_Z_plus in H. exact H.
Qed.

(** Rounding twelve shares of the target moves the total by at most half
    a unit per month, and only months that end up positive can have been
    rounded up. *)
Lemma rounded_sum_bounds (t : Q) (shares : list Q) :
  (0 <= t)%Q -> Forall (fun s => (0 <= s)%Q) shares ->
  let monthly := JSMath.round <$> ((fun s => (s * t)%Q) <$> shares) in
  (2 * inject_Z (sumZ monthly) - inject_Z (count_pos monthly)
     <= 2 * (sumQ shares * t) /\
   2 * (sumQ shares * t)
     <= 2 * inject_Z (sumZ monthly) + inject_Z (Z.of_nat (length shares)))%Q
  /\ Forall (fun m => 0 <= m) monthly.
Proof.
  intros Ht Hall. induction Hall as [|s l Hs _ IH].
  - split; [|constructor]. unfold sumQ, sumZ, count_pos. simpl.
    change (inject_Z (Z.of_nat 0)) with 0%Q. change (inject_Z 0) with 0%Q. lra.
  - destruct IH as [[IH1 IH2] IH3].
    assert (0 <= s * t)%Q as Hst by (apply Qmult_le_0_compat; done).
    pose proof (round_bounds (s * t)) as [R1 R2].
    pose proof (round_nonneg _ Hst) as R3.
    cbv zeta in *. rewrite !fmap_cons.
    split; [|by constructor].
    rewrite sumZ_cons, count_pos_cons, sumQ_cons.
    rewrite length_cons, Nat2Z.inj_succ, <- Z.add_1_r.
    rewrite !inject_Z_plus.
    set (m := JSMath.round (s * t)) in *.
    destruct (Z.ltb_spec 0 m) as [Hm|Hm].
    + change (inject_Z 1) with 1%Q. split; lra.
    + assert (m = 0) as -> by lia.
      change (inject_Z 0) with 0%Q in *. change (inject_Z 1) with 1%Q.
      split; lra.
Qed.

Lemma sumZ_alter (f : Z -> Z) (i : nat) (l : list Z) (x : Z) :
  l !! i = Some x -> sumZ (alter f i l) = sumZ l + (f x - x).
Proof.
  revert i. induction l as [|y l IH]; intros [|i] H; try done.
  - injection H as ->. change (alter f 0%nat (x :: l)) with (f x :: l).
    rewrite !sumZ_cons. lia.
  - change (alter f (S i) (y :: l)) with (y :: alter f i l).
    rewrite !sumZ_cons, (IH i H). lia.
Qed.

Lemma redistribute_sum_pos (steps idx : nat) (monthly : list Z) (diff : Z) :
  length monthly = 12%nat -> 0 <= diff <= Z.of_nat steps ->
  sumZ (redistribute steps idx monthly diff) = sumZ monthly + diff.
Proof.
  revert idx monthly diff. induction steps as [|steps IH];
    intros idx monthly diff Hlen Hd; cbn [redistribute].
  - lia.
  - destruct (Z.eqb_spec diff 0); [lia|].
    destruct (Z.ltb_spec 0 diff); [|lia].
    assert (idx mod 12 < length monthly)%nat as Hi.
    { rewrite Hlen. apply Nat.mod_upper_bound. lia. }
    destruct (lookup_lt_is_Some_2 _ _ Hi) as [x Hx].
    rewrite IH; [|by rewrite length_alter|lia].
    rewrite (sumZ_alter _ _ _ _ Hx). lia.
Qed.

Lemma redistribute_sum_neg (steps idx : nat) (monthly : list Z) (diff : Z) :
  length monthly = 12%nat -> diff <= 0 ->
  - diff <= count_pos (drop idx monthly) ->
  (12 <= idx + steps)%nat ->
  sumZ (redistribute steps idx monthly diff) = sumZ monthly + diff.
Proof.
  revert idx monthly diff. induction steps as [|steps IH];
    intros idx monthly diff Hlen Hd Hc Hs; cbn [redistribute].
  - rewrite drop_ge in Hc by lia. unfold count_pos in Hc. simpl in Hc. lia.
  - destruct (Z.eqb_spec diff 0); [lia|].
    destruct (Z.ltb_spec 0 diff); [lia|].
    destruct (Z.ltb_spec diff 0); [|lia]. cbn [andb].
    assert (idx < 12)%nat as Hidx.
    { destruct (decide (idx < 12)%nat); [done|].
      rewrite drop_ge in Hc by lia. unfold count_pos in Hc. simpl in Hc. lia. }
    rewrite (Nat.mod_small idx 12) by done.
    destruct (lookup_lt_is_Some_2 monthly idx) as [x Hx]; [lia|].
    rewrite Hx. cbn [from_option Datatypes.id].
    rewrite (drop_S _ _ _ Hx), count_pos_cons in Hc.
    destruct (Z.ltb_spec 0 x).
    + rewrite IH.
      * rewrite (sumZ_alter _ _ _ _ Hx). lia.
      * by rewrite length_alter.
      * lia.
      * rewrite drop_alter_lt by lia. lia.
      * lia.
    + rewrite IH; [done..|lia|lia].
Qed.

Lemma sumZ_replicate_0 (n : nat) : sumZ (replicate n 0) = 0.
Proof. induction n; [done|]. simpl. rewrite sumZ_cons. lia. Qed.

(** C2.  For a non-negative target and twelve non-negative shares that sum
  to exactly 1, the monthly counts returned by makeMonthlyTargets, with its
  remainder loop of at most 36 iterations, sum to the target. *)
Theorem makeMonthlyTargets_sum (targetYearCount : Z) (shares : list Q) :
  0 <= targetYearCount ->
  length shares = 12%nat ->
  Forall (fun s => (0 <= s)%Q) shares ->
  (sumQ shares == 1)%Q ->
  sumZ (makeMonthlyTargets targetYearCount shares) = targetYearCount.
Proof.
  intros HT Hlen Hall Hsum. unfold makeMonthlyTargets.
  destruct (Z.leb_spec targetYearCount 0) as [H0|Hpos].
  { rewrite sumZ_replicate_0. lia. }
  assert (0 <= inject_Z targetYearCount)%Q as HTq.
  { change 0%Q with (inject_Z 0). rewrite <- Zle_Qle. lia. }
  pose proof (rounded_sum_bounds _ _ HTq Hall) as [[B1 B2] B3].
  simpl in B1, B2, B3.
  set (monthly := JSMath.round <$> _) in *.
  assert (length monthly = 12%nat) as Hm.
  { subst monthly. by rewrite !length_fmap. }
  rewrite Hsum, Hlen in B2. rewrite Hsum in B1.
  assert (2 * sumZ monthly <= 2 * targetYearCount + count_pos monthly) as Z1.
  { rewrite Zle_Qle. rewrite inject_Z_plus, !inject_Z_mult.
    change (inject_Z 2) with 2%Q. lra. }
  assert (2 * targetYearCount <= 2 * sumZ monthly + 12) as Z2.
  { rewrite Zle_Qle. rewrite inject_Z_plus, !inject_Z_mult.
    change (inject_Z 2) with 2%Q.
    change (inject_Z (Z.of_nat 12)) with (inject_Z 12) in B2. lra. }
  pose proof (count_pos_nonneg monthly) as Z3.
  set (diff := targetYearCount - sumZ monthly).
  destruct (Z.le_gt_cases 0 diff) as [Hd|Hd].
  - rewrite redistribute_sum_pos; [lia|done|]. simpl. lia.
  - rewrite redistribute_sum_neg; [lia|done|lia| |simpl; lia].
    rewrite drop_0. lia.
Qed.

Lemma makeMonthlyTargets_sum_witness :
  sumZ (makeMonthlyTargets 6 (replicate 12 (1 # 12)%Q)) = 6.
Proof.
  apply makeMonthlyTargets_sum.
  - lia.
  - reflexivity.
  - repeat constructor; discriminate.
  - reflexivity.
Defined.
End MonthlyFacts.

Module PredictFacts.
Import Calendar CalendarFacts DateString YmdFacts Predict.
Import DateSpec PredictSpec.

Lemma parseYmd_day_number (s : ymd) :
  real_date s -> parseYmd s = Some (day_number s).
Proof.
  intros H. destruct (parseYmd_real s H) as [x Hx]. rewrite Hx.
  unfold parseYmd in Hx. destruct (_ && _); [|done]. symmetry. exact Hx.
Qed.

Lemma real_date_jst (s : ymd) : real_date s -> s = jstYmdFromDate (day_number s).
Proof.
  intros H. symmetry. apply jst_parse_real; [done|]. by apply parseYmd_day_number.
Qed.


Lemma skip_past_result_gt (fuel : nat) (cycle : Z) (today next r : ymd) :
  skip_past fuel cycle today next = Returns r -> ymd_lt today r.
Proof.
  revert next. induction fuel as [|fuel IH]; intros next H; [done|].
  cbn [skip_past] in H. destruct (ymd_leb next today) eqn:E.
  - destruct (addDaysYmd next cycle) as [n'| |]; cbn in H; try done. eauto.
  - injection H as <-. unfold ymd_lt. rewrite ymd_leb_ltb in E.
    by destruct (ymd_ltb today next).
Qed.


End PredictFacts.

Module HistoryFacts.
Import Calendar CalendarFacts DateString YmdFacts Forecast.
Import DateSpec ForecastSpec.

Lemma dates_of_year_nonempty (y : Z) (h : list string) :
  dates_of_year y h <> [] <-> has_base_year h y.
Proof.
  unfold dates_of_year, has_base_year. split.
  - intros H. destruct (omap _ h) as [|d l] eqn:E; [done|].
    assert (d ∈ omap (fun s => d ← ISO_YMD s; if year d =? y then Some d else None) h)
      as Hin by (rewrite E; left).
    apply list_elem_of_omap in Hin as (s & Hs & Hd).
    destruct (ISO_YMD s) as [d'|] eqn:E'; [|done]. cbn in Hd.
    destruct (Z.eqb_spec (year d') y); [|done].
    exists s, d'. done.
  - intros (s & d & Hs & Hd & Hy) E.
    assert (d ∈ omap (fun s => d ← ISO_YMD s; if year d =? y then Some d else None) h)
      as Hin.
    { apply list_elem_of_omap. exists s. split; [done|]. rewrite Hd. cbn.
      by rewrite Hy, Z.eqb_refl. }
    rewrite E in Hin. by apply elem_of_nil in Hin.
Qed.

Lemma dates_of_year_cons (y : Z) (s : string) (h : list string) :
  dates_of_year y (s :: h) =
    match ISO_YMD s with
    | Some d => if year d =? y then d :: dates_of_year y h else dates_of_year y h
    | None => dates_of_year y h
    end.
Proof.
  unfold dates_of_year. cbn. destruct (ISO_YMD s) as [d|]; cbn; [|done].
  by destruct (year d =? y).
Qed.

Lemma split_fold_lookup (baseYear minYear y : Z) (h : list string)
    (acc : gmap Z (list ymd)) :
  minYear <= y <= baseYear ->
  fold_left (split_step baseYear minYear) h acc !! y =
    match acc !! y, dates_of_year y h with
    | None, [] => None
    | o, l => Some (default [] o ++ l)
    end.
Proof.
  intros Hy. revert acc. induction h as [|s h IH]; intros acc.
  - cbn. destruct (acc !! y); cbn; [by rewrite app_nil_r|done].
  - cbn [fold_left]. rewrite IH, dates_of_year_cons. unfold split_step.
    destruct (ISO_YMD s) as [d|]; [|done].
    destruct (Z.ltb_spec baseYear (year d)).
    { destruct (Z.eqb_spec (year d) y); [lia|done]. }
    destruct (Z.ltb_spec (year d) minYear).
    { destruct (Z.eqb_spec (year d) y); [lia|done]. }
    unfold push_year.
    destruct (Z.eqb_spec (year d) y) as [->|Hne].
    + rewrite lookup_insert_eq. cbn. rewrite <- app_assoc. cbn.
      by destruct (acc !! _).
    + by rewrite lookup_insert_ne.
Qed.

Lemma splitHistoryByYear_lookup (h : list string) (baseYear back : Z) :
  0 <= back ->
  splitHistoryByYear h baseYear back !! baseYear =
    match dates_of_year baseYear h with
    | [] => None
    | l => Some (sort_ymd l)
    end.
Proof.
  intros Hb. unfold splitHistoryByYear. rewrite lookup_fmap.
  change (fold_left _ h ∅) with
    (fold_left (split_step baseYear (baseYear - back)) h ∅).
  rewrite split_fold_lookup by lia. rewrite lookup_empty.
  by destruct (dates_of_year baseYear h).
Qed.

Lemma elem_of_calcYearlyCounts (byYear : gmap Z (list ymd)) (s : YearlyCount) :
  s ∈ calcYearlyCounts byYear <->
  exists ds, byYear !! yc_year s = Some ds /\ yc_count s = Z.of_nat (length ds).
Proof.
  unfold calcYearlyCounts, entries.
  rewrite merge_sort_Permutation, list_elem_of_fmap. split.
  - intros ([y ds] & -> & Hin). rewrite merge_sort_Permutation in Hin.
    apply elem_of_map_to_list in Hin. exists ds. done.
  - intros (ds & Hl & Hc). exists (yc_year s, ds). split.
    + destruct s. cbn in *. by rewrite Hc.
    + rewrite merge_sort_Permutation. by apply elem_of_map_to_list.
Qed.

Lemma find_year_Some (ycs : list YearlyCount) (baseYear : Z) (s : YearlyCount) :
  find_year ycs baseYear = Some s -> s ∈ ycs /\ yc_year s = baseYear.
Proof.
  unfold find_year. intros H. apply find_some in H as [H1 H2].
  split; [by apply list_elem_of_In|lia].
Qed.

Lemma find_year_None (ycs : list YearlyCount) (baseYear : Z) (s : YearlyCount) :
  find_year ycs baseYear = None -> s ∈ ycs -> yc_year s <> baseYear.
Proof.
  unfold find_year. intros H Hin.
  pose proof (find_none _ _ H s (proj1 (list_elem_of_In _ _) Hin)) as Hf.
  cbn in Hf. lia.
Qed.

Lemma sort_ymd_length (l : list ymd) : length (sort_ymd l) = length l.
Proof. unfold sort_ymd. by rewrite merge_sort_Permutation. Qed.

(** The base-year statistic exists and is positive exactly when the
    history holds a date of the base year. *)
Lemma base_year_stat (h : list string) (baseYear : Z) :
  let ycs := calcYearlyCounts (splitHistoryByYear h baseYear MAX_YEARS_BACK) in
  (has_base_year h baseYear ->
     exists s, find_year ycs baseYear = Some s /\ 0 < yc_count s) /\
  (~ has_base_year h baseYear -> find_year ycs baseYear = None).
Proof.
  intros ycs.
  pose proof (splitHistoryByYear_lookup h baseYear MAX_YEARS_BACK) as HL.
  unfold MAX_YEARS_BACK in HL at 1. specialize (HL ltac:(lia)).
  split.
  - intros Hb. apply dates_of_year_nonempty in Hb.
    destruct (dates_of_year baseYear h) as [|d l] eqn:E; [done|].
    destruct (find_year ycs baseYear) as [s|] eqn:F.
    + exists s. split; [done|]. apply find_year_Some in F as [Hin Hy].
      apply elem_of_calcYearlyCounts in Hin as (ds & Hds & Hc).
      rewrite Hy, HL in Hds. injection Hds as <-.
      rewrite Hc, sort_ymd_length. cbn. lia.
    + exfalso.
      apply (find_year_None ycs baseYear
               {| yc_year := baseYear;
                  yc_count := Z.of_nat (length (sort_ymd (d :: l))) |} F);
        [|done].
      apply elem_of_calcYearlyCounts. eauto.
  - intros Hb. destruct (find_year ycs baseYear) as [s|] eqn:F; [|done].
    exfalso. apply Hb. apply dates_of_year_nonempty.
    apply find_year_Some in F as [Hin Hy].
    apply elem_of_calcYearlyCounts in Hin as (ds & Hds & Hc).
    rewrite Hy, HL in Hds. by destruct (dates_of_year baseYear h).
Qed.

End HistoryFacts.

Module PlanFacts.
Import Calendar CalendarFacts DateString YmdFacts Forecast HistoryFacts.
Import DateSpec ForecastSpec.

Lemma bind_Returns {A B : Type} (a : A) (k : A -> outcome B) :
  (Returns a ≫= k) = k a.
Proof. reflexivity. Qed.

Lemma DateLocal_first (y m : Z) :
  100 <= y -> 1 <= m <= 12 -> DayFromYear y <= DateLocal y (m - 1) 1.
Proof.
  intros Hy Hm. unfold DateLocal.
  replace ((0 <=? y) && (y <=? 99)) with false by lia.
  rewrite MakeDay_in_range by lia.
  pose proof (days_before_month_bounds (InLeapYear y) (m - 1)). lia.
Qed.

(** The walk over months stops: no later than the first month of the year
    after the end date's year (or of the year 100). *)
Lemma month_walk_returns (monthlyCounts : list Z) (endDate : Z) (k : nat) :
  forall y m, 1 <= m <= 12 ->
    12 * (Z.max 100 (YearFromDay endDate + 1) - y) - (m - 1) <= Z.of_nat k ->
    forall fuel, (k < fuel)%nat ->
      exists l, month_walk fuel monthlyCounts endDate y m = Returns l.
Proof.
  set (Y := Z.max 100 (YearFromDay endDate + 1)).
  assert (forall y m, Y <= y -> 1 <= m <= 12 ->
            (endDate <? DateLocal y (m - 1) 1) = true) as Hstop.
  { intros y m Hy Hm. apply Z.ltb_lt.
    pose proof (DateLocal_first y m ltac:(lia) Hm).
    pose proof (YearFromDay_bounds endDate) as [_ HB].
    rewrite <- DayFromYear_succ in HB.
    pose proof (DayFromYear_mono (YearFromDay endDate + 1) y ltac:(lia)). lia. }
  induction k as [|k IH]; intros y m Hm Hmu fuel Hfuel.
  - destruct fuel as [|fuel]; [lia|]. cbn [month_walk].
    rewrite Hstop by lia. eauto.
  - destruct fuel as [|fuel]; [lia|]. cbn [month_walk].
    destruct (endDate <? DateLocal y (m - 1) 1); [eauto|].
    destruct (Z.eqb_spec m 12) as [->|Hne].
    + destruct (IH (y + 1) 1 ltac:(lia) ltac:(lia) fuel ltac:(lia)) as [l ->].
      cbn. eauto.
    + destruct (IH y (m + 1) ltac:(lia) ltac:(lia) fuel ltac:(lia)) as [l ->].
      cbn. eauto.
Qed.


Lemma buildPlanFromHistory_returns (h : list string) (baseYear : Z)
    (start : option string) (horizon : Z) :
  has_base_year h baseYear -> window_accepted baseYear start horizon ->
  exists fuel0, forall fuel, (fuel0 <= fuel)%nat ->
    exists r, buildPlanFromHistory fuel h baseYear start horizon = Returns r.
Proof.
  intros Hb [_ Hs]. unfold buildPlanFromHistory.
  destruct (proj1 (base_year_stat h baseYear) Hb) as (st & Hst & Hpos).
  fold (start_of baseYear start).
  destruct (parseYmd (start_of baseYear start)) as [d0|] eqn:Hd0; [|done].
  pose proof (MonthFromDay_range d0) as HM.
  set (k := Z.to_nat (12 * (Z.max 100 (YearFromDay (d0 + horizon) + 1)
                            - YearFromDay d0) - (MonthFromDay d0 + 1 - 1))).
  exists (S k). intros fuel Hfuel.
  destruct h as [|s0 h0].
  { destruct Hb as (s & d & Hin & _). by apply elem_of_nil in Hin. }
  rewrite Hst.
  destruct (calcYearlyCounts _) as [|y0 ys] eqn:E; [done|].
  destruct (Z.leb_spec (yc_count st) 0); [lia|].
  rewrite (addDaysYmd_parsed (start_of baseYear start) d0 horizon Hd0), bind_Returns.
  rewrite parseYmd_jst.
  generalize (makeMonthlyTargets (decideTargetYearCount (y0 :: ys) baseYear)
                (calcMonthlyWeights
                   (splitHistoryByYear (s0 :: h0) baseYear MAX_YEARS_BACK)
                   baseYear (7 # 10) (3 # 10))).
  intros mc.
  destruct (month_walk_returns mc (d0 + horizon) k (YearFromDay d0)
              (MonthFromDay d0 + 1) ltac:(lia) ltac:(lia) fuel ltac:(lia))
    as [l ->].
  rewrite bind_Returns. eauto.
Qed.




End PlanFacts.

Module SortedFacts.
Import Calendar CalendarFacts DateString YmdFacts Forecast ForecastFacts
       MonthlyFacts HistoryFacts PlanFacts.
Import DateSpec ForecastSpec.

#[export] Instance ymd_lt_trans : Transitive ymd_lt.
Proof.
  intros a b c Hab Hbc. apply ymd_lt_iff in Hab as [Hab Hne].
  apply ymd_lt_iff in Hbc as [Hbc Hne']. apply ymd_lt_iff. split.
  - by etrans.
  - intros ->. apply Hne. by apply (anti_symm ymd_le).
Qed.

Lemma ymd_lt_irrefl (a : ymd) : ~ ymd_lt a a.
Proof. intros H. apply ymd_lt_iff in H as [_ H]. done. Qed.

Lemma StronglySorted_filter {A : Type} (R : relation A) (p : A -> bool)
    (l : list A) :
  StronglySorted R l -> StronglySorted R (List.filter p l).
Proof.
  induction 1 as [|x l Hl IH Hx]; cbn; [constructor|].
  destruct (p x); [|done]. constructor; [done|].
  apply Forall_forall. intros y Hy. apply list_elem_of_In, filter_In in Hy as [Hy _].
  rewrite Forall_forall in Hx. apply Hx. by apply list_elem_of_In.
Qed.

Lemma StronglySorted_lt_le (l : list ymd) :
  StronglySorted ymd_lt l -> StronglySorted ymd_le l.
Proof.
  induction 1 as [|x l Hl IH Hx]; constructor; [done|].
  eapply Forall_impl; [exact Hx|]. intros y. apply ymd_lt_le.
Qed.

Lemma StronglySorted_lt_NoDup (l : list ymd) :
  StronglySorted ymd_lt l -> NoDup l.
Proof.
  induction 1 as [|x l Hl IH Hx]; constructor; [|done].
  intros Hin. rewrite Forall_forall in Hx. by apply (ymd_lt_irrefl x), Hx.
Qed.

(** Sorting a list that is already ascending leaves it as it is. *)
Lemma sort_ymd_sorted (l : list ymd) : StronglySorted ymd_le l -> sort_ymd l = l.
Proof.
  intros H. unfold sort_ymd. apply (StronglySorted_unique ymd_le).
  - apply StronglySorted_merge_sort; apply _.
  - done.
  - apply merge_sort_Permutation.
Qed.

Lemma seqZ_sorted (m n : Z) :
  StronglySorted (fun x y => m <= x /\ x < y /\ y < m + n) (seqZ m n).
Proof.
  destruct (Z.le_gt_cases n 0) as [Hn|Hn].
  { rewrite seqZ_nil by done. constructor. }
  rewrite <- (Z2Nat.id n) by lia. generalize (Z.to_nat n). clear. intros k.
  revert m. induction k as [|k IH]; intros m.
  { rewrite seqZ_nil by done. constructor. }
  rewrite seqZ_cons by lia. constructor.
  - replace (Z.pred (Z.of_nat (S k))) with (Z.of_nat k) by lia.
    eapply StronglySorted_fmap with (f := fun x : Z => x) (l := seqZ (Z.succ m) (Z.of_nat k))
      in IH; [rewrite list_fmap_id in IH; exact IH|].
    cbn. intros x y. lia.
  - apply Forall_seqZ. intros x Hx. lia.
Qed.

(** With at most one delivery per day of the month, the spread days are
    strictly increasing. *)
Lemma generateDatesForMonth_sorted (y m c : Z) :
  c <= daysInMonth y m ->
  StronglySorted ymd_lt (generateDatesForMonth y m c).
Proof.
  intros Hc. unfold generateDatesForMonth.
  destruct (Z.leb_spec c 0) as [|Hpos]; [constructor|].
  set (dim := daysInMonth y m) in *.
  set (step := (inject_Z dim / inject_Z c)%Q).
  assert (0 < inject_Z c)%Q as Hcq.
  { change 0%Q with (inject_Z 0). rewrite <- Zlt_Qlt. lia. }
  assert (1 <= step)%Q as Hstep.
  { subst step. apply Qle_shift_div_l; [done|]. rewrite Qmult_1_l.
    rewrite <- Zle_Qle. lia. }
  assert (step * inject_Z c == inject_Z dim)%Q as Hsc.
  { subst step. field. intros E. rewrite E in Hcq. by apply Qlt_irrefl in Hcq. }
  clearbody step.
  assert (2 * (step / 2) == step)%Q as Hhalf by field.
  eapply StronglySorted_fmap; [|apply seqZ_sorted].
  intros i j (Hi & Hij & Hj). rewrite Z.add_0_l in Hj.
  set (xi := (inject_Z i * step + step / 2)%Q).
  set (xj := (inject_Z j * step + step / 2)%Q).
  pose proof (round_bounds xi) as [Li Ui].
  pose proof (round_bounds xj) as [Lj Uj].
  assert (0 <= inject_Z i)%Q as Hiq.
  { change 0%Q with (inject_Z 0). rewrite <- Zle_Qle. lia. }
  assert (inject_Z i + 1 <= inject_Z j)%Q as Hijq.
  { change 1%Q with (inject_Z 1). rewrite <- inject_Z_plus, <- Zle_Qle. lia. }
  assert (inject_Z j + 1 <= inject_Z c)%Q as Hjq.
  { change 1%Q with (inject_Z 1). rewrite <- inject_Z_plus, <- Zle_Qle. lia. }
  assert (inject_Z i * step + step <= inject_Z j * step)%Q as Hmono.
  { assert (inject_Z i * step + step == (inject_Z i + 1) * step)%Q as -> by ring.
    apply Qmult_le_compat_r; [done|lra]. }
  assert (inject_Z j * step + step <= inject_Z dim)%Q as Htop.
  { rewrite <- Hsc.
    assert (inject_Z j * step + step == (inject_Z j + 1) * step)%Q as -> by ring.
    rewrite (Qmult_comm step). apply Qmult_le_compat_r; [done|lra]. }
  assert (0 <= inject_Z i * step)%Q as Hbot.
  { apply Qmult_le_0_compat; [done|lra]. }
  assert (JSMath.round xi + 1 <= JSMath.round xj) as Hlt.
  { assert (inject_Z (JSMath.round xi) + 1 < inject_Z (JSMath.round xj) + 1)%Q as HQ.
    { subst xi xj. lra. }
    assert (JSMath.round xi < JSMath.round xj); [|lia].
    rewrite Zlt_Qlt. lra. }
  assert (1 <= JSMath.round xi) as Hlo.
  { assert (inject_Z 1 < inject_Z (JSMath.round xi) + 1)%Q as HQ.
    { change (inject_Z 1) with 1%Q. subst xi. lra. }
    assert (1 < JSMath.round xi + 1); [|lia].
    rewrite Zlt_Qlt, inject_Z_plus. exact HQ. }
  assert (JSMath.round xj <= dim) as Hhi.
  { rewrite Zle_Qle. subst xj. lra. }
  unfold ymd_lt, ymd_ltb, ymd_compare. cbn [year month day].
  rewrite !Z.compare_refl.
  assert ((Z.min (Z.max (JSMath.round xi) 1) dim
             ?= Z.min (Z.max (JSMath.round xj) 1) dim) = Lt) as ->; [|done].
  apply Z.compare_lt_iff. lia.
Qed.

Lemma month_index_lt (a b : ymd) :
  1 <= month a <= 12 -> 1 <= month b <= 12 ->
  month_index a < month_index b -> ymd_lt a b.
Proof.
  unfold month_index, ymd_lt, ymd_ltb. intros Ha Hb H.
  pose proof (ymd_compare_spec a b) as S.
  destruct (ymd_compare a b); [subst; lia|done|lia].
Qed.

Lemma month_walk_sorted (monthlyCounts : list Z) (endDate : Z) (fuel : nat) :
  Forall (fun c => c <= 28) monthlyCounts ->
  forall y m l, 1 <= m <= 12 ->
    month_walk fuel monthlyCounts endDate y m = Returns l ->
    StronglySorted ymd_lt l /\
    Forall (fun d => 1 <= month d <= 12 /\ 12 * y + m <= month_index d) l.
Proof.
  intros Hmc. induction fuel as [|fuel IH]; intros y m l Hm H; [done|].
  cbn [month_walk] in H.
  destruct (endDate <? DateLocal y (m - 1) 1).
  { injection H as <-. split; constructor. }
  set (c := default 0 (monthlyCounts !! Z.to_nat (m - 1))) in *.
  assert (c <= 28) as Hc.
  { subst c. destruct (monthlyCounts !! Z.to_nat (m - 1)) as [c|] eqn:E; [|cbn; lia].
    cbn. rewrite Forall_forall in Hmc. apply Hmc.
    by eapply list_elem_of_lookup_2. }
  pose proof (daysInMonth_range y m) as Hdim.
  pose proof (generateDatesForMonth_sorted y m c ltac:(lia)) as Hs.
  pose proof (generateDatesForMonth_fields y m c) as Hf.
  assert (exists y' m' rest, 1 <= m' <= 12 /\ 12 * y + m < 12 * y' + m' /\
            month_walk fuel monthlyCounts endDate y' m' = Returns rest /\
            l = generateDatesForMonth y m c ++ rest)
    as (y' & m' & rest & Hm' & Hlt & Hw & ->).
  { destruct (Z.eqb_spec m 12) as [->|Hne].
    - destruct (month_walk fuel monthlyCounts endDate (y + 1) 1) as [rest| |] eqn:E;
        cbn in H; try done.
      injection H as <-. exists (y + 1), 1, rest. repeat split; try done; lia.
    - destruct (month_walk fuel monthlyCounts endDate y (m + 1)) as [rest| |] eqn:E;
        cbn in H; try done.
      injection H as <-. exists y, (m + 1), rest. repeat split; try done; lia. }
  destruct (IH y' m' rest Hm' Hw) as [IH1 IH2].
  rewrite Forall_forall in Hf, IH2. split.
  - apply StronglySorted_app_2; [|done..].
    intros a b Ha Hb. destruct (Hf a Ha) as (Ya & Ma & _).
    destruct (IH2 b Hb) as (Mb & Ib).
    apply month_index_lt; [lia|done|]. unfold month_index at 1. lia.
  - apply Forall_app. split; apply Forall_forall.
    + intros a Ha. destruct (Hf a Ha) as (Ya & Ma & _).
      unfold month_index. lia.
    + intros b Hb. destruct (IH2 b Hb) as (Mb & Ib). lia.
Qed.

End SortedFacts.

Module AscendingFacts.
Import Calendar CalendarFacts DateString YmdFacts Forecast ForecastFacts
       MonthlyFacts HistoryFacts PlanFacts SortedFacts.
Import DateSpec ForecastSpec.

(** How a returned plan was assembled. *)
Lemma buildPlanFromHistory_inv (fuel : nat) (h : list string) (baseYear : Z)
    (start : option string) (horizon : Z) (r : PlanResult) :
  buildPlanFromHistory fuel h baseYear start horizon = Returns r ->
  exists (startYmd endYmd : ymd) (endDate y m : Z) (all : list ymd),
    1 <= m <= 12 /\
    month_walk fuel (monthlyCounts r) endDate y m = Returns all /\
    plannedDates r =
      sort_ymd (List.filter (fun d => ymd_leb startYmd d && ymd_leb d endYmd) all).
Proof.
  unfold buildPlanFromHistory. intros H.
  destruct h as [|s0 h0]; [done|].
  destruct (calcYearlyCounts _) as [|y0 ys]; [done|].
  destruct (find_year _ _) as [st|]; [|done].
  destruct (yc_count st <=? 0); [done|].
  set (startYmd := match start with
                   | Some s => default (Ymd (baseYear + 1) 1 1) (ISO_YMD s)
                   | None => Ymd (baseYear + 1) 1 1
                   end) in *.
  destruct (addDaysYmd startYmd horizon) as [endYmd| |]; try done.
  rewrite bind_Returns in H.
  destruct (parseYmd startYmd) as [d0|]; [|done].
  destruct (parseYmd endYmd) as [endDate|]; [|done].
  destruct (month_walk _ _ _ _ _) as [all| |] eqn:E; try done.
  rewrite bind_Returns in H. injection H as <-. cbn [monthlyCounts plannedDates].
  exists startYmd, endYmd, endDate, (YearFromDay d0), (MonthFromDay d0 + 1), all.
  pose proof (MonthFromDay_range d0). split; [lia|]. split; [exact E|done].
Qed.

(** C3 (amended).  The plannedDates of a returned plan are in ascending
  order, repeated dates allowed; they are strictly ascending, hence free
  of duplicates, when no monthly count exceeds 28. *)
Theorem plannedDates_ascending (fuel : nat) (h : list string) (baseYear : Z)
    (start : option string) (horizon : Z) (r : PlanResult) :
  buildPlanFromHistory fuel h baseYear start horizon = Returns r ->
  StronglySorted ymd_le (plannedDates r) /\
  (Forall (fun c => c <= 28) (monthlyCounts r) ->
     StronglySorted ymd_lt (plannedDates r) /\ NoDup (plannedDates r)).
Proof.
  intros H.
  destruct (buildPlanFromHistory_inv _ _ _ _ _ _ H)
    as (startYmd & endYmd & endDate & y & m & all & Hm & Hw & ->).
  split.
  - apply StronglySorted_merge_sort; apply _.
  - intros Hc.
    destruct (month_walk_sorted _ _ _ Hc _ _ _ Hm Hw) as [Hs _].
    apply (StronglySorted_filter _
             (fun d => ymd_leb startYmd d && ymd_leb d endYmd)) in Hs.
    rewrite sort_ymd_sorted by (by apply StronglySorted_lt_le).
    split; [done|]. by apply StronglySorted_lt_NoDup.
Qed.

Lemma plannedDates_ascending_witness :
  StronglySorted ymd_le (plannedDates plan_2024) /\
  (Forall (fun c => c <= 28) (monthlyCounts plan_2024) ->
     StronglySorted ymd_lt (plannedDates plan_2024) /\
     NoDup (plannedDates plan_2024)).
Proof.
  apply (plannedDates_ascending 20 history_2024 2024
           (Some "2025-01-01"%string) 370 plan_2024).
  vm_compute. reflexivity.
Defined.

(** C3 as stated fails: February 2025 has 28 days for 29 deliveries. *)
Lemma plannedDates_duplicate :
  exists r,
    buildPlanFromHistory 20 history_feb_2024 2024 (Some "2025-01-01"%string) 370
      = Returns r /\
    (exists rest, plannedDates r = Ymd 2025 2 1 :: Ymd 2025 2 1 :: rest) /\
    ~ NoDup (plannedDates r) /\ ~ StronglySorted ymd_lt (plannedDates r).
Proof.
  eexists. split; [vm_compute; reflexivity|].
  cbn [plannedDates]. split; [eexists; reflexivity|]. split.
  - intros H. apply NoDup_cons in H as [H _]. apply H. left.
  - intros H. apply StronglySorted_cons in H as [H _].
    apply Forall_cons in H as [H _]. by apply ymd_lt_irrefl in H.
Qed.
End AscendingFacts.

Module DbFacts.
Import Calendar CalendarFacts DateString YmdFacts PredictFacts PlanFacts Db.
Import DateSpec DbSpec.

Lemma elem_of_add_dates (cid : Z) (ds : list ymd) (plans : gset PlanRecord)
    (p : PlanRecord) :
  p ∈ add_dates cid ds plans <->
  (customerId p = cid /\ dateISO p ∈ ds) \/ p ∈ plans.
Proof.
  unfold add_dates. rewrite elem_of_union, elem_of_list_to_set, list_elem_of_fmap.
  split.
  - intros [(d & -> & Hd)|H]; [left|right]; done.
  - intros [[Hc Hd]|H]; [left|by right].
    exists (dateISO p). split; [|done]. destruct p. cbn in *. by subst.
Qed.

Lemma fill_horizon_dates (fuel : nat) (cycle : Z) (horizonEnd : ymd) (cid : Z)
    (next : ymd) (plans : gset PlanRecord) :
  fill_horizon fuel cycle horizonEnd cid next plans =
    (ds ← horizon_dates fuel cycle horizonEnd next;
     Returns (add_dates cid ds plans)).
Proof.
  revert next plans. induction fuel as [|fuel IH]; intros next plans; [done|].
  cbn [fill_horizon horizon_dates]. destruct (ymd_leb next horizonEnd).
  - destruct (addDaysYmd next cycle) as [next'| |]; [|done..].
    rewrite !bind_Returns, IH.
    destruct (horizon_dates fuel cycle horizonEnd next') as [rest| |]; [|done..].
    rewrite !bind_Returns. f_equal. unfold add_dates, upsertPlan.
    rewrite fmap_cons, list_to_set_cons.
    apply set_eq. intros p. rewrite !elem_of_union. tauto.
  - rewrite bind_Returns. f_equal. unfold add_dates. cbn.
    apply set_eq. intros p. rewrite elem_of_union, elem_of_empty. tauto.
Qed.

(** With a cycle that does not advance, the loop never leaves the horizon. *)
Lemma horizon_dates_stuck (fuel : nat) (cycle e n : Z) :
  cycle <= 0 -> n <= e ->
  horizon_dates fuel cycle (jstYmdFromDate e) (jstYmdFromDate n) = Diverges.
Proof.
  intros Hc. revert n. induction fuel as [|fuel IH]; intros n Hn; [done|].
  cbn [horizon_dates]. rewrite jst_leb.
  destruct (Z.leb_spec n e); [|lia].
  rewrite addDaysYmd_jst, bind_Returns, IH by lia. done.
Qed.

Lemma horizon_dates_future (fuel : nat) (cycle t e n : Z) (ds : list ymd) :
  t < n ->
  horizon_dates fuel cycle (jstYmdFromDate e) (jstYmdFromDate n) = Returns ds ->
  Forall (ymd_lt (jstYmdFromDate t)) ds.
Proof.
  revert n ds. induction fuel as [|fuel IH]; intros n ds Hn H; [done|].
  cbn [horizon_dates] in H. rewrite jst_leb in H.
  destruct (Z.leb_spec n e) as [Hle|Hgt].
  - rewrite addDaysYmd_jst, bind_Returns in H.
    destruct (Z.le_gt_cases cycle 0) as [Hc|Hc].
    { rewrite horizon_dates_stuck in H by lia. done. }
    destruct (horizon_dates fuel cycle _ _) as [rest| |] eqn:E; [|done..].
    rewrite bind_Returns in H. injection H as <-. constructor.
    + unfold ymd_lt. rewrite jst_ltb. lia.
    + apply (IH (n + cycle)); [lia|done].
  - injection H as <-. constructor.
Qed.

Lemma skip_past_jst_image (fuel : nat) (cycle : Z) (today : ymd) (n : Z) (r : ymd) :
  Predict.skip_past fuel cycle today (jstYmdFromDate n) = Returns r ->
  exists n', r = jstYmdFromDate n'.
Proof.
  revert n. induction fuel as [|fuel IH]; intros n H; [done|].
  cbn [Predict.skip_past] in H. destruct (ymd_leb _ today).
  - rewrite addDaysYmd_jst, bind_Returns in H. eauto.
  - injection H as <-. eauto.
Qed.

Lemma elem_of_deleteFuture (cid : Z) (from : ymd) (plans : gset PlanRecord)
    (p : PlanRecord) :
  p ∈ deleteFuturePlansForCustomer cid from plans <->
  ~ (customerId p = cid /\ ymd_le from (dateISO p)) /\ p ∈ plans.
Proof. unfold deleteFuturePlansForCustomer. by rewrite elem_of_filter. Qed.

Lemma elem_of_deleteAll (cid : Z) (plans : gset PlanRecord) (p : PlanRecord) :
  p ∈ deleteAllPlansForCustomer cid plans <-> customerId p <> cid /\ p ∈ plans.
Proof. unfold deleteAllPlansForCustomer. by rewrite elem_of_filter. Qed.

Lemma elem_of_upsert_fold (cid : Z) (today : ymd) (ds : list ymd)
    (plans : gset PlanRecord) (p : PlanRecord) :
  p ∈ fold_left (fun ps d => if ymd_ltb d today then ps else upsertPlan d cid ps)
        ds plans <->
  (customerId p = cid /\ dateISO p ∈ ds /\ ymd_le today (dateISO p)) \/ p ∈ plans.
Proof.
  revert plans. induction ds as [|d ds IH]; intros plans; cbn [fold_left].
  - split; [by right|]. intros [(_ & H & _)|H]; [by apply elem_of_nil in H|done].
  - rewrite IH. unfold ymd_le. setoid_rewrite elem_of_cons.
    destruct (ymd_ltb d today) eqn:E.
    + split; [intros [(?&?&?)|?]; [left|right]; auto|].
      intros [(Hc & [->|Hd] & Hle)|H]; [|left; auto|by right].
      rewrite ymd_leb_ltb, E in Hle. done.
    + unfold upsertPlan. rewrite elem_of_union, elem_of_singleton. split.
      * intros [(?&?&?)|[->|?]]; [left; auto| |by right].
        left. cbn. split; [done|]. split; [by left|]. by rewrite ymd_leb_ltb, E.
      * intros [(Hc & [Hd|Hd] & Hle)|H]; [|left; auto|right; by right].
        right. left. destruct p. cbn in *. by subst.
Qed.
End DbFacts.

Module ReconcileFacts.
Import Calendar CalendarFacts DateString YmdFacts PredictFacts PlanFacts Db DbFacts.
Import DateSpec DbSpec.

Section Effects.
Variable today : ymd.
Variable orders : list Order.

Lemma reconciles_ext (P P' : Z -> Prop) F :
  (forall cid, P cid <-> P' cid) -> reconciles today orders P F -> reconciles today orders P' F.
Proof.
  intros HP [H|(keep & add & [A1 A2 A3 K1 K2 K3] & Ha)]; [by left|right].
  exists keep, add. split; [|done]. split; try done.
  - intros p Hp. destruct (K1 p Hp); [by left|right]. by apply HP.
  - intros p Hp. apply K2. by apply HP.
  - intros cid Hp. apply K3. by apply HP.
Qed.

Lemma reconciles_ret : reconciles today orders (fun _ => False) (fun s => Returns s).
Proof.
  right. exists (fun _ => True), (fun _ => False). split.
  - split; try done. intros p _. by left.
  - intros s. exists s. split; [done|]. intros p. tauto.
Qed.

Lemma reconciles_comp (P1 P2 : Z -> Prop) F G :
  reconciles today orders P1 F -> reconciles today orders P2 G ->
  reconciles today orders (fun cid => P1 cid \/ P2 cid) (fun s => F s ≫= G).
Proof.
  intros [HF|(k1 & a1 & [A1 A2 A3 K1 K2 K3] & HF)] HG.
  { left. intros s s'. destruct (F s) as [x| |] eqn:E; try done.
    by destruct (HF s x). }
  destruct HG as [HG|(k2 & a2 & [B1 B2 B3 L1 L2 L3] & HG)].
  { left. intros s s'. destruct (HF s) as (x & -> & _).
    rewrite bind_Returns. apply HG. }
  right. exists (fun p => k1 p /\ k2 p), (fun p => a2 p \/ (k2 p /\ a1 p)).
  split.
  - split.
    + intros p [Ha|[Hk Ha]] [Hk1 Hk2]; [by apply (B1 p)|by apply (A1 p)].
    + intros p [Ha|[_ Ha]]; auto.
    + intros p [Ha|[_ Ha]]; auto.
    + intros p Hp. destruct (K1 p Hp), (L1 p Hp); auto.
    + intros p [Hp|Hp] [Hk1 Hk2]; [by apply (K2 p)|by apply (L2 p)].
    + intros cid [Hp|Hp]; auto.
  - intros s. destruct (HF s) as (x & -> & Hx).
    destruct (HG x) as (y & Hy & Hy'). rewrite bind_Returns.
    exists y. split; [done|]. intros p. rewrite Hy', Hx. tauto.
Qed.

(** A second run of such a step changes nothing. *)
Lemma reconciles_idem (P : Z -> Prop) F (s s1 : gset PlanRecord) :
  reconciles today orders P F -> F s = Returns s1 -> F s1 = Returns s1.
Proof.
  intros [HF|(keep & add & [A1 A2 A3 K1 K2 K3] & HF)] H.
  { by destruct (HF s s1). }
  destruct (HF s) as (x & Hx & Hx'). rewrite Hx in H. injection H as ->.
  destruct (HF s1) as (y & Hy & Hy'). rewrite Hy. f_equal.
  apply set_eq. intros p. rewrite Hy', Hx'. split; [|tauto].
  intros [Ha|[Hk [Ha|[_ Hs]]]]; [tauto| |tauto]. by destruct (A1 p).
Qed.

Lemma reconciles_frame (P : Z -> Prop) F (s s1 : gset PlanRecord) :
  reconciles today orders P F -> F s = Returns s1 ->
  (forall p, ymd_lt (dateISO p) today ->
     (p ∈ s1 -> p ∈ s) /\ (p ∈ s -> ~ P (customerId p) -> p ∈ s1)) /\
  (forall p, P (customerId p) -> p ∉ s1).
Proof.
  intros [HF|(keep & add & [A1 A2 A3 K1 K2 K3] & HF)] H.
  { by destruct (HF s s1). }
  destruct (HF s) as (x & Hx & Hx'). rewrite Hx in H. injection H as ->.
  split.
  - intros p Hp. rewrite Hx'. split.
    + intros [Ha|[_ Hs]]; [|done]. specialize (A2 p Ha).
      unfold ymd_lt, ymd_le in *. rewrite ymd_leb_ltb, Hp in A2. done.
    + intros Hs HP. destruct (K1 p Hp); [auto|done].
  - intros p Hp. rewrite Hx'. intros [Ha|[Hk _]].
    + by apply (K3 _ Hp), A3.
    + by apply (K2 p).
Qed.
End Effects.
End ReconcileFacts.

Module PassFacts.
Import Calendar CalendarFacts DateString YmdFacts PredictFacts PlanFacts Db DbFacts
       ReconcileFacts.
Import DateSpec DbSpec.

Lemma addDaysYmd_image (s : ymd) (n : Z) (r : ymd) :
  addDaysYmd s n = Returns r -> exists k, r = jstYmdFromDate k.
Proof.
  unfold addDaysYmd. destruct (parseYmd s); [|done]. intros H.
  injection H as <-. eauto.
Qed.

Lemma last_fold_None (l : list Order) (acc : option ymd) :
  fold_left last_step l acc = None ->
  acc = None /\ Forall (fun o => ISO_YMD (date o) = None) l.
Proof.
  revert acc. induction l as [|o l IH]; intros acc H; cbn in *; [done|].
  apply IH in H as [H1 H2]. unfold last_step in H1.
  destruct (ISO_YMD (date o)) eqn:E; [by destruct acc|].
  split; [done|]. by constructor.
Qed.

Lemma filter_all_false {A : Type} (p : A -> bool) (l : list A) :
  Forall (fun x => p x = false) l -> List.filter p l = [].
Proof. induction 1 as [|x l Hx _ IH]; cbn; [done|]. by rewrite Hx. Qed.

(** A customer without any well-formed delivery date has no history. *)
Lemma no_delivery_no_history (orders : list Order) (cid baseYear back : Z) :
  ~ has_delivery orders cid ->
  getHistoryDatesForCustomer orders cid baseYear back = [].
Proof.
  intros H. unfold has_delivery, getLastDeliveredYmd in H.
  change (fold_left _ (orders_of orders cid) None)
    with (fold_left last_step (orders_of orders cid) None) in H.
  destruct (fold_left last_step _ None) eqn:E; [exfalso; eauto|].
  apply last_fold_None in E as [_ E].
  unfold getHistoryDatesForCustomer. rewrite filter_all_false; [done|].
  apply Forall_fmap. eapply Forall_impl; [exact E|].
  intros o Ho. cbn. by rewrite Ho.
Qed.

Section Step.
Variable fuel : nat.
Variables hDays fbCycle maxBack : Z.
Variables t e : Z.
Variable baseYear : Z.
Variable orders : list Order.

Local Abbreviation today := (jstYmdFromDate t).
Local Abbreviation horizonEnd := (jstYmdFromDate e).

Lemma deleteFuture_reconciles (cid : Z) :
  reconciles today orders (fun _ => False)
    (fun s => Returns (deleteFuturePlansForCustomer cid today s)).
Proof.
  right.
  exists (fun p => ~ (customerId p = cid /\ ymd_le today (dateISO p))),
         (fun _ => False).
  split.
  - split; try done. intros p Hp. left. intros [_ Hle].
    unfold ymd_lt, ymd_le in *. rewrite ymd_leb_ltb, Hp in Hle. done.
  - intros s. eexists. split; [done|]. intros p.
    rewrite elem_of_deleteFuture. tauto.
Qed.

Lemma fallback_reconciles (c : Customer) (cid : Z) :
  reconciles today orders (fun cid' => cid' = cid /\ ~ has_delivery orders cid')
    (fun s => fallback_branch fuel fbCycle today horizonEnd orders c cid s).
Proof.
  unfold fallback_branch.
  destruct (getLastDeliveredYmd orders cid) as [last|] eqn:EL.
  2:{ right. exists (fun p => customerId p <> cid), (fun _ => False). split.
      - split; try done.
        + intros p _. destruct (decide (customerId p = cid)) as [Hc|Hc]; [|by left].
          right. split; [done|]. rewrite Hc. unfold has_delivery. rewrite EL.
          by intros [x Hx].
        + intros p [Hp _]. tauto.
        + intros cid' [_ H]. done.
      - intros s. eexists. split; [done|]. intros p.
        rewrite elem_of_deleteAll. tauto. }
  set (cycle := cycleDaysFromTank (tankType c) (Some fbCycle)).
  destruct (addDaysYmd last cycle) as [next0| |] eqn:E0;
    [|left; intros s s'; by cbn..].
  destruct (addDaysYmd_image _ _ _ E0) as [n0 ->].
  change (reconciles today orders
            (fun cid' => cid' = cid /\ ~ has_delivery orders cid')
            (fun s => next ← Predict.skip_past fuel cycle today (jstYmdFromDate n0);
                      fill_horizon fuel cycle horizonEnd cid next
                        (deleteFuturePlansForCustomer cid today s))).
  destruct (Predict.skip_past fuel cycle today (jstYmdFromDate n0))
    as [next| |] eqn:E1; [|left; intros s s'; by cbn..].
  destruct (skip_past_jst_image _ _ _ _ _ E1) as [n ->].
  pose proof (skip_past_result_gt _ _ _ _ _ E1) as Hgt.
  unfold ymd_lt in Hgt. rewrite jst_ltb in Hgt. apply Z.ltb_lt in Hgt.
  destruct (horizon_dates fuel cycle horizonEnd (jstYmdFromDate n))
    as [ds| |] eqn:E2.
  2,3: left; intros s s'; rewrite bind_Returns, fill_horizon_dates, E2; done.
  pose proof (horizon_dates_future _ _ _ _ _ _ Hgt E2) as Hds.
  rewrite Forall_forall in Hds.
  right.
  exists (fun p => ~ (customerId p = cid /\ ymd_le today (dateISO p))),
         (fun p => customerId p = cid /\ dateISO p ∈ ds).
  split.
  - split.
    + intros p [Hc Hd] Hk. apply Hk. split; [done|]. by apply ymd_lt_le, Hds.
    + intros p [Hc Hd]. by apply ymd_lt_le, Hds.
    + intros p [Hc Hd]. rewrite Hc. unfold has_delivery. rewrite EL. eauto.
    + intros p Hp. left. intros [_ Hle].
      unfold ymd_lt, ymd_le in *. rewrite ymd_leb_ltb, Hp in Hle. done.
    + intros p [Hc Hn]. exfalso. apply Hn. rewrite Hc. unfold has_delivery.
      rewrite EL. eauto.
    + intros cid' [_ H]. done.
  - intros s. eexists. split.
    + rewrite bind_Returns, fill_horizon_dates, E2, bind_Returns. done.
    + intros p. rewrite elem_of_add_dates, elem_of_deleteFuture. tauto.
Qed.

Lemma reconcile_customer_reconciles (c : Customer) :
  reconciles today orders (purged_by orders c)
    (fun s => reconcile_customer fuel hDays fbCycle maxBack today horizonEnd
                baseYear orders c s).
Proof.
  unfold reconcile_customer, purged_by.
  destruct (id c) as [cid|] eqn:Eid.
  2:{ eapply reconciles_ext; [|apply reconciles_ret].
      intros cid. split; [done|]. by intros [? _]. }
  assert (forall cid', (cid' = cid /\ ~ has_delivery orders cid') <->
                       (Some cid = Some cid' /\ ~ has_delivery orders cid'))
    as Hext.
  { intros cid'. split; intros [H1 H2]; split; congruence. }
  destruct (List.filter _ _) as [|b bs] eqn:EB.
  { eapply reconciles_ext; [exact Hext|]. apply fallback_reconciles. }
  assert (has_delivery orders cid) as Hdel.
  { destruct (getLastDeliveredYmd orders cid) eqn:EL;
      [unfold has_delivery; rewrite EL; eauto|].
    rewrite no_delivery_no_history in EB; [done|].
    unfold has_delivery. rewrite EL. by intros [x Hx]. }
  assert (forall cid', False <-> (Some cid = Some cid' /\ ~ has_delivery orders cid'))
    as Hext'.
  { intros cid'. split; [done|]. intros [H1 H2]. apply H2. congruence. }
  destruct (Forecast.buildPlanFromHistory _ _ _ _ _) as [r|msg|] eqn:EP.
  - eapply reconciles_ext; [exact Hext'|]. right.
    exists (fun p => ~ (customerId p = cid /\ ymd_le today (dateISO p))),
           (fun p => customerId p = cid /\ dateISO p ∈ Forecast.plannedDates r
                     /\ ymd_le today (dateISO p)).
    split.
    + split; try done.
      * intros p (Hc & _ & Hle) Hk. apply Hk. done.
      * intros p (Hc & _ & Hle). done.
      * intros p (Hc & _ & Hle). by rewrite Hc.
      * intros p Hp. left. intros [_ Hle].
        unfold ymd_lt, ymd_le in *. rewrite ymd_leb_ltb, Hp in Hle. done.
    + intros s. eexists. split; [done|]. intros p.
      rewrite elem_of_upsert_fold, elem_of_deleteFuture. tauto.
  - eapply reconciles_ext;
      [|exact (reconciles_comp today orders _ _ _ _
                 (deleteFuture_reconciles cid) (fallback_reconciles c cid))].
    intros cid'. cbn. split.
    + intros [[]|[-> H]]. done.
    + intros [H1 H2]. exfalso. apply H2. congruence.
  - left. by intros s s'.
Qed.

Lemma for_customers_reconciles (customers : list Customer) :
  reconciles today orders (purged_in orders customers)
    (fun s => for_customers fuel hDays fbCycle maxBack today horizonEnd
                baseYear orders customers s).
Proof.
  induction customers as [|c cs IH]; cbn [for_customers].
  - eapply reconciles_ext; [|apply reconciles_ret].
    intros cid. split; [done|]. intros (c & Hc & _). by apply elem_of_nil in Hc.
  - eapply reconciles_ext;
      [|exact (reconciles_comp today orders _ _ _ _
                 (reconcile_customer_reconciles c) IH)].
    intros cid. cbn. unfold purged_in. setoid_rewrite elem_of_cons. split.
    + intros [H|(c' & Hc & H)]; [exists c|exists c']; auto.
    + intros (c' & [->|Hc] & H); [by left|right; eauto].
Qed.
End Step.

Lemma pass_reconciles (fuel : nat) (clock : Z) (opts : option Options)
    (customers : list Customer) (orders : list Order) :
  reconciles (jstYmdFromDate clock) orders (purged_in orders customers)
    (fun s => buildMonthlyPlanByThreshold fuel clock opts customers orders s).
Proof.
  unfold buildMonthlyPlanByThreshold.
  eapply reconciles_ext; [reflexivity|].
  pose proof (for_customers_reconciles fuel
                (default 370 (opts ≫= horizonDays))
                (default 42 (opts ≫= fallbackCycleDays))
                (default 3 (opts ≫= maxYearsBack))
                clock (clock + default 370 (opts ≫= horizonDays))
                (year (jstYmdFromDate clock) - 1) orders customers) as H.
  destruct H as [H|(keep & add & Hok & H)]; [left|right].
  - intros s s'. rewrite addDaysYmd_jst, bind_Returns. apply H.
  - exists keep, add. split; [done|]. intros s.
    rewrite addDaysYmd_jst, bind_Returns. apply H.
Qed.
End PassFacts.

Module PassTheorems.
Import Calendar CalendarFacts DateString YmdFacts PredictFacts PlanFacts Db DbFacts
       ReconcileFacts PassFacts.
Import DateSpec DbSpec.

(** C1 (amended).  After a completed pass, a plan entry dated before today
  is in the table only if it was there before (none is created), and an
  entry that was there before still is, unless its customer is listed and
  has no delivery record with a well-formed date; every entry of such a
  customer, past ones included, is deleted. *)
Theorem past_entries_preserved (fuel : nat) (clock : Z) (opts : option Options)
    (customers : list Customer) (orders : list Order)
    (plans plans' : gset PlanRecord) :
  buildMonthlyPlanByThreshold fuel clock opts customers orders plans
    = Returns plans' ->
  (forall p, ymd_lt (dateISO p) (jstYmdFromDate clock) ->
     (p ∈ plans' -> p ∈ plans) /\
     (p ∈ plans -> ~ purged_in orders customers (customerId p) -> p ∈ plans')) /\
  (forall p, purged_in orders customers (customerId p) -> p ∉ plans').
Proof.
  intros H.
  exact (reconciles_frame _ _ _ _ _ _
           (pass_reconciles fuel clock opts customers orders) H).
Qed.

(** C6.  If a pass over a plan table completes, a second pass with the same
  options, customers, orders and today, run on the table the first one
  returned, completes and returns that table unchanged. *)
Theorem reconciliation_idempotent (fuel : nat) (clock : Z)
    (opts : option Options) (customers : list Customer) (orders : list Order)
    (plans plans1 : gset PlanRecord) :
  buildMonthlyPlanByThreshold fuel clock opts customers orders plans
    = Returns plans1 ->
  buildMonthlyPlanByThreshold fuel clock opts customers orders plans1
    = Returns plans1.
Proof.
  intros H.
  exact (reconciles_idem _ _ _ _ _ _
           (pass_reconciles fuel clock opts customers orders) H).
Qed.

(** A run is settled by listing the entries of the table it returns. *)
Lemma returns_by_elements (o : outcome (gset PlanRecord)) (t : gset PlanRecord) :
  returned_elements o = Some (elements t) -> o = Returns t.
Proof.
  destruct o as [s| |]; cbn; [|done..]. intros H. injection H as H. f_equal.
  rewrite <- (list_to_set_elements_L s), <- (list_to_set_elements_L t).
  by rewrite H.
Qed.

Lemma past_entries_preserved_witness :
  (forall p, ymd_lt (dateISO p) (jstYmdFromDate sample_clock) ->
     (p ∈ sample_after -> p ∈ sample_plans) /\
     (p ∈ sample_plans ->
      ~ purged_in sample_orders sample_customers (customerId p) ->
      p ∈ sample_after)) /\
  (forall p, purged_in sample_orders sample_customers (customerId p) ->
     p ∉ sample_after).
Proof.
  apply (past_entries_preserved 40 sample_clock sample_opts sample_customers
           sample_orders sample_plans sample_after).
  apply returns_by_elements. vm_compute. reflexivity.
Defined.

Lemma reconciliation_idempotent_witness :
  buildMonthlyPlanByThreshold 40 sample_clock sample_opts sample_customers
    sample_orders sample_after = Returns sample_after.
Proof.
  apply (reconciliation_idempotent 40 sample_clock sample_opts sample_customers
           sample_orders sample_plans sample_after).
  apply returns_by_elements. vm_compute. reflexivity.
Defined.

(** C1 as stated fails: the past entry of a customer without deliveries
    is deleted. *)
Lemma past_entry_of_new_customer_deleted :
  let p := mkPlan (Ymd 2025 1 1) 3 in
  ymd_lt (dateISO p) (jstYmdFromDate sample_clock) /\
  p ∈ sample_plans /\
  buildMonthlyPlanByThreshold 40 sample_clock sample_opts sample_customers
    sample_orders sample_plans = Returns sample_after /\
  p ∉ sample_after.
Proof.
  cbv zeta. split; [reflexivity|]. split; [|split].
  - unfold sample_plans. rewrite elem_of_list_to_set, !elem_of_cons. auto.
  - apply returns_by_elements. vm_compute. reflexivity.
  - unfold sample_after. rewrite elem_of_list_to_set, !elem_of_cons, elem_of_nil.
    intros [H|[H|[H|[H|[]]]]]; discriminate.
Qed.
End PassTheorems.

Module ReceptionFacts.
Import Calendar CalendarFacts DateString YmdFacts PredictFacts Reception.
Import DateSpec ReceptionSpec.




End ReceptionFacts.

Module VrpFacts.
Import Vrp.
Import VrpSpec.

Section Greedy.
Variable num : Type.
Variable num_lt : num -> num -> bool.
Variable distanceKm : Point num -> Point num -> num.
Hypothesis num_lt_irrefl : forall a, num_lt a a = false.
Hypothesis num_lt_trans :
  forall a b c, num_lt a b = true -> num_lt b c = true -> num_lt a c = true.

Local Abbreviation dist cur x := (distanceKm cur (point_of x)).

Lemma scan_best (current : Point num) (rest pre : list (RouteCandidate num))
    (bestIndex : nat) (bestDist : option num) :
  best_so_far num num_lt distanceKm current pre bestIndex bestDist ->
  pre ++ rest <> [] ->
  exists b, (pre ++ rest) !! scan num num_lt distanceKm current rest
                                (length pre) bestIndex bestDist = Some b /\
    forall e, e ∈ pre ++ rest ->
      num_lt (dist current e) (dist current b) = false.
Proof.
  revert pre bestIndex bestDist.
  induction rest as [|r rest IH]; intros pre bestIndex bestDist Hb Hne.
  - rewrite app_nil_r in *. cbn [scan]. destruct bestDist as [bd|]; [|done].
    destruct Hb as (b & Hl & -> & Hmin). eauto.
  - cbn [scan].
    replace (pre ++ r :: rest) with ((pre ++ [r]) ++ rest)
      by (by rewrite <- app_assoc).
    replace (S (length pre)) with (length (pre ++ [r]))
      by (rewrite length_app; cbn; lia).
    assert ((pre ++ [r]) ++ rest <> []) as Hne' by (by destruct pre).
    destruct (below num num_lt (dist current r) bestDist) eqn:E.
    + apply IH; [|done]. exists r. split.
      { rewrite lookup_app_r by lia. by rewrite Nat.sub_diag. }
      split; [done|]. intros e He. apply elem_of_app in He as [He|He].
      * destruct bestDist as [bd|]; [|by rewrite Hb in He; apply elem_of_nil in He].
        destruct Hb as (b & Hl & -> & Hmin). cbn in E.
        destruct (num_lt (dist current e) (dist current r)) eqn:E'; [|done].
        rewrite <- (Hmin e He). symmetry. by eapply num_lt_trans.
      * apply list_elem_of_singleton in He as ->. apply num_lt_irrefl.
    + destruct bestDist as [bd|]; [|done]. cbn in E.
      destruct Hb as (b & Hl & -> & Hmin).
      apply IH; [|done]. exists b. split.
      { by rewrite lookup_app_l by (by eapply lookup_lt_Some). }
      split; [done|]. intros e He. apply elem_of_app in He as [He|He]; [auto|].
      by apply list_elem_of_singleton in He as ->.
Qed.
End Greedy.

Section Loop.
Variable num : Type.
Variable num_lt : num -> num -> bool.
Variable distanceKm : Point num -> Point num -> num.
Hypothesis num_lt_irrefl : forall a, num_lt a a = false.
Hypothesis num_lt_trans :
  forall a b c, num_lt a b = true -> num_lt b c = true -> num_lt a c = true.

Lemma scan_min (current : Point num) (l : list (RouteCandidate num)) :
  l <> [] ->
  exists b, l !! scan num num_lt distanceKm current l 0 0 None = Some b /\
    forall e, e ∈ l ->
      num_lt (distanceKm current (point_of e)) (distanceKm current (point_of b))
        = false.
Proof.
  intros Hne.
  exact (scan_best num num_lt distanceKm num_lt_irrefl num_lt_trans
           current l [] 0%nat None eq_refl Hne).
Qed.

Lemma route_loop_greedy (n : nat) (current : Point num)
    (remaining route : list (RouteCandidate num)) :
  length remaining = n ->
  exists tail,
    route_loop num num_lt distanceKm n current remaining route = route ++ tail /\
    tail ≡ₚ remaining /\
    nearest_first num_lt distanceKm current tail.
Proof.
  revert current remaining route.
  induction n as [|n IH]; intros current remaining route Hlen.
  - apply nil_length_inv in Hlen as ->. exists []. cbn.
    by rewrite app_nil_r.
  - cbn [route_loop].
    destruct (scan_min current remaining) as (b & Hb & Hmin).
    { intros ->. done. }
    rewrite Hb.
    destruct (IH (point_of b)
                (delete (scan num num_lt distanceKm current remaining 0 0 None)
                        remaining)
                (route ++ [b])) as (tail & -> & Hperm & Hnear).
    { rewrite length_delete by eauto. lia. }
    exists (b :: tail). split; [by rewrite <- app_assoc|]. split.
    + rewrite Hperm. symmetry. by apply delete_Permutation.
    + split; [|done]. intros y Hy. apply Hmin.
      rewrite Hperm in Hy. by eapply list_elem_of_delete_inv.
Qed.

(** The route is a reordering of the candidates that goes to a nearest
    unvisited stop each time. *)
Lemma buildSimpleRoute_greedy (depot : Point num)
    (candidates : list (RouteCandidate num)) :
  buildSimpleRoute num num_lt distanceKm depot candidates ≡ₚ candidates /\
  nearest_first num_lt distanceKm depot
    (buildSimpleRoute num num_lt distanceKm depot candidates).
Proof.
  unfold buildSimpleRoute.
  destruct (route_loop_greedy (length candidates) depot candidates [] eq_refl)
    as (tail & -> & Hperm & Hnear).
  done.
Qed.
End Loop.
End VrpFacts.

Module KmFacts.
Import Vrp VrpFacts.
Import VrpSpec.
Local Open Scope R_scope.

Lemma Rltb_true (a b : R) : Rltb a b = true <-> a < b.
Proof. unfold Rltb. destruct (Rlt_dec a b); split; (done || Lra.lra). Qed.

Lemma Rltb_false (a b : R) : Rltb a b = false <-> b <= a.
Proof. unfold Rltb. destruct (Rlt_dec a b); split; (done || Lra.lra). Qed.

Lemma Rltb_irrefl (a : R) : Rltb a a = false.
Proof. apply Rltb_false. Lra.lra. Qed.

Lemma Rltb_trans (a b c : R) :
  Rltb a b = true -> Rltb b c = true -> Rltb a c = true.
Proof. rewrite !Rltb_true. Lra.lra. Qed.

Lemma nearest_first_km_of (current : Point R) (route : list (RouteCandidate R)) :
  nearest_first Rltb haversineKm current route -> nearest_first_km current route.
Proof.
  revert current. induction route as [|x rest IH]; intros current; cbn; [done|].
  intros [H1 H2]. split; [|by apply IH].
  intros y Hy. apply Rltb_false. by apply H1.
Qed.

Lemma asin_lt (x y : R) : -1 <= x -> x < y -> y <= 1 -> asin x < asin y.
Proof.
  intros Hx Hxy Hy. destruct (Rlt_le_dec (asin x) (asin y)) as [H|H]; [done|].
  exfalso. pose proof (asin_bound x) as [Bx1 Bx2].
  pose proof (asin_bound y) as [By1 By2].
  pose proof (sin_incr_1 (asin y) (asin x) By1 By2 Bx1 Bx2 H) as Hs.
  rewrite !sin_asin in Hs by Lra.lra. Lra.lra.
Qed.

Lemma cos_PI4_sq : 2 * (cos (PI / 4) * cos (PI / 4)) = 1.
Proof.
  pose proof (cos_2a_cos (PI / 4)) as H.
  replace (2 * (PI / 4)) with (PI / 2) in H by Lra.lra.
  rewrite cos_PI2 in H. Lra.lra.
Qed.

Lemma haversine_form (a b : Point R) :
  haversineKm a b =
    2 * 6371 * asin (Rmin 1 (sqrt (sin (toRad (lat b - lat a) / 2) ^ 2 +
                                  cos (toRad (lat a)) * cos (toRad (lat b)) *
                                  sin (toRad (lng b - lng a) / 2) ^ 2))).
Proof. reflexivity. Qed.

(** The stop one hundredth of a degree north is nearer to the depot than
    the stop five hundredths of a degree east. *)
Lemma depot_A_nearer_than_B :
  haversineKm depot0 (point_of stopA) < haversineKm depot0 (point_of stopB).
Proof.
  pose proof PI_RGT_0 as Hpi.
  set (a := PI / 36000). set (th := 34 * PI / 180).
  assert (haversineKm depot0 (point_of stopA)
          = 2 * 6371 * asin (Rmin 1 (sqrt (sin a ^ 2)))) as ->.
  { rewrite haversine_form. cbn [lat lng point_of depot0 stopA rc_lat rc_lng].
    unfold toRad.
    replace ((3401 / 100 - 34) * PI / 180 / 2) with a by (subst a; Lra.lra).
    replace ((132 - 132) * PI / 180 / 2) with 0 by Lra.lra.
    rewrite sin_0. do 4 f_equal. ring. }
  assert (haversineKm depot0 (point_of stopB)
          = 2 * 6371 * asin (Rmin 1 (sqrt ((cos th * sin (5 * a)) ^ 2)))) as ->.
  { rewrite haversine_form. cbn [lat lng point_of depot0 stopB rc_lat rc_lng].
    unfold toRad.
    replace ((34 - 34) * PI / 180 / 2) with 0 by Lra.lra.
    replace ((13205 / 100 - 132) * PI / 180 / 2) with (5 * a) by (subst a; Lra.lra).
    fold th. rewrite sin_0. do 4 f_equal. ring. }
  assert (0 < a /\ 5 * a < PI / 4) as [Ha Ha5] by (subst a; split; Lra.lra).
  assert (0 < th < PI / 4) as [Hth Hth4] by (subst th; split; Lra.lra).
  assert (0 < sin a) as Hsa by (apply sin_gt_0; Lra.lra).
  assert (0 < cos (PI / 4)) as Hc by (apply cos_gt_0; Lra.lra).
  assert (cos (PI / 4) < cos th) as Hcth by (apply cos_decreasing_1; Lra.lra).
  assert (cos (PI / 4) < cos a) as Hca by (apply cos_decreasing_1; Lra.lra).
  assert (sin (2 * a) <= sin (5 * a)) as Hs25 by (apply sin_incr_1; Lra.lra).
  rewrite sin_2a in Hs25.
  pose proof cos_PI4_sq as Hsq.
  pose proof (SIN_bound a) as [_ Hsa1].
  pose proof (SIN_bound (5 * a)) as [_ Hs51].
  pose proof (COS_bound th) as [_ Hcth1].
  assert (0 < sin (5 * a)) as Hs5 by (apply sin_gt_0; Lra.lra).
  assert (sin a < cos th * sin (5 * a)) as Hlt.
  { apply Rlt_le_trans with (cos th * (2 * sin a * cos a)).
    - assert (cos (PI / 4) * cos (PI / 4) < cos th * cos a) as Hprod.
      { apply Rmult_le_0_lt_compat; Lra.lra. }
      replace (cos th * (2 * sin a * cos a)) with (sin a * (2 * (cos th * cos a)))
        by ring.
      rewrite <- (Rmult_1_r (sin a)) at 1.
      apply Rmult_lt_compat_l; Lra.lra.
    - apply Rmult_le_compat_l; Lra.lra. }
  assert (cos th * sin (5 * a) <= 1) as Hle1.
  { rewrite <- (Rmult_1_r 1). apply Rmult_le_compat; Lra.lra. }
  rewrite !sqrt_pow2 by Lra.lra.
  rewrite !Rmin_right by Lra.lra.
  apply Rmult_lt_compat_l; [Lra.lra|].
  apply asin_lt; Lra.lra.
Qed.

Lemma route_A_B : buildSimpleRouteKm depot0 [stopA; stopB] = [stopA; stopB].
Proof.
  pose proof depot_A_nearer_than_B as H.
  unfold buildSimpleRouteKm, buildSimpleRoute.
  cbn [length route_loop scan below].
  assert (Rltb (haversineKm depot0 (point_of stopB))
               (haversineKm depot0 (point_of stopA)) = false) as ->.
  { apply Rltb_false. Lra.lra. }
  reflexivity.
Qed.

Lemma route_B_A : buildSimpleRouteKm depot0 [stopB; stopA] = [stopA; stopB].
Proof.
  pose proof depot_A_nearer_than_B as H.
  unfold buildSimpleRouteKm, buildSimpleRoute.
  cbn [length route_loop scan below].
  assert (Rltb (haversineKm depot0 (point_of stopA))
               (haversineKm depot0 (point_of stopB)) = true) as ->.
  { by apply Rltb_true. }
  reflexivity.
Qed.

(** C9.  For every depot and list of candidates, buildSimpleRoute with the
  haversine distance (Earth radius 6371 km) returns a permutation of the
  candidates in which every stop is, among the stops not yet visited, one
  of minimum distance from the position reached so far: the depot first,
  then each chosen stop.  With depot (34.0, 132.0), A (34.01, 132.00) and
  B (34.00, 132.05) the route is [A, B], whichever way the two are
  listed. *)
Theorem buildSimpleRoute_nearest_neighbour :
  (forall (depot : Point R) (candidates : list (RouteCandidate R)),
     buildSimpleRouteKm depot candidates ≡ₚ candidates /\
     nearest_first_km depot (buildSimpleRouteKm depot candidates)) /\
  buildSimpleRouteKm depot0 [stopA; stopB] = [stopA; stopB] /\
  buildSimpleRouteKm depot0 [stopB; stopA] = [stopA; stopB].
Proof.
  split; [|split; [exact route_A_B|exact route_B_A]].
  intros depot candidates.
  destruct (buildSimpleRoute_greedy R Rltb haversineKm Rltb_irrefl Rltb_trans
              depot candidates) as [H1 H2].
  split; [exact H1|]. by apply nearest_first_km_of.
Qed.
End KmFacts.

(** * Further lemmas and theorems *)

Module GroupFacts.
Import Calendar CalendarFacts DateString YmdFacts Forecast HistoryFacts.
Import DateSpec ForecastSpec.

Lemma split_fold_outside (baseYear minYear y : Z) (h : list string)
    (acc : gmap Z (list ymd)) :
  ~ (minYear <= y <= baseYear) ->
  fold_left (split_step baseYear minYear) h acc !! y = acc !! y.
Proof.
  intros Hy. revert acc. induction h as [|s h IH]; intros acc; [done|].
  cbn [fold_left]. rewrite IH. unfold split_step.
  destruct (ISO_YMD s) as [d|]; [|done].
  destruct (Z.ltb_spec baseYear (year d)); [done|].
  destruct (Z.ltb_spec (year d) minYear); [done|].
  unfold push_year. rewrite lookup_insert_ne; [done|lia].
Qed.

Lemma split_lookup (h : list string) (baseYear back y : Z) :
  splitHistoryByYear h baseYear back !! y =
    if bool_decide (baseYear - back <= y <= baseYear)
    then match dates_of_year y h with
         | [] => None
         | l => Some (sort_ymd l)
         end
    else None.
Proof.
  unfold splitHistoryByYear. rewrite lookup_fmap.
  change (fold_left _ h ∅) with
    (fold_left (split_step baseYear (baseYear - back)) h ∅).
  case_bool_decide as Hy.
  - rewrite split_fold_lookup by done. rewrite lookup_empty.
    by destruct (dates_of_year y h).
  - rewrite split_fold_outside by done. by rewrite lookup_empty.
Qed.

(** X1.  splitHistoryByYear keeps exactly the well-formed dates whose year
    lies between baseYear - maxYearsBack and baseYear: under each such year
    that occurs it stores that year's dates, sorted, and it has no key for
    any other year. *)
Theorem splitHistoryByYear_groups (h : list string) (baseYear back y : Z) :
  splitHistoryByYear h baseYear back !! y =
    if bool_decide (baseYear - back <= y <= baseYear)
    then match dates_of_year y h with
         | [] => None
         | l => Some (sort_ymd l)
         end
    else None.
Proof. apply split_lookup. Qed.

#[export] Instance year_le_trans : Transitive year_le.
Proof. intros a b c. unfold year_le. lia. Qed.

#[export] Instance year_le_total : Total year_le.
Proof. intros a b. unfold year_le. lia. Qed.

Lemma sorted_distinct_strict {A : Type} (key : A -> Z) (l : list A) :
  StronglySorted (fun a b => key a <= key b) l -> NoDup (key <$> l) ->
  StronglySorted (fun a b => key a < key b) l.
Proof.
  induction 1 as [|a l Hs IH Ha]; intros Hn; [constructor|].
  rewrite fmap_cons in Hn. apply NoDup_cons in Hn as [Hnot Hn].
  constructor; [by apply IH|].
  rewrite Forall_forall in Ha |- *. intros b Hb.
  pose proof (Ha b Hb) as Hle.
  assert (key a <> key b); [|lia].
  intros E. apply Hnot. rewrite E. apply list_elem_of_fmap. exists b.
  done.
Qed.

Lemma calcYearlyCounts_years (byYear : gmap Z (list ymd)) :
  yc_year <$> calcYearlyCounts byYear ≡ₚ (map_to_list byYear).*1.
Proof.
  unfold calcYearlyCounts, entries.
  rewrite merge_sort_Permutation, <- list_fmap_compose, merge_sort_Permutation.
  done.
Qed.

(** X2.  The yearly counts of a history come in strictly ascending years
    inside the window; each count is the number of well-formed dates of its
    year, so it is at least one, and every year of the window that has a
    date has its entry. *)
Theorem calcYearlyCounts_of_history (h : list string) (baseYear back : Z) :
  let ycs := calcYearlyCounts (splitHistoryByYear h baseYear back) in
  StronglySorted (fun a b => yc_year a < yc_year b) ycs /\
  Forall (fun s => baseYear - back <= yc_year s <= baseYear /\
                   yc_count s = Z.of_nat (length (dates_of_year (yc_year s) h)) /\
                   1 <= yc_count s) ycs /\
  (forall y, baseYear - back <= y <= baseYear -> dates_of_year y h <> [] ->
     exists s, s ∈ ycs /\ yc_year s = y).
Proof.
  intros ycs. split; [|split].
  - apply (sorted_distinct_strict yc_year).
    + subst ycs. unfold calcYearlyCounts.
      apply (StronglySorted_merge_sort year_le).
    + subst ycs. rewrite calcYearlyCounts_years. apply NoDup_fst_map_to_list.
  - apply Forall_forall. intros s Hs.
    apply elem_of_calcYearlyCounts in Hs as (ds & Hds & Hc).
    rewrite split_lookup in Hds. case_bool_decide as Hy; [|done].
    destruct (dates_of_year (yc_year s) h) as [|d l] eqn:E; [done|].
    injection Hds as <-. rewrite Hc, sort_ymd_length. cbn [length].
    split; [done|]. split; lia.
  - intros y Hy Hne.
    exists {| yc_year := y;
              yc_count := Z.of_nat (length (sort_ymd (dates_of_year y h))) |}.
    split; [|done]. apply elem_of_calcYearlyCounts. cbn.
    exists (sort_ymd (dates_of_year y h)). split; [|done].
    rewrite split_lookup. rewrite bool_decide_eq_true_2 by done.
    by destruct (dates_of_year y h).
Qed.

Lemma calcYearlyCounts_of_history_witness :
  exists s, s ∈ calcYearlyCounts (splitHistoryByYear history_2024 2024 3) /\
            yc_year s = 2024.
Proof.
  apply (calcYearlyCounts_of_history history_2024 2024 3).
  - lia.
  - vm_compute. discriminate.
Defined.

End GroupFacts.

Module MonthLengthFacts.
Import Calendar CalendarFacts DateString YmdFacts Forecast ForecastFacts.
Import DateSpec.

Lemma daysInMonth_exact (y m : Z) :
  1 <= m <= 12 ->
  daysInMonth y m =
    days_in_month
      (InLeapYear (if (0 <=? y) && (y <=? 99) then 1900 + y else y)) (m - 1).
Proof.
  intros Hm. unfold daysInMonth, DateLocal.
  generalize (if (0 <=? y) && (y <=? 99) then 1900 + y else y). intros yr.
  set (dim := days_in_month (InLeapYear yr) (m - 1)).
  pose proof (days_in_month_range (InLeapYear yr) (m - 1)) as HR. fold dim in HR.
  assert (MakeDay yr m 0 = MakeDay yr (m - 1) dim) as Hd.
  { rewrite (MakeDay_in_range yr (m - 1)) by lia. unfold MakeDay.
    destruct (decide (m = 12)) as [->|Hne].
    - change (12 / 12) with 1. change (12 mod 12) with 0.
      rewrite DayFromYear_succ. subst dim.
      unfold DaysInYear, days_before_month, days_in_month. simpl.
      destruct (InLeapYear yr); lia.
    - rewrite (Z.div_small m 12), (Z.mod_small m 12) by lia.
      replace (yr + 0) with yr by lia. subst dim.
      unfold days_before_month, days_in_month.
      destruct (InLeapYear yr); split_eqb; simpl; lia. }
  assert (jstYmdFromDate (MakeDay yr m 0) = Ymd yr m dim) as HJ.
  { apply jst_parse_real.
    - split; simpl; lia.
    - unfold parseYmd. simpl.
      replace ((1 <=? m) && (m <=? 12)) with true by lia.
      replace (1 <=? dim) with true by lia.
      replace (dim <=? 31) with true by lia.
      simpl. by rewrite Hd. }
  injection HJ as _ _ ->. done.
Qed.

(** X3.  For a month number 1..12, daysInMonth is the length of that month
    in the Gregorian calendar, leap Februaries included; a year 0..99 is
    read by the Date constructor as 1900 + year. *)
Theorem daysInMonth_calendar (y m : Z) :
  1 <= m <= 12 ->
  daysInMonth y m =
    days_in_month
      (InLeapYear (if (0 <=? y) && (y <=? 99) then 1900 + y else y)) (m - 1).
Proof. apply daysInMonth_exact. Qed.

Lemma daysInMonth_calendar_witness :
  daysInMonth 2024 2 = 29 /\ daysInMonth 1900 2 = 28 /\ daysInMonth 0 2 = 28.
Proof.
  split; [|split].
  - apply (daysInMonth_calendar 2024 2). lia.
  - apply (daysInMonth_calendar 1900 2). lia.
  - apply (daysInMonth_calendar 0 2). lia.
Defined.

Lemma generateDatesForMonth_days (y m c : Z) :
  NoDup (generateDatesForMonth y m c) -> c <= daysInMonth y m.
Proof.
  intros Hn. destruct (Z.le_gt_cases c 0) as [H0|Hpos].
  { pose proof (daysInMonth_range y m). lia. }
  assert (NoDup (day <$> generateDatesForMonth y m c)) as Hd.
  { apply NoDup_fmap_2_strong; [|done].
    intros a b Ha Hb E.
    pose proof (generateDatesForMonth_fields y m c) as HF.
    rewrite Forall_forall in HF.
    destruct (HF a Ha) as (Ya & Ma & _), (HF b Hb) as (Yb & Mb & _).
    destruct a, b; simpl in *; congruence. }
  assert (day <$> generateDatesForMonth y m c ⊆ seqZ 1 (daysInMonth y m)) as Hi.
  { intros x Hx. apply list_elem_of_fmap in Hx as (d & -> & Hdin).
    pose proof (generateDatesForMonth_fields y m c) as HF.
    rewrite Forall_forall in HF. destruct (HF d Hdin) as (_ & _ & Hr).
    apply elem_of_seqZ. lia. }
  pose proof (submseteq_length _ _ (NoDup_submseteq _ _ Hd Hi)) as HL.
  rewrite length_fmap, generateDatesForMonth_length, length_seqZ in HL. lia.
Qed.

(** X4.  The dates generateDatesForMonth puts into one month are pairwise
    distinct exactly when the count does not exceed the number of days of
    the month; up to that count they are strictly ascending. *)
Theorem generateDatesForMonth_distinct (y m c : Z) :
  (NoDup (generateDatesForMonth y m c) <-> c <= daysInMonth y m) /\
  (c <= daysInMonth y m -> StronglySorted ymd_lt (generateDatesForMonth y m c)).
Proof.
  split; [split|].
  - apply generateDatesForMonth_days.
  - intros H. apply SortedFacts.StronglySorted_lt_NoDup.
    by apply SortedFacts.generateDatesForMonth_sorted.
  - apply SortedFacts.generateDatesForMonth_sorted.
Qed.

Lemma generateDatesForMonth_distinct_witness :
  StronglySorted ymd_lt (generateDatesForMonth 2025 2 28) /\
  ~ NoDup (generateDatesForMonth 2025 2 29).
Proof.
  split.
  - apply (generateDatesForMonth_distinct 2025 2 28). vm_compute. discriminate.
  - intros H. apply (generateDatesForMonth_distinct 2025 2 29) in H.
    vm_compute in H. by apply H.
Defined.

End MonthLengthFacts.

Module ShareFacts.
Import Calendar CalendarFacts DateString YmdFacts Forecast ForecastFacts
       TargetFacts MonthlyFacts HistoryFacts.
Import DateSpec ForecastSpec.

Lemma sumZ_constant (N : Z) (l : list Z) :
  Forall (fun x => x = N) l -> sumZ l = N * Z.of_nat (length l).
Proof.
  induction 1 as [|x l -> _ IH]; [rewrite sumZ_nil; cbn [length]; lia|].
  rewrite sumZ_cons, IH, length_cons. lia.
Qed.

Lemma round_integer (n : Z) (x : Q) : (x == inject_Z n)%Q -> JSMath.round x = n.
Proof.
  intros E. unfold JSMath.round. rewrite E.
  unfold Qfloor, Qplus, inject_Z. simpl.
  Z.div_mod_to_equations. lia.
Qed.

(** X5.  When every year on record has the same number [N > 0] of
    deliveries, decideTargetYearCount returns [N], whether or not the base
    year is among them. *)
Theorem decideTargetYearCount_steady (yearlyCounts : list YearlyCount)
    (baseYear N : Z) :
  yearlyCounts <> [] -> 0 < N ->
  Forall (fun s => yc_count s = N) yearlyCounts ->
  decideTargetYearCount yearlyCounts baseYear = N.
Proof.
  intros Hne HN Hall.
  assert (JSMath.round (average yearlyCounts) = N) as HR.
  { apply round_integer. unfold average.
    rewrite (sumZ_constant N) by (by apply Forall_fmap).
    rewrite length_fmap, inject_Z_mult.
    assert (~ inject_Z (Z.of_nat (length yearlyCounts)) == 0)%Q as Hl.
    { change 0%Q with (inject_Z 0). rewrite inject_Z_injective.
      destruct yearlyCounts; [done|]. simpl. lia. }
    field. exact Hl. }
  unfold decideTargetYearCount.
  destruct yearlyCounts as [|y0 ys]; [done|].
  destruct (find_year (y0 :: ys) baseYear) as [s|] eqn:F.
  - apply find_year_Some in F as [Hin _].
    rewrite Forall_forall in Hall. rewrite (Hall s Hin).
    destruct (Z.leb_spec N 0); [lia|].
    rewrite HR, floor_85, ceil_13.
    destruct (Z.ltb_spec N (N * 85 / 100)); [Z.div_mod_to_equations; lia|].
    destruct (Z.ltb_spec (- (- (N * 13) / 10)) N); [Z.div_mod_to_equations; lia|].
    destruct (Z.leb_spec N 0); lia.
  - simpl. exact HR.
Qed.

Lemma decideTargetYearCount_steady_witness :
  decideTargetYearCount
    [ {| yc_year := 2023; yc_count := 9 |}; {| yc_year := 2024; yc_count := 9 |} ]
    2024 = 9.
Proof.
  apply decideTargetYearCount_steady.
  - discriminate.
  - lia.
  - repeat constructor.
Defined.

Lemma decideTargetYearCount_pos (ycs : list YearlyCount) (baseYear : Z)
    (s : YearlyCount) :
  find_year ycs baseYear = Some s -> 0 < yc_count s ->
  0 < decideTargetYearCount ycs baseYear.
Proof.
  intros Hf Hpos. unfold decideTargetYearCount.
  destruct ycs as [|y0 ys]; [done|]. rewrite Hf.
  destruct (Z.leb_spec (yc_count s) 0); [lia|].
  rewrite floor_85, ceil_13.
  generalize (JSMath.round (average (y0 :: ys))). intros t0.
  repeat match goal with
         | |- context [?a <? ?b] => destruct (Z.ltb_spec a b)
         | |- context [?a <=? ?b] => destruct (Z.leb_spec a b)
         end; Z.div_mod_to_equations; lia.
Qed.

(** The month counters keep their length and stay non-negative. *)
Lemma count_months_inv (dates : list ymd) (arr : list Z) :
  length (count_months dates arr) = length arr /\
  (Forall (fun x => 0 <= x) arr -> Forall (fun x => 0 <= x) (count_months dates arr)).
Proof.
  unfold count_months. revert arr.
  induction dates as [|d dates IH]; intros arr; [done|].
  cbn [fold_left]. destruct ((month d <? 1) || (12 <? month d)); [apply IH|].
  destruct (IH (alter Z.succ (Z.to_nat (month d - 1)) arr)) as [IH1 IH2].
  rewrite length_alter in IH1. split; [done|].
  intros Ha. apply IH2. apply Forall_alter; [done|]. intros x _ Hx. lia.
Qed.

Lemma counters_inv (baseYear : Z) (es : list (Z * list ymd)) (last past : list Z) :
  length last = 12%nat -> length past = 12%nat ->
  Forall (fun x => 0 <= x) last -> Forall (fun x => 0 <= x) past ->
  let r := fold_left (fun '(last, past) e =>
             if e.1 =? baseYear then (count_months e.2 last, past)
             else (last, count_months e.2 past)) es (last, past) in
  length r.1 = 12%nat /\ length r.2 = 12%nat /\
  Forall (fun x => 0 <= x) r.1 /\ Forall (fun x => 0 <= x) r.2.
Proof.
  revert last past. induction es as [|e es IH]; intros last past L1 L2 N1 N2; [done|].
  cbn [fold_left].
  destruct (count_months_inv e.2 last) as [A1 A2].
  destruct (count_months_inv e.2 past) as [B1 B2].
  destruct (e.1 =? baseYear); apply IH; auto; congruence.
Qed.

Lemma sumQ_nonneg (l : list Q) : Forall (fun x => (0 <= x)%Q) l -> (0 <= sumQ l)%Q.
Proof.
  induction 1 as [|x l Hx _ IH]; [unfold sumQ; simpl; lra|].
  rewrite sumQ_cons. lra.
Qed.

Lemma sumQ_scaled (s : Q) (l : list Q) :
  ~ (s == 0)%Q -> (sumQ ((fun w => w / s) <$> l) == sumQ l / s)%Q.
Proof.
  intros Hs. induction l as [|x l IH].
  - unfold sumQ. simpl. field. exact Hs.
  - rewrite fmap_cons, !sumQ_cons, IH. field. exact Hs.
Qed.

Lemma weights_nonneg (wLast wPast : Q) (last past : list Z) :
  (0 <= wLast)%Q -> (0 <= wPast)%Q ->
  Forall (fun x => 0 <= x) last -> Forall (fun x => 0 <= x) past ->
  Forall (fun w => (0 <= w)%Q)
    (zip_with (fun l p => (wLast * inject_Z l + wPast * inject_Z p)%Q) last past).
Proof.
  intros HL HP Hl. revert past. induction Hl as [|a last Ha _ IH]; intros past Hp.
  - constructor.
  - destruct Hp as [|b past Hb Hp]; [constructor|].
    cbn [zip_with]. constructor; [|by apply IH].
    assert (0 <= inject_Z a)%Q by (change 0%Q with (inject_Z 0); rewrite <- Zle_Qle; lia).
    assert (0 <= inject_Z b)%Q by (change 0%Q with (inject_Z 0); rewrite <- Zle_Qle; lia).
    pose proof (Qmult_le_0_compat _ _ HL H).
    pose proof (Qmult_le_0_compat _ _ HP H0).
    lra.
Qed.

Lemma calcMonthlyWeights_inv (byYear : gmap Z (list ymd)) (baseYear : Z)
    (wLast wPast : Q) :
  (0 <= wLast)%Q -> (0 <= wPast)%Q ->
  let shares := calcMonthlyWeights byYear baseYear wLast wPast in
  length shares = 12%nat /\ Forall (fun s => (0 <= s)%Q) shares /\
  (sumQ shares == 1)%Q.
Proof.
  intros HL HP. unfold calcMonthlyWeights.
  pose proof (counters_inv baseYear (entries byYear) (replicate 12 0) (replicate 12 0)
                eq_refl eq_refl) as HC.
  cbv zeta in HC.
  destruct (fold_left _ (entries byYear) _) as [last past].
  destruct HC as (L1 & L2 & N1 & N2).
  { repeat constructor; lia. } { repeat constructor; lia. }
  cbn [fst snd] in *.
  pose proof (weights_nonneg wLast wPast last past HL HP N1 N2) as HW.
  set (weights := zip_with _ last past) in *.
  assert (length weights = 12%nat) as LW.
  { subst weights. rewrite length_zip_with. lia. }
  cbv zeta. destruct (Qle_bool (sumQ weights) 0) eqn:E.
  - split; [done|]. split; [|reflexivity]. repeat constructor; discriminate.
  - assert (0 < sumQ weights)%Q as Hpos.
    { apply Qnot_le_lt. intros H. apply Qle_bool_iff in H. congruence. }
    split; [by rewrite length_fmap|]. split.
    + apply Forall_fmap. eapply Forall_impl; [exact HW|].
      intros w Hw. simpl. apply Qle_shift_div_l; [done|]. by rewrite Qmult_0_l.
    + rewrite sumQ_scaled by lra. field. lra.
Qed.

(** X6.  Whatever the history, calcMonthlyWeights returns twelve
    non-negative shares that sum to 1 (the uniform 1/12 when nothing was
    counted), for non-negative weights wLast and wPast. *)
Theorem calcMonthlyWeights_shares (byYear : gmap Z (list ymd)) (baseYear : Z)
    (wLast wPast : Q) :
  (0 <= wLast)%Q -> (0 <= wPast)%Q ->
  let shares := calcMonthlyWeights byYear baseYear wLast wPast in
  length shares = 12%nat /\ Forall (fun s => (0 <= s)%Q) shares /\
  (sumQ shares == 1)%Q.
Proof. apply calcMonthlyWeights_inv. Qed.

Lemma calcMonthlyWeights_shares_witness :
  let shares := calcMonthlyWeights (splitHistoryByYear history_2024 2024 3) 2024
                  (7 # 10) (3 # 10) in
  length shares = 12%nat /\ Forall (fun s => (0 <= s)%Q) shares /\
  (sumQ shares == 1)%Q.
Proof.
  apply (calcMonthlyWeights_shares (splitHistoryByYear history_2024 2024 3) 2024
           (7 # 10) (3 # 10)); discriminate.
Defined.

Lemma redistribute_inv (steps idx : nat) (monthly : list Z) (diff : Z) :
  length (redistribute steps idx monthly diff) = length monthly /\
  (Forall (fun c => 0 <= c) monthly ->
   Forall (fun c => 0 <= c) (redistribute steps idx monthly diff)).
Proof.
  revert idx monthly diff. induction steps as [|steps IH];
    intros idx monthly diff; cbn [redistribute]; [done|].
  destruct (diff =? 0); [done|].
  destruct (0 <? diff).
  - destruct (IH (S idx) (alter Z.succ (idx mod 12)%nat monthly) (diff - 1))
      as [I1 I2].
    rewrite length_alter in I1. split; [done|]. intros H. apply I2.
    apply Forall_alter; [done|]. intros x _ Hx. lia.
  - destruct ((diff <? 0) && (0 <? default 0 (monthly !! (idx mod 12)%nat))) eqn:E;
      [|apply IH].
    apply andb_true_iff in E as [_ E].
    destruct (IH (S idx) (alter Z.pred (idx mod 12)%nat monthly) (diff + 1))
      as [I1 I2].
    rewrite length_alter in I1. split; [done|]. intros H. apply I2.
    apply Forall_alter; [done|]. intros x Hl _.
    rewrite Hl in E. simpl in E. lia.
Qed.

Lemma makeMonthlyTargets_inv (t : Z) (shares : list Q) :
  length shares = 12%nat -> Forall (fun s => (0 <= s)%Q) shares ->
  length (makeMonthlyTargets t shares) = 12%nat /\
  Forall (fun c => 0 <= c) (makeMonthlyTargets t shares) /\
  ((sumQ shares == 1)%Q -> 0 <= t -> sumZ (makeMonthlyTargets t shares) = t).
Proof.
  intros Hlen Hall. unfold makeMonthlyTargets.
  destruct (Z.leb_spec t 0) as [H0|Hpos].
  { split; [done|]. split; [repeat constructor; lia|].
    intros _ Ht. rewrite sumZ_replicate_0. lia. }
  assert (0 <= inject_Z t)%Q as HTq.
  { change 0%Q with (inject_Z 0). rewrite <- Zle_Qle. lia. }
  pose proof (rounded_sum_bounds _ _ HTq Hall) as [[B1 B2] B3].
  simpl in B1, B2, B3.
  set (monthly := JSMath.round <$> _) in *.
  assert (length monthly = 12%nat) as Hm.
  { subst monthly. by rewrite !length_fmap. }
  destruct (redistribute_inv (12 * 3) 0 monthly (t - sumZ monthly)) as [R1 R2].
  split; [congruence|]. split; [by apply R2|].
  intros Hsum _.
  rewrite Hsum, Hlen in B2. rewrite Hsum in B1.
  assert (2 * sumZ monthly <= 2 * t + count_pos monthly) as Z1.
  { rewrite Zle_Qle. rewrite inject_Z_plus, !inject_Z_mult.
    change (inject_Z 2) with 2%Q. lra. }
  assert (2 * t <= 2 * sumZ monthly + 12) as Z2.
  { rewrite Zle_Qle. rewrite inject_Z_plus, !inject_Z_mult.
    change (inject_Z 2) with 2%Q.
    change (inject_Z (Z.of_nat 12)) with (inject_Z 12) in B2. lra. }
  pose proof (count_pos_nonneg monthly) as Z3.
  set (diff := t - sumZ monthly).
  destruct (Z.le_gt_cases 0 diff) as [Hd|Hd].
  - rewrite redistribute_sum_pos; [lia|done|]. simpl. lia.
  - rewrite redistribute_sum_neg; [lia|done|lia| |simpl; lia].
    rewrite drop_0. lia.
Qed.

(** X7.  From twelve non-negative shares makeMonthlyTargets returns twelve
    counts, none of them negative: the remainder loop never takes a month
    below zero. *)
Theorem makeMonthlyTargets_counts (targetYearCount : Z) (shares : list Q) :
  length shares = 12%nat -> Forall (fun s => (0 <= s)%Q) shares ->
  length (makeMonthlyTargets targetYearCount shares) = 12%nat /\
  Forall (fun c => 0 <= c) (makeMonthlyTargets targetYearCount shares).
Proof.
  intros Hl Ha. destruct (makeMonthlyTargets_inv targetYearCount shares Hl Ha)
    as (H1 & H2 & _). done.
Qed.

Lemma makeMonthlyTargets_counts_witness :
  length (makeMonthlyTargets 5 (replicate 12 (1 # 12)%Q)) = 12%nat /\
  Forall (fun c => 0 <= c) (makeMonthlyTargets 5 (replicate 12 (1 # 12)%Q)).
Proof.
  apply makeMonthlyTargets_counts.
  - reflexivity.
  - repeat constructor; discriminate.
Defined.

End ShareFacts.

Module AssemblyFacts.
Import Calendar CalendarFacts DateString YmdFacts Forecast ForecastFacts
       TargetFacts MonthlyFacts HistoryFacts PlanFacts.
Import DateSpec ForecastSpec.
Import MonthLengthFacts ShareFacts.

(** How a returned plan was put together. *)
Lemma buildPlanFromHistory_assembly (fuel : nat) (h : list string) (baseYear : Z)
    (start : option string) (horizon : Z) (r : PlanResult) :
  buildPlanFromHistory fuel h baseYear start horizon = Returns r ->
  let byYear := splitHistoryByYear h baseYear MAX_YEARS_BACK in
  let ycs := calcYearlyCounts byYear in
  exists (st : YearlyCount) (endYmd : ymd) (d0 endDate : Z) (all : list ymd),
    find_year ycs baseYear = Some st /\ 0 < yc_count st /\
    targetYearCount r = decideTargetYearCount ycs baseYear /\
    monthlyCounts r =
      makeMonthlyTargets (targetYearCount r)
        (calcMonthlyWeights byYear baseYear (7 # 10) (3 # 10)) /\
    addDaysYmd (start_of baseYear start) horizon = Returns endYmd /\
    parseYmd (start_of baseYear start) = Some d0 /\
    parseYmd endYmd = Some endDate /\
    month_walk fuel (monthlyCounts r) endDate (YearFromDay d0)
               (MonthFromDay d0 + 1) = Returns all /\
    plannedDates r =
      sort_ymd (List.filter
                  (fun d => ymd_leb (start_of baseYear start) d && ymd_leb d endYmd)
                  all).
Proof.
  intros H byYear ycs. unfold buildPlanFromHistory in H.
  destruct h as [|s0 h0]; [done|].
  fold byYear in H. fold ycs in H.
  destruct ycs as [|y0 ys] eqn:Eycs; [done|].
  destruct (find_year (y0 :: ys) baseYear) as [st|] eqn:F; [|done].
  destruct (Z.leb_spec (yc_count st) 0) as [|Hpos]; [done|].
  change (match start with
          | Some s => default (Ymd (baseYear + 1) 1 1) (ISO_YMD s)
          | None => Ymd (baseYear + 1) 1 1
          end) with (start_of baseYear start) in H.
  destruct (addDaysYmd (start_of baseYear start) horizon) as [endYmd| |] eqn:EA;
    try done.
  rewrite bind_Returns in H.
  destruct (parseYmd (start_of baseYear start)) as [d0|] eqn:EP; [|done].
  destruct (parseYmd endYmd) as [endDate|] eqn:EE; [|done].
  destruct (month_walk _ _ _ _ _) as [all| |] eqn:E; try done.
  rewrite bind_Returns in H. injection H as <-.
  cbn [monthlyCounts plannedDates targetYearCount].
  exists st, endYmd, d0, endDate, all. done.
Qed.

Lemma buildPlanFromHistory_counts_aux (fuel : nat) (h : list string)
    (baseYear : Z) (start : option string) (horizon : Z) (r : PlanResult) :
  buildPlanFromHistory fuel h baseYear start horizon = Returns r ->
  0 < targetYearCount r /\
  length (monthlyCounts r) = 12%nat /\
  Forall (fun c => 0 <= c) (monthlyCounts r) /\
  sumZ (monthlyCounts r) = targetYearCount r.
Proof.
  intros H.
  destruct (buildPlanFromHistory_assembly _ _ _ _ _ _ H)
    as (st & endYmd & d0 & endDate & all & F & Hpos & HT & HM & _).
  pose proof (decideTargetYearCount_pos _ _ _ F Hpos) as HP. rewrite <- HT in HP.
  destruct (calcMonthlyWeights_inv
              (splitHistoryByYear h baseYear MAX_YEARS_BACK) baseYear
              (7 # 10) (3 # 10)) as (L & N & S); [discriminate..|].
  destruct (makeMonthlyTargets_inv (targetYearCount r) _ L N) as (L' & N' & S').
  rewrite HM. split; [done|]. split; [done|]. split; [done|].
  apply S'; [done|lia].
Qed.

(** X8.  In every plan buildPlanFromHistory returns, the yearly target is
    positive and monthlyCounts holds twelve non-negative counts that add up
    to it. *)
Theorem buildPlanFromHistory_counts (fuel : nat) (h : list string)
    (baseYear : Z) (start : option string) (horizon : Z) (r : PlanResult) :
  buildPlanFromHistory fuel h baseYear start horizon = Returns r ->
  0 < targetYearCount r /\
  length (monthlyCounts r) = 12%nat /\
  Forall (fun c => 0 <= c) (monthlyCounts r) /\
  sumZ (monthlyCounts r) = targetYearCount r.
Proof. apply buildPlanFromHistory_counts_aux. Qed.

Lemma buildPlanFromHistory_counts_witness :
  0 < targetYearCount plan_2024 /\
  length (monthlyCounts plan_2024) = 12%nat /\
  Forall (fun c => 0 <= c) (monthlyCounts plan_2024) /\
  sumZ (monthlyCounts plan_2024) = targetYearCount plan_2024.
Proof.
  apply (buildPlanFromHistory_counts 20 history_2024 2024
           (Some "2025-01-01"%string) 370 plan_2024).
  vm_compute. reflexivity.
Defined.

Lemma YearFromDay_unique (y d : Z) :
  DayFromYear y <= d < DayFromYear y + DaysInYear y -> YearFromDay d = y.
Proof.
  intros H. pose proof (YearFromDay_bounds d) as B.
  destruct (Z.lt_trichotomy (YearFromDay d) y) as [L|[E|G]]; [|done|].
  - pose proof (DayFromYear_lt _ _ L). lia.
  - pose proof (DayFromYear_lt _ _ G). lia.
Qed.

Lemma parseYmd_year (s : ymd) (d : Z) : parseYmd s = Some d -> YearFromDay d = year s.
Proof.
  unfold parseYmd. intros H.
  destruct (Z.leb_spec 1 (month s)); [|done].
  destruct (Z.leb_spec (month s) 12); [|done].
  destruct (Z.leb_spec 1 (day s)); [|done].
  destruct (Z.leb_spec (day s) 31); [|done].
  simpl in H. injection H as <-.
  apply YearFromDay_unique. rewrite MakeDay_in_range by lia.
  unfold DaysInYear, days_before_month.
  destruct (InLeapYear (year s)); split_eqb; lia.
Qed.

Lemma month_walk_fields (monthlyCounts : list Z) (endDate : Z) (fuel : nat) :
  forall y m l, 1 <= m <= 12 ->
    month_walk fuel monthlyCounts endDate y m = Returns l ->
    Forall (fun d => 12 * y + m <= 12 * year d + month d /\ 1 <= month d <= 12 /\
                     1 <= day d <= daysInMonth (year d) (month d)) l.
Proof.
  induction fuel as [|fuel IH]; intros y m l Hm H; [done|].
  cbn [month_walk] in H.
  destruct (endDate <? DateLocal y (m - 1) 1); [injection H as <-; constructor|].
  set (here := generateDatesForMonth y m _) in H.
  assert (Forall (fun d => 12 * y + m <= 12 * year d + month d /\
                           1 <= month d <= 12 /\
                           1 <= day d <= daysInMonth (year d) (month d)) here) as Hh.
  { eapply Forall_impl; [apply generateDatesForMonth_fields|].
    intros d (E1 & E2 & Hd). cbv beta. rewrite E1, E2. lia. }
  destruct (Z.eqb_spec m 12) as [->|Hne].
  - destruct (month_walk fuel monthlyCounts endDate (y + 1) 1) as [rest| |] eqn:E;
      try done.
    rewrite bind_Returns in H. injection H as <-.
    apply Forall_app. split; [done|].
    eapply Forall_impl; [apply (IH (y + 1) 1 rest ltac:(lia) E)|]. simpl. intros d. lia.
  - destruct (month_walk fuel monthlyCounts endDate y (m + 1)) as [rest| |] eqn:E;
      try done.
    rewrite bind_Returns in H. injection H as <-.
    apply Forall_app. split; [done|].
    eapply Forall_impl; [apply (IH y (m + 1) rest ltac:(lia) E)|]. simpl. intros d. lia.
Qed.

(** X9.  Every planned date of a returned plan lies between the start
    date and the date horizonDays later, both included, and is a date of
    the calendar (for a start in the year 100 or later). *)
Theorem plannedDates_in_window (fuel : nat) (h : list string) (baseYear : Z)
    (start : option string) (horizon : Z) (r : PlanResult) :
  buildPlanFromHistory fuel h baseYear start horizon = Returns r ->
  100 <= year (start_of baseYear start) ->
  exists endYmd,
    addDaysYmd (start_of baseYear start) horizon = Returns endYmd /\
    Forall (fun d => ymd_le (start_of baseYear start) d /\ ymd_le d endYmd /\
                     real_date d) (plannedDates r).
Proof.
  intros H Hy.
  destruct (buildPlanFromHistory_assembly _ _ _ _ _ _ H)
    as (st & endYmd & d0 & endDate & all & _ & _ & _ & _ & EA & EP & _ & EW & ->).
  exists endYmd. split; [done|].
  pose proof (MonthFromDay_range d0) as HM.
  pose proof (month_walk_fields _ _ _ (YearFromDay d0) (MonthFromDay d0 + 1) all ltac:(lia) EW) as HF.
  rewrite (parseYmd_year _ _ EP) in HF.
  apply Forall_forall. intros d Hd.
  unfold sort_ymd in Hd. rewrite merge_sort_Permutation in Hd.
  apply list_elem_of_In, filter_In in Hd as [Hin Hb].
  apply andb_true_iff in Hb as [B1 B2].
  split; [exact B1|]. split; [exact B2|].
  rewrite Forall_forall in HF.
  destruct (HF d (proj2 (list_elem_of_In _ _) Hin)) as (Y & M & D).
  rewrite daysInMonth_exact in D by done.
  destruct (Z.leb_spec 0 (year d)); [|lia].
  destruct (Z.leb_spec (year d) 99); [lia|].
  simpl in D. split; done.
Qed.

Lemma plannedDates_in_window_witness :
  exists endYmd,
    addDaysYmd (start_of 2024 (Some "2025-01-01"%string)) 370 = Returns endYmd /\
    Forall (fun d => ymd_le (start_of 2024 (Some "2025-01-01"%string)) d /\
                     ymd_le d endYmd /\ real_date d) (plannedDates plan_2024).
Proof.
  apply (plannedDates_in_window 20 history_2024 2024
           (Some "2025-01-01"%string) 370 plan_2024).
  - vm_compute. reflexivity.
  - vm_compute. discriminate.
Defined.

End AssemblyFacts.

Module PatternFacts.
Import Calendar CalendarFacts DateString YmdFacts Forecast ForecastFacts
       TargetFacts MonthlyFacts HistoryFacts PlanFacts.
Import DateSpec ForecastSpec PlanSpec.
Import MonthLengthFacts ShareFacts AssemblyFacts.










End PatternFacts.

Module DateArithFacts.
Import Calendar CalendarFacts DateString YmdFacts.
Import DateSpec.



End DateArithFacts.

Module MaxFacts.
Import DateString YmdFacts.
Import MaxSpec.

Lemma maxYmd_ub (a b : ymd) : ymd_le a (maxYmd a b) /\ ymd_le b (maxYmd a b).
Proof.
  unfold maxYmd. destruct (ymd_leb b a) eqn:E.
  - split; [reflexivity|exact E].
  - split; [|reflexivity]. destruct (ymd_le_total a b) as [H|H]; [done|].
    unfold ymd_le in H. congruence.
Qed.

Lemma maxYmd_cases (a b : ymd) : maxYmd a b = a \/ maxYmd a b = b.
Proof. unfold maxYmd. destruct (ymd_leb b a); auto. Qed.

(** The running maximum of a list of dates. *)
Lemma max_fold (l : list ymd) (acc : option ymd) :
  match fold_left max_step l acc with
  | None => acc = None /\ l = []
  | Some b =>
      (acc = Some b \/ b ∈ l) /\
      (forall d, acc = Some d \/ d ∈ l -> ymd_le d b)
  end.
Proof.
  revert acc. induction l as [|x l IH]; intros acc.
  - cbn. destruct acc as [a|]; [|done]. split; [by left|].
    intros d [[= ->]|H]; [reflexivity|by apply elem_of_nil in H].
  - cbn [fold_left]. specialize (IH (max_step acc x)).
    destruct (fold_left max_step l (max_step acc x)) as [b|].
    + destruct IH as [Hin Hub]. split.
      * destruct Hin as [Hacc|Hin]; [|right; by right].
        destruct acc as [a|]; cbn in Hacc.
        -- injection Hacc as <-.
           destruct (maxYmd_cases a x) as [->| ->]; [by left|right; left].
        -- injection Hacc as <-. right. left.
      * intros d Hd.
        destruct acc as [a|]; cbn in Hub.
        -- pose proof (maxYmd_ub a x) as [U1 U2].
           destruct Hd as [[= ->]|Hd].
           ++ etrans; [exact U1|]. apply Hub. by left.
           ++ apply elem_of_cons in Hd as [->|Hd].
              ** etrans; [exact U2|]. apply Hub. by left.
              ** apply Hub. by right.
        -- destruct Hd as [Hd|Hd]; [done|].
           apply elem_of_cons in Hd as [->|Hd]; apply Hub; [by left|by right].
    + destruct IH as [IH _]. by destruct acc.
Qed.

End MaxFacts.

Module PhaseFacts.
Import Calendar CalendarFacts DateString YmdFacts Predict PredictFacts.
Import DateSpec PredictSpec.

Lemma predict_last_unfold (fuel : nat) (clock : Z) (tank : option TankType)
    (cd : option Z) (s : string) (today : ymd) :
  predictNextDatePhaseAligned fuel clock (opts_of tank cd s today) =
    match ISO_YMD s with
    | None => addDaysYmd today (cycle_of tank cd)
    | Some base =>
        next ← addDaysYmd base (cycle_of tank cd);
        skip_past fuel (cycle_of tank cd) today next
    end.
Proof.
  unfold predictNextDatePhaseAligned, cycle_of.
  cbn [opts_of historyDates lastDate Predict.today Predict.cycleDays
       Predict.tankType default from_option Datatypes.id mbind option_bind].
  by destruct (ISO_YMD s).
Qed.

(** X12.  Called with a last delivery date and no history,
    predictNextDatePhaseAligned never returns today or an earlier day,
    whatever the cycle; when the last delivery date is not of the shape
    YYYY-MM-DD it returns today plus the cycle instead. *)
Theorem predictNextDatePhaseAligned_after_today (fuel : nat) (clock : Z)
    (tank : option TankType) (cd : option Z) (s : string) (today : ymd) :
  (ISO_YMD s <> None ->
   forall r, predictNextDatePhaseAligned fuel clock (opts_of tank cd s today)
               = Returns r -> ymd_lt today r) /\
  (ISO_YMD s = None ->
   predictNextDatePhaseAligned fuel clock (opts_of tank cd s today)
     = addDaysYmd today (cycle_of tank cd)).
Proof.
  rewrite predict_last_unfold. split.
  - intros Hs r H. destruct (ISO_YMD s) as [base|]; [|done].
    destruct (addDaysYmd base (cycle_of tank cd)) as [n| |]; cbn in H; try done.
    by apply skip_past_result_gt in H.
  - intros ->. done.
Qed.

Lemma predictNextDatePhaseAligned_after_today_witness :
  ymd_lt (Ymd 2024 2 20) (Ymd 2024 3 26) /\
  predictNextDatePhaseAligned 5 0 (opts_of (Some TankB) None "10 Jan" (Ymd 2024 2 20))
    = addDaysYmd (Ymd 2024 2 20) (cycle_of (Some TankB) None).
Proof.
  split.
  - apply (proj1 (predictNextDatePhaseAligned_after_today 5 0 (Some TankA) None
                    "2024-01-10" (Ymd 2024 2 20))).
    + vm_compute. discriminate.
    + vm_compute. reflexivity.
  - apply (proj2 (predictNextDatePhaseAligned_after_today 5 0 (Some TankB) None
                    "10 Jan" (Ymd 2024 2 20))).
    vm_compute. reflexivity.
Defined.

Lemma skip_past_stuck (fuel : nat) (t n : Z) :
  n <= t -> skip_past fuel 0 (jstYmdFromDate t) (jstYmdFromDate n) = Diverges.
Proof.
  intros H. induction fuel as [|fuel IH]; [done|].
  cbn [skip_past]. rewrite jst_leb.
  destruct (Z.leb_spec n t); [|lia].
  rewrite addDaysYmd_jst, PlanFacts.bind_Returns, Z.add_0_r. exact IH.
Qed.

(** X13.  With cycleDays 0 and a last delivery that is not after today,
    predictNextDatePhaseAligned never returns: the loop
    [while (next <= today)] makes no progress. *)
Theorem predictNextDatePhaseAligned_zero_cycle (fuel : nat) (clock : Z)
    (tank : option TankType) (s : string) (last today : ymd) :
  ISO_YMD s = Some last -> real_date last -> real_date today ->
  ymd_le last today ->
  predictNextDatePhaseAligned fuel clock (opts_of tank (Some 0) s today) = Diverges.
Proof.
  intros Hs Hl Ht Hle. rewrite predict_last_unfold, Hs. cbn [cycle_of].
  rewrite (addDaysYmd_parsed last (day_number last) 0)
    by (by apply parseYmd_day_number).
  rewrite PlanFacts.bind_Returns, Z.add_0_r.
  rewrite (real_date_jst today Ht). apply skip_past_stuck.
  rewrite (real_date_jst last Hl), (real_date_jst today Ht) in Hle.
  unfold ymd_le in Hle. rewrite jst_leb in Hle. lia.
Qed.

Lemma predictNextDatePhaseAligned_zero_cycle_witness :
  predictNextDatePhaseAligned 100 0
    (opts_of None (Some 0) "2024-01-10" (Ymd 2024 2 20)) = Diverges.
Proof.
  apply (predictNextDatePhaseAligned_zero_cycle 100 0 None "2024-01-10"%string
           (Ymd 2024 1 10) (Ymd 2024 2 20)).
  - reflexivity.
  - vm_compute. repeat split; discriminate.
  - vm_compute. repeat split; discriminate.
  - reflexivity.
Defined.

End PhaseFacts.

Module OrderFacts.
Import Calendar CalendarFacts DateString YmdFacts Db MaxFacts.
Import DateSpec DbSpec MaxSpec.

Lemma elem_of_orders_of (orders : list Order) (cid : Z) (o : Order) :
  o ∈ orders_of orders cid <-> o ∈ orders /\ o_customerId o = cid.
Proof.
  unfold orders_of. rewrite !list_elem_of_In, filter_In, Z.eqb_eq. done.
Qed.

Lemma last_fold_max (l : list Order) (acc : option ymd) :
  fold_left last_step l acc =
    fold_left max_step (omap (fun o => ISO_YMD (date o)) l) acc.
Proof.
  revert acc. induction l as [|o l IH]; intros acc; [done|].
  cbn [fold_left omap list_omap]. rewrite IH. unfold last_step.
  destruct (ISO_YMD (date o)); [|done]. by destruct acc.
Qed.

(** X14.  getLastDeliveredYmd returns the latest well-formed delivery date
    of the customer: a date of one of the customer's orders that no other
    of them exceeds; it returns null exactly when the customer has no order
    with a well-formed date. *)
Theorem getLastDeliveredYmd_latest (orders : list Order) (cid : Z) :
  match getLastDeliveredYmd orders cid with
  | None =>
      forall o, o ∈ orders -> o_customerId o = cid -> ISO_YMD (date o) = None
  | Some last =>
      (exists o, o ∈ orders /\ o_customerId o = cid /\
                 ISO_YMD (date o) = Some last) /\
      (forall o d, o ∈ orders -> o_customerId o = cid ->
                   ISO_YMD (date o) = Some d -> ymd_le d last)
  end.
Proof.
  unfold getLastDeliveredYmd.
  change (fold_left _ (orders_of orders cid) None)
    with (fold_left last_step (orders_of orders cid) None).
  rewrite last_fold_max.
  pose proof (max_fold (omap (fun o => ISO_YMD (date o)) (orders_of orders cid)) None)
    as HM.
  destruct (fold_left max_step _ None) as [last|].
  - destruct HM as [[?|Hin] Hub]; [done|]. split.
    + apply list_elem_of_omap in Hin as (o & Ho & E).
      apply elem_of_orders_of in Ho as [Ho Hc]. eauto.
    + intros o d Ho Hc E. apply Hub. right. apply list_elem_of_omap.
      exists o. split; [|done]. by apply elem_of_orders_of.
  - destruct HM as [_ HM]. intros o Ho Hc.
    destruct (ISO_YMD (date o)) as [d|] eqn:E; [|done].
    assert (d ∈ omap (fun o => ISO_YMD (date o)) (orders_of orders cid)) as Hin.
    { apply list_elem_of_omap. exists o. split; [|done]. by apply elem_of_orders_of. }
    rewrite HM in Hin. by apply elem_of_nil in Hin.
Qed.

#[export] Instance string_le_total : Total string_le.
Proof. intros a b. unfold string_le. apply String.leb_total. Qed.

(** X15.  getHistoryDatesForCustomer returns, in ascending string order,
    the dates of the customer's orders that are well-formed and whose year
    lies between baseYear - maxYearsBack and baseYear; nothing else, and a
    date as often as it was delivered. *)
Theorem getHistoryDatesForCustomer_window (orders : list Order)
    (cid baseYear back : Z) :
  let hs := getHistoryDatesForCustomer orders cid baseYear back in
  Sorted string_le hs /\
  hs ≡ₚ List.filter (fun s => match ISO_YMD s with
                              | Some d => (baseYear - back <=? year d) && (year d <=? baseYear)
                              | None => false
                              end) (date <$> orders_of orders cid) /\
  (forall s, s ∈ hs <->
     exists o d, o ∈ orders /\ o_customerId o = cid /\ date o = s /\
                 ISO_YMD s = Some d /\ baseYear - back <= year d <= baseYear).
Proof.
  intros hs. subst hs. unfold getHistoryDatesForCustomer.
  split; [apply (Sorted_merge_sort string_le)|].
  assert (List.filter
            (fun s => match ISO_YMD s with
                      | Some d => negb (baseYear <? year d) && negb (year d <? baseYear - back)
                      | None => false
                      end) (date <$> orders_of orders cid)
          = List.filter
              (fun s => match ISO_YMD s with
                        | Some d => (baseYear - back <=? year d) && (year d <=? baseYear)
                        | None => false
                        end) (date <$> orders_of orders cid)) as E.
  { apply filter_ext. intros s. destruct (ISO_YMD s) as [d|]; [|done].
    destruct (Z.ltb_spec baseYear (year d)), (Z.ltb_spec (year d) (baseYear - back)),
      (Z.leb_spec (baseYear - back) (year d)), (Z.leb_spec (year d) baseYear);
      simpl; try done; lia. }
  rewrite E. split; [apply merge_sort_Permutation|].
  intros s. rewrite merge_sort_Permutation, list_elem_of_In, filter_In,
    <- list_elem_of_In, list_elem_of_fmap.
  split.
  - intros [(o & -> & Ho) Hb]. apply elem_of_orders_of in Ho as [Ho Hc].
    destruct (ISO_YMD (date o)) as [d|] eqn:Ed; [|done].
    exists o, d. repeat split; try done; lia.
  - intros (o & d & Ho & Hc & <- & Ed & Hy). split.
    + exists o. split; [done|]. by apply elem_of_orders_of.
    + rewrite Ed. lia.
Qed.

End OrderFacts.

Module PurgeFacts.
Import Calendar CalendarFacts DateString YmdFacts Db DbAdmin.
Import DateSpec DbSpec DbAdminSpec.

Lemma purge_unfold (clock cid : Z) (scope : option Scope) (fromYmd : option ymd)
    (plans : gset PlanRecord) :
  exists targets : gset PlanRecord,
    purgePlansForCustomer clock cid scope fromYmd plans
      = (plans ∖ targets, Z.of_nat (size targets)) /\
    forall p, p ∈ targets <-> p ∈ plans /\ purge_target clock cid scope fromYmd p.
Proof.
  unfold purgePlansForCustomer, purge_target.
  destruct (default ScopeAll scope).
  - eexists. split; [done|]. intros p. rewrite elem_of_filter. tauto.
  - eexists. split; [done|]. intros p. rewrite !elem_of_filter. tauto.
Qed.

Lemma purgePlansForCustomer_effect_aux (clock cid : Z) (scope : option Scope)
    (fromYmd : option ymd) (plans : gset PlanRecord) :
  let r := purgePlansForCustomer clock cid scope fromYmd plans in
  (forall p, p ∈ r.1 <-> p ∈ plans /\ ~ purge_target clock cid scope fromYmd p) /\
  Z.of_nat (size r.1) + r.2 = Z.of_nat (size plans) /\
  purgePlansForCustomer clock cid scope fromYmd r.1 = (r.1, 0).
Proof.
  destruct (purge_unfold clock cid scope fromYmd plans) as (T & -> & HT).
  cbn [fst snd].
  assert (forall p, p ∈ plans ∖ T <->
                    p ∈ plans /\ ~ purge_target clock cid scope fromYmd p) as HD.
  { intros p. rewrite elem_of_difference, HT. tauto. }
  split; [exact HD|]. split.
  - assert (T ⊆ plans) as Hsub by (intros p Hp; by apply HT in Hp as [? _]).
    pose proof (size_difference plans T Hsub) as HS.
    pose proof (subseteq_size T plans Hsub). lia.
  - destruct (purge_unfold clock cid scope fromYmd (plans ∖ T)) as (T' & -> & HT').
    assert (T' = ∅) as ->.
    { apply set_eq. intros p. rewrite HT', HD, elem_of_empty. tauto. }
    f_equal. apply set_eq. intros p. rewrite elem_of_difference, elem_of_empty. tauto.
Qed.

(** X16.  purgePlansForCustomer removes from the plan table exactly the
    entries of the customer (with scope 'future': those dated from the base
    date on), leaves every other entry in place, resolves to the number of
    entries removed, and finds nothing left to remove when run again. *)
Theorem purgePlansForCustomer_effect (clock cid : Z) (scope : option Scope)
    (fromYmd : option ymd) (plans : gset PlanRecord) :
  let r := purgePlansForCustomer clock cid scope fromYmd plans in
  (forall p, p ∈ r.1 <-> p ∈ plans /\ ~ purge_target clock cid scope fromYmd p) /\
  Z.of_nat (size r.1) + r.2 = Z.of_nat (size plans) /\
  purgePlansForCustomer clock cid scope fromYmd r.1 = (r.1, 0).
Proof. apply purgePlansForCustomer_effect_aux. Qed.

End PurgeFacts.

Module PlanIdFacts.
Import DateString DbAdmin.

Lemma ISO_YMD_length (s : string) (d : ymd) :
  ISO_YMD s = Some d -> String.length s = 10%nat.
Proof.
  unfold ISO_YMD. intros H.
  repeat match type of H with
         | None = Some _ => discriminate H
         | context [match ?x with _ => _ end] => is_var x; destruct x
         end.
  reflexivity.
Qed.

Lemma append_same_length (a b c d : string) :
  String.length a = String.length b -> a +:+ c = b +:+ d -> a = b /\ c = d.
Proof.
  revert b. induction a as [|x a IH]; intros [|y b] Hl H; try done.
  cbn in Hl, H. injection H as -> H. injection Hl as Hl.
  destruct (IH b Hl H) as [-> ->]. done.
Qed.

(** X17.  Plan ids are unambiguous: two ids built from well-formed dates
    are equal only when both the date and the customer are the same, so
    writing one plan never overwrites another. *)
Theorem planId_injective (s1 s2 : string) (c1 c2 : Z) (d1 d2 : ymd) :
  ISO_YMD s1 = Some d1 -> ISO_YMD s2 = Some d2 ->
  planId s1 c1 = planId s2 c2 -> s1 = s2 /\ c1 = c2.
Proof.
  intros H1 H2 E. unfold planId in E.
  apply append_same_length in E as [-> E].
  - split; [done|]. cbn in E. injection E as E. by apply (inj pretty).
  - by rewrite (ISO_YMD_length _ _ H1), (ISO_YMD_length _ _ H2).
Qed.

Lemma planId_injective_witness :
  "2025-03-01"%string = "2025-03-01"%string /\ 12 = 12.
Proof.
  apply (planId_injective "2025-03-01" "2025-03-01" 12 12
           (Ymd 2025 3 1) (Ymd 2025 3 1)); reflexivity.
Defined.

End PlanIdFacts.

Module StringFacts.
Import Calendar CalendarFacts DateString YmdFacts.
Import DateSpec.

Lemma digit_digit_char (n : Z) : digit (digit_char n) = Some (n mod 10).
Proof.
  unfold digit_char.
  assert (0 <= n mod 10 < 10) as H by (apply Z.mod_pos_bound; lia).
  assert (n mod 10 = 0 \/ n mod 10 = 1 \/ n mod 10 = 2 \/ n mod 10 = 3 \/
          n mod 10 = 4 \/ n mod 10 = 5 \/ n mod 10 = 6 \/ n mod 10 = 7 \/
          n mod 10 = 8 \/ n mod 10 = 9) as C by lia.
  destruct C as [E|[E|[E|[E|[E|[E|[E|[E|[E|E]]]]]]]]]; rewrite E; reflexivity.
Qed.

Lemma ISO_YMD_to_string (d : ymd) :
  0 <= year d <= 9999 -> 0 <= month d <= 99 -> 0 <= day d <= 99 ->
  ISO_YMD (to_string d) = Some d.
Proof.
  intros Hy Hm Hd. destruct d as [y m dd]. cbn [year month day] in *.
  cbv beta iota delta [to_string pad2 String.append year month day ISO_YMD].
  rewrite !digit_digit_char. cbn [mbind option_bind].
  f_equal. f_equal; Z.div_mod_to_equations; lia.
Qed.

Lemma jstYmdFromDate_round_trip_aux (d : Z) :
  four_digit_year d ->
  ISO_YMD (to_string (jstYmdFromDate d)) = Some (jstYmdFromDate d) /\
  parseYmd (jstYmdFromDate d) = Some d.
Proof.
  intros Hy. split; [|apply parseYmd_jst].
  pose proof (jst_fields d) as [M D].
  pose proof (days_in_month_range (InLeapYear (year (jstYmdFromDate d)))
                (month (jstYmdFromDate d) - 1)).
  apply ISO_YMD_to_string; [exact Hy|lia|lia].
Qed.

(** X18.  The date string cut from toISOString by jstYmdFromDate has the
    shape YYYY-MM-DD for every day of the years 0000..9999, and its three
    fields read back as the date; parsing it as a Date gives the day
    again. *)
Theorem jstYmdFromDate_round_trip (d : Z) :
  four_digit_year d ->
  ISO_YMD (to_string (jstYmdFromDate d)) = Some (jstYmdFromDate d) /\
  parseYmd (jstYmdFromDate d) = Some d.
Proof. apply jstYmdFromDate_round_trip_aux. Qed.

Lemma jstYmdFromDate_round_trip_witness :
  ISO_YMD (to_string (jstYmdFromDate 20139)) = Some (jstYmdFromDate 20139) /\
  parseYmd (jstYmdFromDate 20139) = Some 20139.
Proof.
  apply jstYmdFromDate_round_trip. vm_compute. split; discriminate.
Defined.

End StringFacts.

Module YearsFacts.
Import Calendar CalendarFacts DateString YmdFacts PredictFacts DbAdmin.
Import DateSpec DbAdminSpec.
Import AssemblyFacts.




End YearsFacts.

Module HorizonFacts.
Import Calendar CalendarFacts DateString YmdFacts PredictFacts HistoryFacts
       PlanFacts Db DbFacts PassFacts DbAdmin HistoryPage.
Import DateSpec ForecastSpec DbSpec DbPassSpec DbAdminSpec HistoryPageSpec.
Import StringFacts AssemblyFacts PurgeFacts.

Lemma horizon_dates_bounded (fuel : nat) (cycle : Z) (hEnd next : ymd)
    (ds : list ymd) :
  horizon_dates fuel cycle hEnd next = Returns ds ->
  Forall (fun d => ymd_le d hEnd) ds.
Proof.
  revert next ds. induction fuel as [|fuel IH]; intros next ds H; [done|].
  cbn [horizon_dates] in H. destruct (ymd_leb next hEnd) eqn:E.
  - destruct (addDaysYmd next cycle) as [next'| |]; [|done..].
    rewrite bind_Returns in H.
    destruct (horizon_dates fuel cycle hEnd next') as [rest| |] eqn:ER; [|done..].
    rewrite bind_Returns in H. injection H as <-. constructor; [exact E|].
    by apply (IH next').
  - injection H as <-. constructor.
Qed.

Lemma start_of_today (t baseYear : Z) :
  four_digit_year t ->
  start_of baseYear (Some (to_string (jstYmdFromDate t))) = jstYmdFromDate t.
Proof.
  intros H. unfold start_of.
  by rewrite (proj1 (jstYmdFromDate_round_trip_aux t H)).
Qed.

Lemma base_year_dates_has (baseYear : Z) (hist : list string) :
  List.filter (in_base_year baseYear) hist <> [] -> has_base_year hist baseYear.
Proof.
  intros H. destruct (List.filter _ hist) as [|s l] eqn:E; [done|].
  assert (In s (List.filter (in_base_year baseYear) hist)) as Hin
    by (rewrite E; by left).
  apply filter_In in Hin as [Hin Hb]. unfold in_base_year in Hb.
  destruct (ISO_YMD s) as [d|] eqn:Ed; [|done].
  exists s, d. split; [by apply list_elem_of_In|]. split; [done|]. lia.
Qed.

(** X20.  In a pass over dates of the years 0000..9999, the forecast made
    for a customer with a delivery in the base year always returns a plan
    (given enough fuel): none of the errors of buildPlanFromHistory is
    reached there, so the pass does not fall back from the forecast to the
    fixed cycle. *)
Theorem forecast_returns_in_pass (clock : Z) (opts : option Options)
    (orders : list Order) (cid : Z) :
  let hDays := default 370 (opts ≫= horizonDays) in
  let baseYear := year (jstYmdFromDate clock) - 1 in
  let historyDates := getHistoryDatesForCustomer orders cid baseYear
                        (default 3 (opts ≫= maxYearsBack)) in
  four_digit_year clock -> four_digit_year (clock + hDays) ->
  base_year_dates clock opts orders cid <> [] ->
  exists fuel0, forall fuel, (fuel0 <= fuel)%nat ->
    exists r, Forecast.buildPlanFromHistory fuel historyDates baseYear
                (Some (to_string (jstYmdFromDate clock))) hDays = Returns r.
Proof.
  intros hDays baseYear historyDates H1 H2 Hb.
  apply buildPlanFromHistory_returns.
  - by apply base_year_dates_has.
  - split.
    + unfold start_given.
      rewrite (proj1 (jstYmdFromDate_round_trip_aux clock H1)).
      intros E. exfalso. apply bool_decide_eq_false in E. apply E. eauto.
    + rewrite start_of_today, parseYmd_jst by done. exact H2.
Qed.

Lemma forecast_returns_in_pass_witness :
  exists fuel0, forall fuel, (fuel0 <= fuel)%nat ->
    exists r, Forecast.buildPlanFromHistory fuel
                (getHistoryDatesForCustomer sample_orders 1
                   (year (jstYmdFromDate sample_clock) - 1)
                   (default 3 (sample_opts ≫= maxYearsBack)))
                (year (jstYmdFromDate sample_clock) - 1)
                (Some (to_string (jstYmdFromDate sample_clock)))
                (default 370 (sample_opts ≫= horizonDays)) = Returns r.
Proof.
  apply (forecast_returns_in_pass sample_clock sample_opts sample_orders 1).
  - vm_compute. split; discriminate.
  - vm_compute. split; discriminate.
  - vm_compute. discriminate.
Defined.

Section Bounds.
Variable fuel : nat.
Variables hDays fbCycle maxBack : Z.
Variable t : Z.
Variable orders : list Order.
Hypothesis four : four_digit_year t.

Local Abbreviation today := (jstYmdFromDate t).
Local Abbreviation horizonEnd := (jstYmdFromDate (t + hDays)).
Local Abbreviation baseYear := (year (jstYmdFromDate t) - 1).

Lemma fallback_additions (c : Customer) (cid : Z) (s s' : gset PlanRecord) :
  fallback_branch fuel fbCycle today horizonEnd orders c cid s = Returns s' ->
  forall p, p ∈ s' ->
    p ∈ s \/ (customerId p = cid /\ ymd_le today (dateISO p) /\
              ymd_le (dateISO p) horizonEnd /\ has_delivery orders cid).
Proof.
  unfold fallback_branch. intros H p Hp.
  destruct (getLastDeliveredYmd orders cid) as [last|] eqn:EL.
  2:{ injection H as <-. apply elem_of_deleteAll in Hp as [_ Hp]. by left. }
  set (cycle := cycleDaysFromTank (tankType c) (Some fbCycle)) in *.
  destruct (addDaysYmd last cycle) as [next0| |] eqn:E0; [|done..].
  destruct (addDaysYmd_image _ _ _ E0) as [n0 ->].
  rewrite bind_Returns in H.
  destruct (Predict.skip_past fuel cycle today (jstYmdFromDate n0))
    as [next| |] eqn:E1; [|done..].
  destruct (skip_past_jst_image _ _ _ _ _ E1) as [n ->].
  pose proof (skip_past_result_gt _ _ _ _ _ E1) as Hgt.
  unfold ymd_lt in Hgt. rewrite jst_ltb in Hgt. apply Z.ltb_lt in Hgt.
  rewrite bind_Returns, fill_horizon_dates in H.
  destruct (horizon_dates fuel cycle horizonEnd (jstYmdFromDate n))
    as [ds| |] eqn:E2; [|done..].
  rewrite bind_Returns in H. injection H as <-.
  pose proof (horizon_dates_future _ _ _ _ _ _ Hgt E2) as Hlo.
  pose proof (horizon_dates_bounded _ _ _ _ _ E2) as Hhi.
  rewrite Forall_forall in Hlo, Hhi.
  apply elem_of_add_dates in Hp as [[Hc Hd]|Hp].
  - right. split; [done|]. split; [by apply ymd_lt_le, Hlo|].
    split; [by apply Hhi|]. unfold has_delivery. rewrite EL. eauto.
  - left. by apply elem_of_deleteFuture in Hp as [_ Hp].
Qed.

Lemma reconcile_additions (c : Customer) (s s' : gset PlanRecord) :
  reconcile_customer fuel hDays fbCycle maxBack today horizonEnd baseYear
    orders c s = Returns s' ->
  forall p, p ∈ s' ->
    p ∈ s \/ (id c = Some (customerId p) /\ ymd_le today (dateISO p) /\
              ymd_le (dateISO p) horizonEnd /\ has_delivery orders (customerId p)).
Proof.
  unfold reconcile_customer. intros H p Hp.
  destruct (id c) as [cid|] eqn:Eid; [|injection H as <-; by left].
  assert (forall s0 : gset PlanRecord,
            fallback_branch fuel fbCycle today horizonEnd orders c cid s0
              = Returns s' ->
            p ∈ s0 \/ (customerId p = cid /\ ymd_le today (dateISO p) /\
                        ymd_le (dateISO p) horizonEnd /\ has_delivery orders cid))
    as HF by (intros s0 H0; exact (fallback_additions c cid s0 s' H0 p Hp)).
  assert (forall s0 : gset PlanRecord,
            (p ∈ s0 \/ (customerId p = cid /\ ymd_le today (dateISO p) /\
                        ymd_le (dateISO p) horizonEnd /\ has_delivery orders cid)) ->
            (p ∈ s0 \/ (Some cid = Some (customerId p) /\ ymd_le today (dateISO p) /\
                        ymd_le (dateISO p) horizonEnd /\
                        has_delivery orders (customerId p)))) as Conv.
  { intros s0 [?|(<- & ? & ? & ?)]; [by left|right; done]. }
  destruct (List.filter _ _) as [|b bs] eqn:EB.
  { apply Conv. by apply HF. }
  assert (has_delivery orders cid) as Hdel.
  { destruct (getLastDeliveredYmd orders cid) eqn:EL;
      [unfold has_delivery; rewrite EL; eauto|].
    rewrite no_delivery_no_history in EB; [done|].
    unfold has_delivery. rewrite EL. by intros [x Hx]. }
  destruct (Forecast.buildPlanFromHistory _ _ _ _ _) as [r|msg|] eqn:EP; [| |done].
  - injection H as <-.
    apply elem_of_upsert_fold in Hp as [(Hc & Hd & Hle)|Hp].
    2:{ left. by apply elem_of_deleteFuture in Hp as [_ Hp]. }
    right. split; [by rewrite Hc|]. split; [done|]. split; [|by rewrite Hc].
    destruct (buildPlanFromHistory_assembly _ _ _ _ _ _ EP)
      as (st & endYmd & d0 & endDate & all & _ & _ & _ & _ & EA & _ & _ & _ & EPl).
    rewrite start_of_today in EA, EPl by done.
    rewrite addDaysYmd_jst in EA. injection EA as <-.
    rewrite EPl in Hd. unfold sort_ymd in Hd.
    rewrite merge_sort_Permutation in Hd.
    apply list_elem_of_In, filter_In in Hd as [_ Hb].
    by apply andb_true_iff in Hb as [_ Hb].
  - destruct (HF _ H) as [Hs|Hr]; [|apply (Conv s); by right].
    left. by apply elem_of_deleteFuture in Hs as [_ Hs].
Qed.

Lemma for_customers_additions (customers : list Customer) (s s' : gset PlanRecord) :
  for_customers fuel hDays fbCycle maxBack today horizonEnd baseYear orders
    customers s = Returns s' ->
  forall p, p ∈ s' -> p ∈ s \/ planned_for today horizonEnd orders customers p.
Proof.
  revert s. induction customers as [|c cs IH]; intros s H p Hp; cbn in H.
  - injection H as <-. by left.
  - destruct (reconcile_customer _ _ _ _ _ _ _ _ c s) as [s1| |] eqn:E1; [|done..].
    rewrite bind_Returns in H.
    destruct (IH s1 H p Hp) as [Hs1|(A & B & C & c' & Hc' & Hid)].
    + destruct (reconcile_additions c s s1 E1 p Hs1) as [?|(Hid & A & B & C)];
        [by left|right].
      split; [done|]. split; [done|]. split; [done|]. exists c. split; [left|done].
    + right. split; [done|]. split; [done|]. split; [done|].
      exists c'. split; [by right|done].
Qed.

Lemma for_customers_app (l1 l2 : list Customer) (s : gset PlanRecord) :
  for_customers fuel hDays fbCycle maxBack today horizonEnd baseYear orders
    (l1 ++ l2) s =
  (s1 ← for_customers fuel hDays fbCycle maxBack today horizonEnd baseYear orders
          l1 s;
   for_customers fuel hDays fbCycle maxBack today horizonEnd baseYear orders l2 s1).
Proof.
  revert s. induction l1 as [|c l1 IH]; intros s; [done|].
  cbn [app for_customers].
  destruct (reconcile_customer _ _ _ _ _ _ _ _ c s) as [s1| |]; [|done..].
  rewrite !bind_Returns. apply IH.
Qed.
End Bounds.

Lemma pass_additions (fuel : nat) (clock : Z) (opts : option Options)
    (customers : list Customer) (orders : list Order)
    (plans plans' : gset PlanRecord) :
  four_digit_year clock ->
  buildMonthlyPlanByThreshold fuel clock opts customers orders plans
    = Returns plans' ->
  forall p, p ∈ plans' ->
    p ∈ plans \/
    planned_for (jstYmdFromDate clock)
      (jstYmdFromDate (clock + default 370 (opts ≫= horizonDays)))
      orders customers p.
Proof.
  intros H4 H. unfold buildMonthlyPlanByThreshold in H.
  rewrite addDaysYmd_jst, bind_Returns in H.
  exact (for_customers_additions _ _ _ _ _ _ H4 _ _ _ H).
Qed.

(** X21.  Whatever buildMonthlyPlanByThreshold adds to the plan table is
    dated between today and the end of the horizon, both included, and
    belongs to a customer of the customer table who has a delivery on
    record (clock in the years 0000..9999). *)
Theorem buildMonthlyPlanByThreshold_additions (fuel : nat) (clock : Z)
    (opts : option Options) (customers : list Customer) (orders : list Order)
    (plans plans' : gset PlanRecord) :
  four_digit_year clock ->
  buildMonthlyPlanByThreshold fuel clock opts customers orders plans
    = Returns plans' ->
  forall p, p ∈ plans' ->
    p ∈ plans \/
    planned_for (jstYmdFromDate clock)
      (jstYmdFromDate (clock + default 370 (opts ≫= horizonDays)))
      orders customers p.
Proof. apply pass_additions. Qed.

Lemma buildMonthlyPlanByThreshold_additions_witness :
  mkPlan (Ymd 2025 3 31) 2 ∈ sample_plans \/
  planned_for (jstYmdFromDate sample_clock)
    (jstYmdFromDate (sample_clock + default 370 (sample_opts ≫= horizonDays)))
    sample_orders sample_customers (mkPlan (Ymd 2025 3 31) 2).
Proof.
  apply (buildMonthlyPlanByThreshold_additions 40 sample_clock sample_opts
           sample_customers sample_orders sample_plans sample_after).
  - vm_compute. split; discriminate.
  - apply PassTheorems.returns_by_elements. vm_compute. reflexivity.
  - unfold sample_after. rewrite elem_of_list_to_set. do 2 right. left.
Defined.

(** X22.  With fallbackCycleDays 0, the pass never returns once it reaches
    a customer without tank type and without a delivery in the base year
    whose last delivery is not after today: the loop
    [while (next <= today)] makes no progress. *)
Theorem buildMonthlyPlanByThreshold_zero_cycle (fuel : nat) (clock : Z)
    (opts : option Options) (pre rest : list Customer) (c : Customer)
    (orders : list Order) (plans plans1 : gset PlanRecord) (cid : Z)
    (last : ymd) :
  opts ≫= fallbackCycleDays = Some 0 ->
  buildMonthlyPlanByThreshold fuel clock opts pre orders plans = Returns plans1 ->
  id c = Some cid -> tankType c = None ->
  base_year_dates clock opts orders cid = [] ->
  getLastDeliveredYmd orders cid = Some last -> real_date last ->
  ymd_le last (jstYmdFromDate clock) ->
  buildMonthlyPlanByThreshold fuel clock opts (pre ++ c :: rest) orders plans
    = Diverges.
Proof.
  intros Hz Hpre Hid Htank Hb HL Hreal Hle.
  unfold buildMonthlyPlanByThreshold in *.
  rewrite addDaysYmd_jst, bind_Returns in *.
  rewrite for_customers_app, Hpre, bind_Returns.
  cbn [for_customers]. unfold reconcile_customer at 1. rewrite Hid.
  unfold base_year_dates in Hb. rewrite Hb.
  unfold fallback_branch. rewrite HL, Htank, Hz.
  cbn [default from_option Datatypes.id cycleDaysFromTank Predict.cycleDaysFromTank].
  rewrite (addDaysYmd_parsed last (day_number last) 0)
    by (by apply parseYmd_day_number).
  rewrite bind_Returns, Z.add_0_r.
  rewrite (PhaseFacts.skip_past_stuck fuel clock (day_number last)); [done|].
  rewrite (real_date_jst last Hreal) in Hle.
  unfold ymd_le in Hle. rewrite jst_leb in Hle. lia.
Qed.

Lemma buildMonthlyPlanByThreshold_zero_cycle_witness :
  buildMonthlyPlanByThreshold 100 sample_clock zero_cycle_opts
    ([] ++ customer_5 :: []) orders_5 ∅ = Diverges.
Proof.
  apply (buildMonthlyPlanByThreshold_zero_cycle 100 sample_clock zero_cycle_opts
           [] [] customer_5 orders_5 ∅ ∅ 5 (Ymd 2022 3 5)).
  - reflexivity.
  - reflexivity.
  - reflexivity.
  - reflexivity.
  - reflexivity.
  - reflexivity.
  - vm_compute. repeat split; discriminate.
  - reflexivity.
Defined.

Lemma no_orders_no_delivery (orders : list Order) (cid : Z) :
  ~ has_delivery (List.filter (fun o => negb (o_customerId o =? cid)) orders) cid.
Proof.
  intros [last H]. unfold getLastDeliveredYmd, orders_of in H.
  rewrite (filter_all_false _ (List.filter _ orders)) in H; [done|].
  apply Forall_forall. intros o Ho.
  apply list_elem_of_In, filter_In in Ho as [_ Ho].
  destruct (Z.eqb_spec (o_customerId o) cid); done.
Qed.

(** X23.  After deleteAllByCustomer on the History page (clock in the
    years 0000..9999) the customer has no order and no plan entry left,
    and every plan entry that remains was there before or is one the
    rebuild may add. *)
Theorem deleteAllByCustomer_clears (fuel : nat) (clock : Z)
    (customers : list Customer) (orders orders' : list Order)
    (plans plans' : gset PlanRecord) (cid : Z) :
  four_digit_year clock ->
  deleteAllByCustomer fuel clock customers orders plans cid
    = Returns (orders', plans') ->
  (forall o, o ∈ orders' -> o_customerId o <> cid) /\
  (forall p, p ∈ plans' -> customerId p <> cid) /\
  (forall p, p ∈ plans' ->
     p ∈ plans \/
     planned_for (jstYmdFromDate clock) (jstYmdFromDate (clock + 370))
       orders' customers p).
Proof.
  intros H4 H. unfold deleteAllByCustomer in H.
  destruct (buildMonthlyPlanByThreshold _ _ _ _ _ _) as [plans2| |] eqn:E;
    [|done..].
  rewrite bind_Returns in H. injection H as <- <-.
  pose proof (pass_additions _ _ _ _ _ _ _ H4 E) as HA.
  destruct (purgePlansForCustomer_effect_aux clock cid None None plans)
    as (HP & _ & _). cbv zeta in HP.
  split; [|split].
  - intros o Ho. apply list_elem_of_In, filter_In in Ho as [_ Ho].
    destruct (Z.eqb_spec (o_customerId o) cid); done.
  - intros p Hp Hc. destruct (HA p Hp) as [Hin|(_ & _ & Hd & _)].
    + apply HP in Hin as [_ Hn]. apply Hn. unfold purge_target. done.
    + rewrite Hc in Hd. by apply no_orders_no_delivery in Hd.
  - intros p Hp. destruct (HA p Hp) as [Hin|Hpl]; [left|right; exact Hpl].
    by apply HP in Hin as [Hin _].
Qed.

Lemma deleteAllByCustomer_clears_witness :
  (forall o, o ∈ [ {| o_customerId := 1; date := "2024-03-10" |} ] ->
     o_customerId o <> 2) /\
  (forall p, p ∈ (list_to_set [ mkPlan (Ymd 2025 1 2) 1; mkPlan (Ymd 2025 3 16) 1 ]
                    : gset PlanRecord) -> customerId p <> 2) /\
  (forall p, p ∈ (list_to_set [ mkPlan (Ymd 2025 1 2) 1; mkPlan (Ymd 2025 3 16) 1 ]
                    : gset PlanRecord) ->
     p ∈ sample_after \/
     planned_for (jstYmdFromDate sample_clock) (jstYmdFromDate (sample_clock + 370))
       [ {| o_customerId := 1; date := "2024-03-10" |} ] sample_customers p).
Proof.
  apply (deleteAllByCustomer_clears 40 sample_clock sample_customers sample_orders
           [ {| o_customerId := 1; date := "2024-03-10" |} ]
           sample_after
           (list_to_set [ mkPlan (Ymd 2025 1 2) 1; mkPlan (Ymd 2025 3 16) 1 ]) 2).
  - vm_compute. split; discriminate.
  - unfold deleteAllByCustomer.
    rewrite (PassTheorems.returns_by_elements _
               (list_to_set [ mkPlan (Ymd 2025 1 2) 1; mkPlan (Ymd 2025 3 16) 1 ]));
      [reflexivity|].
    vm_compute. reflexivity.
Defined.

End HorizonFacts.

Module ApiFacts.
Import Calendar CalendarFacts DateString YmdFacts Reception PredictNextApi
       ReceptionApi.
Import DateSpec ApiSpec.
Import StringFacts.

Lemma addDaysJst_parsed (s : ymd) (d n : Z) :
  parseYmd s = Some d -> addDaysJst s n = Returns (jstYmdFromDate (d + n)).
Proof.
  intros H. unfold addDaysJst, setDate. rewrite H. by rewrite setDate_shift.
Qed.

(** X24.  The request the reception form posts carries no cycleDays, so
    the handler of /api/predict-next answers it with status 400, the form's
    predictNextByApi gives null, and the next date the form stores is
    always its own local estimate. *)
Theorem reception_request_rejected (input : ApiInput) (iso : ymd)
    (tankCapacity monthlyUsage : Q) :
  status (onRequestPost (posted input)) = 400 /\
  predictNextByApi (as_fetched (onRequestPost (posted input))) = None /\
  nextISO (as_fetched (onRequestPost (posted input))) iso tankCapacity monthlyUsage
    = fallbackNextISO iso tankCapacity monthlyUsage.
Proof.
  unfold posted, onRequestPost. cbn [b_lastDate b_cycleDays].
  assert (forall o : option ymd,
            match o, @None Z with
            | Some lastDate, Some cycleDays =>
                match addDaysJst lastDate cycleDays with
                | Returns next => {| status := 200; body := ReplyNext next |}
                | _ => {| status := 500; body := ReplyMessage "internal error" |}
                end
            | _, _ => {| status := 400; body := ReplyMessage "bad request" |}
            end = {| status := 400; body := ReplyMessage "bad request" |}) as E
    by (by intros []).
  rewrite E. split; [done|]. split; [done|]. unfold nextISO. done.
Qed.

(** X25.  A request with a well-formed last date that is a date of the
    calendar and a finite cycleDays gets status 200 and the date cycleDays
    days later, which the form's predictNextByApi accepts (years
    0000..9999); a well-formed last date that is no date gets status 500, a
    missing or malformed one status 400, and any method other than POST
    204 or 405: in all of these predictNextByApi gives null. *)
Theorem predict_next_round_trip (s : string) (last : ymd) (n : Z)
    (cycleDays : option Z) (method : string) (request : request_json) :
  ISO_YMD s = Some last ->
  (forall d, parseYmd last = Some d -> four_digit_year (d + n) ->
     onRequestPost (Json {| b_lastDate := Some s; b_cycleDays := Some n |})
       = {| status := 200; body := ReplyNext (jstYmdFromDate (d + n)) |} /\
     predictNextByApi
       (as_fetched
          (onRequestPost (Json {| b_lastDate := Some s; b_cycleDays := Some n |})))
       = Some (to_string (jstYmdFromDate (d + n)))) /\
  (parseYmd last = None ->
     status (onRequestPost (Json {| b_lastDate := Some s; b_cycleDays := Some n |}))
       = 500 /\
     predictNextByApi
       (as_fetched
          (onRequestPost (Json {| b_lastDate := Some s; b_cycleDays := Some n |})))
       = None) /\
  status (onRequestPost NotJson) = 400 /\
  status (onRequestPost (Json {| b_lastDate := None; b_cycleDays := cycleDays |}))
    = 400 /\
  (method <> "POST"%string ->
     (status (onRequest method request) = 204 \/
      status (onRequest method request) = 405) /\
     predictNextByApi (as_fetched (onRequest method request)) = None).
Proof.
  intros Hs. split; [|split; [|split; [|split]]].
  - intros d Hd H4. unfold onRequestPost. cbn [b_lastDate b_cycleDays mbind option_bind].
    rewrite Hs, (addDaysJst_parsed _ _ _ Hd). split; [done|].
    unfold as_fetched, predictNextByApi. cbn [status body]. cbn [Z.leb andb].
    cbn. unfold matches_ISO.
    by rewrite (proj1 (jstYmdFromDate_round_trip_aux _ H4)).
  - intros Hd. unfold onRequestPost. cbn [b_lastDate b_cycleDays mbind option_bind].
    rewrite Hs. unfold addDaysJst. rewrite Hd. done.
  - done.
  - done.
  - intros Hm. unfold onRequest.
    destruct (String.eqb_spec method "POST"); [done|].
    destruct (String.eqb method "OPTIONS"); cbn; auto.
Qed.

Lemma predict_next_round_trip_witness :
  onRequestPost (Json {| b_lastDate := Some "2024-01-10"%string;
                         b_cycleDays := Some 38 |})
    = {| status := 200;
         body := ReplyNext (jstYmdFromDate (MakeDay 2024 0 10 + 38)) |} /\
  predictNextByApi
    (as_fetched
       (onRequestPost (Json {| b_lastDate := Some "2024-01-10"%string;
                               b_cycleDays := Some 38 |})))
    = Some (to_string (jstYmdFromDate (MakeDay 2024 0 10 + 38))).
Proof.
  apply (proj1 (predict_next_round_trip "2024-01-10" (Ymd 2024 1 10) 38 None
                  "GET" NotJson eq_refl) (MakeDay 2024 0 10)).
  - reflexivity.
  - vm_compute. split; discriminate.
Defined.

End ApiFacts.

Module ChainFacts.
Import Calendar CalendarFacts DateString YmdFacts Predict PredictFacts PlanFacts
       PredictPlan.
Import DateSpec PredictSpec ChainSpec.
Import PhaseFacts.





End ChainFacts.

Module AdjustFacts.
Import Calendar CalendarFacts DateString YmdFacts PredictPlan SortedFacts.
Import DateSpec.
Import StringFacts.

Lemma digit_range (c : ascii) (n : Z) : digit c = Some n -> 0 <= n <= 9.
Proof.
  unfold digit. destruct (_ && _) eqn:E; [|done]. intros [= <-]. lia.
Qed.

Lemma ISO_YMD_fields (s : string) (d : ymd) :
  ISO_YMD s = Some d ->
  0 <= year d <= 9999 /\ 0 <= month d <= 99 /\ 0 <= day d <= 99.
Proof.
  unfold ISO_YMD. intros H.
  repeat match type of H with
         | None = Some _ => discriminate H
         | context [match ?x with _ => _ end] => is_var x; destruct x
         end.
  repeat match type of H with
         | context [digit ?c] =>
             let E := fresh "E" in
             destruct (digit c) eqn:E; [apply digit_range in E|discriminate H];
             cbn [mbind option_bind] in H
         end.
  injection H as <-. simpl. lia.
Qed.

Lemma read_back (l : list ymd) :
  Forall (fun d => exists s, ISO_YMD s = Some d) l ->
  omap ISO_YMD (to_string <$> l) = l.
Proof.
  induction 1 as [|d l [s Hs] _ IH]; [done|].
  rewrite fmap_cons. cbn [omap list_omap].
  destruct (ISO_YMD_fields s d Hs) as (Y & M & D).
  rewrite (ISO_YMD_to_string d Y M D). by rewrite IH.
Qed.

Lemma set_add_spec (d : ymd) (s : list ymd) :
  (forall x, x ∈ set_add d s <-> x = d \/ x ∈ s) /\
  (NoDup s -> NoDup (set_add d s)).
Proof.
  unfold set_add. destruct (decide (d ∈ s)) as [H|H].
  - split; [|done]. intros x. split; [by right|]. by intros [->|?].
  - split.
    + intros x. rewrite elem_of_app, list_elem_of_singleton. tauto.
    + intros Hn. apply NoDup_app. split; [done|]. split.
      * intros x Hx Hd. apply list_elem_of_singleton in Hd as ->. done.
      * apply NoDup_singleton.
Qed.

Lemma fold_add_spec (keep : ymd -> bool) (l acc : list ymd) :
  let r := fold_left (fun out d => if keep d then set_add d out else out) l acc in
  (forall x, x ∈ r <-> (x ∈ l /\ keep x = true) \/ x ∈ acc) /\
  (NoDup acc -> NoDup r).
Proof.
  revert acc. induction l as [|d l IH]; intros acc; cbn [fold_left].
  - split; [|done]. intros x. split; [by right|].
    intros [[H _]|H]; [by apply elem_of_nil in H|done].
  - destruct (IH (if keep d then set_add d acc else acc)) as [I1 I2].
    destruct (set_add_spec d acc) as [S1 S2]. cbv zeta in *.
    split.
    + intros x. rewrite I1, elem_of_cons.
      destruct (keep d) eqn:E.
      * rewrite S1. split; [|intros [[[->|?] ?]|?]; auto].
        intros [[? ?]|[->|?]]; auto.
      * split; [intros [[? ?]|?]; auto|].
        intros [[[->|?] ?]|?]; auto. congruence.
    + intros Hn. apply I2. destruct (keep d); auto.
Qed.

Lemma new_Set_spec (l : list ymd) :
  (forall x, x ∈ new_Set l <-> x ∈ l) /\ NoDup (new_Set l).
Proof.
  unfold new_Set.
  destruct (fold_add_spec (fun _ => true) l []) as [H1 H2]. cbv zeta in *.
  split.
  - intros x. rewrite H1. split; [intros [[? _]|H]; [done|by apply elem_of_nil in H]|].
    intros H. by left.
  - apply H2. constructor.
Qed.

Lemma sorted_strict (l : list ymd) :
  StronglySorted ymd_le l -> NoDup l -> StronglySorted ymd_lt l.
Proof.
  induction 1 as [|a l Hs IH Ha]; intros Hn; [constructor|].
  apply NoDup_cons in Hn as [Hnot Hn]. constructor; [by apply IH|].
  rewrite Forall_forall in Ha |- *. intros b Hb.
  apply ymd_lt_iff. split; [by apply Ha|]. intros ->. done.
Qed.

Lemma applyPlanAdjustment_unfold (plannedDates : list string)
    (adjustment : RagPlanAdjustment) :
  exists outSet,
    applyPlanAdjustment plannedDates adjustment = sort_ymd outSet /\
    NoDup outSet /\
    forall d, d ∈ outSet <->
      d ∈ omap ISO_YMD (default [] (addDates adjustment)) \/
      (d ∈ omap ISO_YMD plannedDates /\
       d ∉ omap ISO_YMD (default [] (removeDates adjustment))).
Proof.
  unfold applyPlanAdjustment.
  set (removes := omap ISO_YMD (default [] (removeDates adjustment))).
  set (adds := omap ISO_YMD (default [] (addDates adjustment))).
  set (base := omap ISO_YMD plannedDates).
  destruct (new_Set_spec removes) as [R1 _].
  destruct (new_Set_spec adds) as [A1 _].
  pose proof (fold_add_spec (fun d => negb (bool_decide (d ∈ new_Set removes)))
                base []) as [B1 B2].
  cbv zeta in B1, B2.
  assert (forall (l acc : list ymd),
            fold_left (fun out d => if decide (d ∈ new_Set removes) then out
                                    else set_add d out) l acc
            = fold_left (fun out d => if negb (bool_decide (d ∈ new_Set removes))
                                      then set_add d out else out) l acc) as E'.
  { induction l as [|x l IH]; intros acc; [done|]. cbn [fold_left].
    rewrite IH.
    destruct (decide (x ∈ new_Set removes)) as [H|H];
      [rewrite bool_decide_eq_true_2 by done|rewrite bool_decide_eq_false_2 by done];
      done. }
  rewrite E'. clear E'.
  set (out1 := fold_left _ base []) in *.
  pose proof (fold_add_spec (fun _ => true) (new_Set adds) out1) as [C1 C2].
  cbv zeta in C1, C2.
  eexists. split; [reflexivity|]. split.
  - apply C2, B2. constructor.
  - intros d. rewrite C1, B1, A1.
    rewrite negb_true_iff, bool_decide_eq_false, R1.
    split.
    + intros [[? _]|[[? ?]|H]]; [by left|by right|by apply elem_of_nil in H].
    + intros [?|[? ?]]; [left; done|right; left; done].
Qed.

(** X27.  applyPlanAdjustment returns, strictly ascending and so without
    duplicates, exactly the well-formed dates to add together with the
    well-formed planned dates that are not among the dates to remove (a date
    both removed and added stays); applied again to its own result, the
    same adjustment changes nothing. *)
Theorem applyPlanAdjustment_result (plannedDates : list string)
    (adjustment : RagPlanAdjustment) :
  let out := applyPlanAdjustment plannedDates adjustment in
  StronglySorted ymd_lt out /\
  (forall d, d ∈ out <->
     d ∈ omap ISO_YMD (default [] (addDates adjustment)) \/
     (d ∈ omap ISO_YMD plannedDates /\
      d ∉ omap ISO_YMD (default [] (removeDates adjustment)))) /\
  applyPlanAdjustment (to_string <$> out) adjustment = out.
Proof.
  intros out. subst out.
  destruct (applyPlanAdjustment_unfold plannedDates adjustment)
    as (outSet & E & Hn & Hin).
  assert (forall d, d ∈ sort_ymd outSet <-> d ∈ outSet) as Hs.
  { intros d. unfold sort_ymd. by rewrite merge_sort_Permutation. }
  assert (StronglySorted ymd_lt (sort_ymd outSet)) as Hsorted.
  { apply sorted_strict.
    - apply StronglySorted_merge_sort; apply _.
    - unfold sort_ymd. by rewrite merge_sort_Permutation. }
  rewrite E. split; [done|]. split.
  { intros d. by rewrite Hs, Hin. }
  destruct (applyPlanAdjustment_unfold (to_string <$> sort_ymd outSet) adjustment)
    as (outSet' & E' & Hn' & Hin').
  rewrite E'.
  rewrite read_back in Hin'.
  2:{ apply Forall_forall. intros d Hd. apply Hs, Hin in Hd.
      destruct Hd as [Hd|[Hd _]]; apply list_elem_of_omap in Hd as (s & _ & Hd); eauto. }
  apply (Sorted_unique ymd_le).
  - apply Sorted_merge_sort; apply _.
  - apply StronglySorted_Sorted, StronglySorted_lt_le, Hsorted.
  - unfold sort_ymd at 1. rewrite merge_sort_Permutation.
    apply NoDup_Permutation; [done|by apply StronglySorted_lt_NoDup|].
    intros d. rewrite Hin', !Hs, Hin. tauto.
Qed.

End AdjustFacts.

Module SummaryFacts.
Import Calendar DateString Forecast TargetFacts MonthlyFacts PredictPlan.
Import PlanSpec SummarySpec.

Lemma min_fold (l : list ymd) (acc : option Z) :
  match fold_left min_step l acc with
  | None => acc = None /\ l = []
  | Some m =>
      (acc = Some m \/ exists d, d ∈ l /\ year d = m) /\
      (forall a, acc = Some a -> m <= a) /\
      (forall d, d ∈ l -> m <= year d)
  end.
Proof.
  revert acc. induction l as [|x l IH]; intros acc.
  - cbn. destruct acc as [a|]; [|done]. split; [by left|]. split.
    + intros ? [= ->]. lia.
    + intros d H. by apply elem_of_nil in H.
  - cbn [fold_left]. specialize (IH (min_step acc x)).
    destruct (fold_left min_step l (min_step acc x)) as [m|].
    + destruct IH as (I1 & I2 & I3).
      assert (min_step acc x = Some (year x) \/ min_step acc x = acc) as Hc.
      { unfold min_step. destruct acc as [a|]; [|by left].
        destruct (year x <? a); auto. }
      assert (forall v, min_step acc x = Some v ->
                v <= year x /\ forall a, acc = Some a -> v <= a) as Hv.
      { unfold min_step. intros v. destruct acc as [a|].
        - destruct (Z.ltb_spec (year x) a); intros [= <-]; split; try lia;
            intros ? [= ->]; lia.
        - intros [= <-]. split; [lia|done]. }
      split; [|split].
      * destruct I1 as [I1|(d & Hd & Hy)]; [|right; exists d; split; [by right|done]].
        destruct Hc as [Hc|Hc]; [|left; congruence].
        right. exists x. split; [left|congruence].
      * intros a Ha. destruct (min_step acc x) as [v|] eqn:E.
        -- destruct (Hv v eq_refl) as [_ Hv2]. specialize (I2 v eq_refl).
           specialize (Hv2 a Ha). lia.
        -- unfold min_step in E. by destruct acc as [?|]; [destruct (_ <? _)|].
      * intros d Hd. apply elem_of_cons in Hd as [->|Hd]; [|by apply I3].
        destruct (min_step acc x) as [v|] eqn:E.
        -- destruct (Hv v eq_refl) as [Hv1 _]. specialize (I2 v eq_refl). lia.
        -- unfold min_step in E. by destruct acc as [?|]; [destruct (_ <? _)|].
    + destruct IH as [IH _]. unfold min_step in IH.
      by destruct acc as [?|]; [destruct (_ <? _)|].
Qed.

Lemma tally_step_cases (Y : Z) (arr : list Z) (d : ymd) :
  (tally_step Y arr d = arr /\ counted Y d = false /\
   forall M, 1 <= M <= 12 -> in_month Y M d = false) \/
  (tally_step Y arr d = alter Z.succ (Z.to_nat (month d - 1)) arr /\
   counted Y d = true /\ 1 <= month d <= 12 /\
   forall M, in_month Y M d = (month d =? M)).
Proof.
  unfold tally_step, counted, in_month.
  destruct (Z.ltb_spec (month d) 1), (Z.ltb_spec 12 (month d)),
    (Z.eqb_spec (year d) Y), (Z.leb_spec 1 (month d)), (Z.leb_spec (month d) 12);
    try lia; cbn [orb andb negb];
    first [ left; split; [done|]; split; [done|]; intros M HM;
            destruct (Z.eqb_spec (month d) M); try done; lia
          | right; split; [done|]; split; [done|]; split; [lia|]; done ].
Qed.

Lemma filter_length_cons {A : Type} (f : A -> bool) (x : A) (l : list A) :
  Z.of_nat (length (List.filter f (x :: l)))
    = (if f x then 1 else 0) + Z.of_nat (length (List.filter f l)).
Proof. cbn [List.filter]. destruct (f x); cbn [length]; lia. Qed.

Lemma tally_fold (Y : Z) (l : list ymd) (arr : list Z) :
  length arr = 12%nat ->
  let r := fold_left (tally_step Y) l arr in
  length r = 12%nat /\
  (forall M x, 1 <= M <= 12 -> arr !! Z.to_nat (M - 1) = Some x ->
     r !! Z.to_nat (M - 1) = Some (x + month_total Y M l)) /\
  sumZ r = sumZ arr + Z.of_nat (length (List.filter (counted Y) l)).
Proof.
  revert arr. induction l as [|d l IH]; intros arr Hlen; cbn [fold_left].
  - split; [done|]. split.
    + intros M x _ Hx. rewrite Hx. f_equal. unfold month_total. simpl. lia.
    + simpl. lia.
  - cbv zeta. unfold month_total. setoid_rewrite filter_length_cons.
    destruct (tally_step_cases Y arr d) as [(-> & HC & HM)|(-> & HC & Hm & HM)];
      rewrite HC.
    + destruct (IH arr Hlen) as (I1 & I2 & I3). cbv zeta in *.
      split; [done|]. split; [|lia].
      intros M x HM' Hx. rewrite (I2 M x HM' Hx), (HM M HM').
      unfold month_total. f_equal.
    + assert (Z.to_nat (month d - 1) < length arr)%nat as Hi by lia.
      destruct (lookup_lt_is_Some_2 _ _ Hi) as [v Hv].
      destruct (IH (alter Z.succ (Z.to_nat (month d - 1)) arr)) as (I1 & I2 & I3);
        [by rewrite length_alter|]. cbv zeta in *.
      split; [done|]. split.
      * intros M x HM' Hx. rewrite HM. unfold month_total in I2.
        destruct (Z.eqb_spec (month d) M) as [E|N].
        -- subst M. rewrite (I2 (month d) (Z.succ x) HM').
           ++ f_equal. lia.
           ++ rewrite list_lookup_alter_eq, Hx. reflexivity.
        -- rewrite (I2 M x HM').
           ++ f_equal.
           ++ rewrite list_lookup_alter_ne by lia. done.
      * rewrite I3, (sumZ_alter _ _ _ _ Hv). lia.
Qed.

(** X28.  summarizePlannedDates returns null exactly when no planned date
    is well-formed.  Otherwise its year is the earliest year among the
    well-formed dates, monthlyCounts has twelve entries, the entry of each
    month is the number of well-formed dates in that month of that year,
    and totalCount is the number of well-formed dates of that year whose
    month field is 1..12; the clock plays no part. *)
Theorem summarizePlannedDates_summary (clock : Z) (plannedDates : list string) :
  let valid := omap ISO_YMD plannedDates in
  match summarizePlannedDates clock plannedDates with
  | None => valid = []
  | Some s =>
      (exists d, d ∈ valid /\ year d = s_year s) /\
      (forall d, d ∈ valid -> s_year s <= year d) /\
      length (s_monthlyCounts s) = 12%nat /\
      (forall M, 1 <= M <= 12 ->
         s_monthlyCounts s !! Z.to_nat (M - 1)
           = Some (month_total (s_year s) M valid)) /\
      s_totalCount s = Z.of_nat (length (List.filter (counted (s_year s)) valid))
  end.
Proof.
  intros valid. unfold summarizePlannedDates.
  destruct plannedDates as [|p ps]; [done|]. fold valid.
  destruct valid as [|v vs] eqn:EV; [done|].
  change (min_year (v :: vs)) with (fold_left min_step (v :: vs) None).
  pose proof (min_fold (v :: vs) None) as HM.
  destruct (fold_left min_step (v :: vs) None) as [y|]; [|by destruct HM].
  destruct HM as ([?|Hex] & _ & Hmin); [done|].
  cbn [s_year s_totalCount s_monthlyCounts].
  change (fold_left _ (v :: vs) (replicate 12 0))
    with (fold_left (tally_step y) (v :: vs) (replicate 12 0)).
  destruct (tally_fold y (v :: vs) (replicate 12 0) eq_refl) as (T1 & T2 & T3).
  cbv zeta in *.
  split; [done|]. split; [done|]. split; [done|]. split.
  - intros M HM. rewrite (T2 M 0 HM); [f_equal; lia|].
    apply lookup_replicate_2. lia.
  - rewrite T3. rewrite sumZ_replicate_0. lia.
Qed.

End SummaryFacts.

Module MetricFacts.
Import Vrp VrpFacts KmFacts.
Import VrpSpec.
Local Open Scope R_scope.

Lemma toRad_minus (x y : R) : toRad (x - y) = toRad x - toRad y.
Proof. unfold toRad. Lra.lra. Qed.

Lemma toRad_quarter (x : R) :
  -90 <= x <= 90 -> - (PI / 2) <= toRad x <= PI / 2.
Proof. intros H. pose proof PI_RGT_0. unfold toRad. split; Lra.nra. Qed.

Lemma sin_sq_bound (x : R) : 0 <= sin x ^ 2 <= 1.
Proof.
  pose proof (SIN_bound x) as [H1 H2]. split; [apply pow2_ge_0|]. Lra.nra.
Qed.

(** The quantity under the square root. *)
Lemma hav_range (a b : Point R) :
  -90 <= lat a <= 90 -> -90 <= lat b <= 90 ->
  0 <= sin (toRad (lat b - lat a) / 2) ^ 2 +
       cos (toRad (lat a)) * cos (toRad (lat b)) *
       sin (toRad (lng b - lng a) / 2) ^ 2 <= 1.
Proof.
  intros Ha Hb. rewrite toRad_minus.
  set (p1 := toRad (lat a)). set (p2 := toRad (lat b)).
  set (B := sin (toRad (lng b - lng a) / 2) ^ 2).
  pose proof (sin_sq_bound (toRad (lng b - lng a) / 2)) as HB. fold B in HB.
  pose proof (sin_sq_bound ((p2 - p1) / 2)) as HA.
  destruct (toRad_quarter _ Ha) as [A1 A2]. destruct (toRad_quarter _ Hb) as [B1 B2].
  pose proof (cos_ge_0 p1 A1 A2) as C1. pose proof (cos_ge_0 p2 B1 B2) as C2.
  pose proof (cos_2a_sin ((p2 - p1) / 2)) as D.
  replace (2 * ((p2 - p1) / 2)) with (p2 - p1) in D by Lra.lra.
  pose proof (cos_minus p2 p1) as M. pose proof (cos_plus p2 p1) as P.
  pose proof (COS_bound (p2 + p1)) as [_ Q].
  set (A := sin ((p2 - p1) / 2) ^ 2) in *.
  assert (sin ((p2 - p1) / 2) * sin ((p2 - p1) / 2) = A) as EA by (subst A; ring).
  assert (cos p1 * cos p2 <= 1 - A) as K by Lra.nra.
  assert (0 <= cos p1 * cos p2) as K0 by (apply Rmult_le_pos; done).
  split; Lra.nra.
Qed.

Lemma haversineKm_self (a : Point R) : haversineKm a a = 0.
Proof.
  rewrite haversine_form. unfold toRad.
  replace ((lat a - lat a) * PI / 180 / 2) with 0 by Lra.lra.
  replace ((lng a - lng a) * PI / 180 / 2) with 0 by Lra.lra.
  rewrite sin_0.
  replace (0 ^ 2 + cos (lat a * PI / 180) * cos (lat a * PI / 180) * 0 ^ 2)
    with 0 by ring.
  rewrite sqrt_0, Rmin_right by Lra.lra. rewrite asin_0. ring.
Qed.

Lemma haversineKm_nonneg (a b : Point R) : 0 <= haversineKm a b.
Proof.
  rewrite haversine_form.
  set (h := sin _ ^ 2 + _).
  pose proof (sqrt_pos h) as Hs.
  assert (0 <= Rmin 1 (sqrt h) <= 1) as [M0 M1].
  { split; [apply Rmin_glb; Lra.lra|apply Rmin_l]. }
  assert (0 <= asin (Rmin 1 (sqrt h))) as H.
  { destruct (Req_dec (Rmin 1 (sqrt h)) 0) as [->|N]; [rewrite asin_0; Lra.lra|].
    rewrite <- asin_0. apply Rlt_le, asin_lt; Lra.lra. }
  Lra.lra.
Qed.

(** X29.  haversineKm is symmetric, it is 0 from a point to itself, and
    for latitudes between -90 and 90 degrees the quantity under its square
    root lies between 0 and 1, so the distance lies between 0 and half the
    circumference 6371 * PI. *)
Theorem haversineKm_distance (a b : Point R) :
  -90 <= lat a <= 90 -> -90 <= lat b <= 90 ->
  haversineKm a b = haversineKm b a /\
  haversineKm a a = 0 /\
  0 <= sin (toRad (lat b - lat a) / 2) ^ 2 +
       cos (toRad (lat a)) * cos (toRad (lat b)) *
       sin (toRad (lng b - lng a) / 2) ^ 2 <= 1 /\
  0 <= haversineKm a b <= 6371 * PI.
Proof.
  intros Ha Hb. split; [|split; [|split]].
  - rewrite !haversine_form. do 4 f_equal.
    replace (toRad (lat a - lat b) / 2) with (- (toRad (lat b - lat a) / 2))
      by (unfold toRad; Lra.lra).
    replace (toRad (lng a - lng b) / 2) with (- (toRad (lng b - lng a) / 2))
      by (unfold toRad; Lra.lra).
    rewrite !sin_neg. ring.
  - apply haversineKm_self.
  - by apply hav_range.
  - split; [apply haversineKm_nonneg|].
    rewrite haversine_form.
    pose proof (asin_bound (Rmin 1 (sqrt (sin (toRad (lat b - lat a) / 2) ^ 2 +
                  cos (toRad (lat a)) * cos (toRad (lat b)) *
                  sin (toRad (lng b - lng a) / 2) ^ 2)))) as [_ H].
    Lra.lra.
Qed.

Lemma haversineKm_distance_witness :
  haversineKm depot0 (point_of stopA) = haversineKm (point_of stopA) depot0 /\
  haversineKm depot0 depot0 = 0 /\
  0 <= sin (toRad (lat (point_of stopA) - lat depot0) / 2) ^ 2 +
       cos (toRad (lat depot0)) * cos (toRad (lat (point_of stopA))) *
       sin (toRad (lng (point_of stopA) - lng depot0) / 2) ^ 2 <= 1 /\
  0 <= haversineKm depot0 (point_of stopA) <= 6371 * PI.
Proof.
  apply (haversineKm_distance depot0 (point_of stopA)).
  - cbn [lat depot0]. split; Lra.lra.
  - cbn [lat point_of stopA rc_lat]. split; Lra.lra.
Defined.

Lemma scan_keeps_zero (current : Point R) (rest : list (RouteCandidate R))
    (i bestIndex : nat) :
  scan R Rltb haversineKm current rest i bestIndex (Some 0) = bestIndex.
Proof.
  revert i. induction rest as [|r rest IH]; intros i; [done|].
  cbn [scan below].
  replace (Rltb (haversineKm current (point_of r)) 0) with false; [apply IH|].
  symmetry. apply Rltb_false. apply haversineKm_nonneg.
Qed.

(** X30.  A first candidate that sits at the depot is visited first:
    this is the route Today.tsx gets when no depot is configured and it
    takes the coordinates of its first row as the depot. *)
Theorem buildSimpleRoute_starts_at_depot (depot : Point R)
    (c : RouteCandidate R) (rest : list (RouteCandidate R)) :
  point_of c = depot ->
  exists tail, buildSimpleRouteKm depot (c :: rest) = c :: tail /\ tail ≡ₚ rest.
Proof.
  intros Hc. unfold buildSimpleRouteKm, buildSimpleRoute.
  cbn [length route_loop scan below].
  rewrite <- Hc. rewrite haversineKm_self, scan_keeps_zero.
  cbn [lookup list_lookup delete list_delete app].
  destruct (route_loop_greedy R Rltb haversineKm Rltb_irrefl Rltb_trans
              (length rest) (point_of c) rest [c] eq_refl) as (tail & E & P & _).
  exists tail. split; done.
Qed.

Lemma buildSimpleRoute_starts_at_depot_witness :
  exists tail,
    buildSimpleRouteKm (point_of stopB) (stopB :: [stopA]) = stopB :: tail /\
    tail ≡ₚ [stopA].
Proof. by apply (buildSimpleRoute_starts_at_depot (point_of stopB) stopB [stopA]). Defined.

End MetricFacts.
